(** * Enhanced SecretBot: the ingestion-to-dispatch pipeline

    A shallow embedding of the JavaScript sources of the bot:
    - [DatabaseManager.cacheSet] / [cacheGet]  (src/database/DatabaseManager.js),
    - the [ai] command, src/commands/ai.js: [onStart], [onReply] and its helper
      methods (in the source tree at hand its text follows docker-compose.yml,
      lines 179 to 535),
    - [ConfigManager.get] / [getAIConfig], src/utils/ConfigManager.js (same
      file, lines 535 to 806),
    - [BotManager]: [handleMessage], [handleEvent], [handleReaction], the
      stream listeners, [initialize], [start], [stop] and [isReady]
      (src/core/BotManager.js),
    - further, [DatabaseManager.cacheDelete], [cacheFlush], [healthCheck],
      [handleConnectionError] and [disconnect], [BotManager.performCleanup],
      [ConfigManager.processConfig], and [stop] of the application object
      (src/index.js, whose text follows BotManager.js in the source tree at
      hand).

    An [async] function is a state transformer that either returns a value or
    throws (a rejected promise), and [await] is sequencing: such a definition
    gives one invocation from its call to its end, with no other handler
    running while it awaits.  The program does not serialise its handlers;
    what invocations of the [ai] command do to the sessions when they overlap
    is the subject of module [AiAsync], where every stretch between two
    awaits is a step of its own.  Strings are UTF-8 texts, byte by byte.
    Every call into a collaborator whose code is outside the repository (the
    Redis client, the OpenAI client, the chat transport) is answered by an
    explicit oracle, and is recorded in a trace so that statements of the
    form "no call is made" can be read off the final state. *)

From Stdlib Require Import ZArith Lia DecimalString.
From stdpp Require Import gmap strings list.

Open Scope string_scope.
Open Scope list_scope.

(** ** JavaScript control flow: return, throw, try / catch *)

Module Js.

(** An [Error] object; only the fields the sources inspect. *)
Record JsError := { code : string; message : string }.

Inductive Outcome (A : Type) : Type :=
| Ret (a : A)
| Throw (e : JsError).
Arguments Ret {A} a.
Arguments Throw {A} e.

(** A computation over a mutable store [S]. *)
Definition Eff (S A : Type) : Type := S -> Outcome A * S.

Definition ret {S A} (a : A) : Eff S A := fun s => (Ret a, s).
Definition throw {S A} (e : JsError) : Eff S A := fun s => (Throw e, s).
Definition bind {S A B} (m : Eff S A) (k : A -> Eff S B) : Eff S B :=
  fun s => match m s with
           | (Ret a, s') => k a s'
           | (Throw e, s') => (Throw e, s')
           end.

(** [try { body } catch (error) { handler }] *)
Definition try_catch {S A} (body : Eff S A) (handler : JsError -> Eff S A) : Eff S A :=
  fun s => match body s with
           | (Ret a, s') => (Ret a, s')
           | (Throw e, s') => handler e s'
           end.

Definition gets {S A} (f : S -> A) : Eff S A := fun s => (Ret (f s), s).
Definition modify {S} (f : S -> S) : Eff S unit := fun s => (Ret tt, f s).
(** The answer of a collaborator: returned or thrown. *)
Definition lift {S A} (o : Outcome A) : Eff S A := fun s => (o, s).


#[global] Instance eff_ret {S} : MRet (Eff S) := fun A => @ret S A.
#[global] Instance eff_bind {S} : MBind (Eff S) := fun A B k m => @bind S A B m k.

(** [JSON.parse(JSON.stringify(v))]: what a value is once it has been
    written as JSON text and read back (a [Date] comes back as the string of
    its [toISOString()]). *)
Class Json (V : Type) := json : V -> V.

End Js.
Export Js.

(** ** DatabaseManager: the mirrored cache (Redis operations) *)

Module Database.
Section Cache.

(** The type of cached values ([value] of [cacheSet]), with its passage
    through JSON. *)
Context {V : Type} {codec : Json V}.

Inductive LogLevel := LInfo | LWarn | LError.

(** One line written through the logger. *)
Record LogEntry := { level : LogLevel; text : string; err : option JsError }.

(** The Redis client held in [this.redis].  [store] is what the server
    holds, each text given by the value that [JSON.parse] reads from it;
    [setEx_reply k] is the answer to
    [setEx(k, ttl, JSON.stringify(value))]: a status string, or a thrown
    error (the connection is down, the value cannot be serialised, ...);
    [get_fault k] makes [get(k)] (or the [JSON.parse] of its result) throw. *)
Record RedisClient := {
  store : gmap string V;
  setEx_reply : string -> Outcome string;
  get_fault : string -> option JsError;
}.

(** [this.redis] is [null] when Redis is not configured or the connection
    failed ([connectRedis] sets it to [null] in its [catch]). *)
Record DatabaseManager := {
  redis : option RedisClient;
  dblog : list LogEntry;
}.

Definition log (lv : LogLevel) (t : string) (e : option JsError) : Eff DatabaseManager unit :=
  modify (fun d => {| redis := redis d;
                      dblog := dblog d ++ [ {| level := lv; text := t; err := e |} ] |}).

Definition write (r : RedisClient) (k : string) (v : V) : RedisClient :=
  {| store := <[k := v]> (store r); setEx_reply := setEx_reply r; get_fault := get_fault r |}.

(** [this.redis.setEx(key, expireSeconds, JSON.stringify(value))] *)
Definition redis_setEx (r : RedisClient) (key : string) (expireSeconds : Z) (value : V)
  : Eff DatabaseManager string :=
  match setEx_reply r key with
  | Ret status =>
      _ ← modify (fun d => {| redis := Some (if String.eqb status "OK"
                                             then write r key (json value) else r);
                              dblog := dblog d |});
      mret status
  | Throw e => throw e
  end.

(** [const result = await this.redis.get(key); result ? JSON.parse(result) : null] *)
Definition redis_get (r : RedisClient) (key : string) : Eff DatabaseManager (option V) :=
  match get_fault r key with
  | Some e => throw e
  | None => mret (store r !! key)
  end.

(** [async cacheSet(key, value, expireSeconds = 3600)] *)
Definition cacheSet (key : string) (value : V) (expireSeconds : Z) : Eff DatabaseManager bool :=
  r ← gets redis;
  match r with
  | None =>
      _ ← log LWarn "Redis not available, skipping cache set" None;
      mret false
  | Some client =>
      try_catch
        (result ← redis_setEx client key expireSeconds value;
         mret (String.eqb result "OK"))
        (fun error =>
           _ ← log LError ("Error setting cache for key " +:+ key +:+ ":") (Some error);
           mret false)
  end.

(** [async cacheGet(key)]; [None] is JavaScript's [null]. *)
Definition cacheGet (key : string) : Eff DatabaseManager (option V) :=
  r ← gets redis;
  match r with
  | None =>
      _ ← log LWarn "Redis not available, skipping cache get" None;
      mret None
  | Some client =>
      try_catch
        (redis_get client key)
        (fun error =>
           _ ← log LError ("Error getting cache for key " +:+ key +:+ ":") (Some error);
           mret None)
  end.

End Cache.
Arguments RedisClient : clear implicits.
Arguments DatabaseManager : clear implicits.
End Database.

(** ** String primitives of the JavaScript runtime *)

Module JsString.

Definition nl : string := String (Ascii.ascii_of_nat 10) EmptyString.
Definition dquote : string := String (Ascii.ascii_of_nat 34) EmptyString.

(** [c.toLowerCase()] on the ASCII letters; other bytes (in particular the
    bytes of a multi-byte UTF-8 character) are left as they are.  The program
    only compares a lower-cased string with the words clear, model, system
    and help and with the keys of the models table.  Two characters outside
    ASCII have an ASCII letter in their lower case: the Kelvin sign U+212A
    (k), a letter none of these words has, and U+0130, whose lower case is
    an i followed by the combining dot U+0307; so a string equals one of the
    words after [toLowerCase()] exactly when it does here. *)
Definition lower_ascii (c : Ascii.ascii) : Ascii.ascii :=
  let n := Ascii.nat_of_ascii c in
  if (65 <=? n)%nat && (n <=? 90)%nat then Ascii.ascii_of_nat (n + 32) else c.

Fixpoint toLowerCase (s : string) : string :=
  match s with
  | EmptyString => EmptyString
  | String c s' => String (lower_ascii c) (toLowerCase s')
  end.

(** A string of the program is a sequence of Unicode characters; here it is
    its UTF-8 encoding, one [ascii] per byte.  The ASCII characters are single
    bytes below 128, and no byte of a longer character is below 128, so the
    comparisons with ASCII words and the split at commas read the same on the
    bytes as on the characters. *)

(** White space and line terminators in the ASCII range: TAB, LF, VT, FF,
    CR and SPACE. *)
Definition is_space (c : Ascii.ascii) : bool :=
  let n := Ascii.nat_of_ascii c in
  ((9 <=? n)%nat && (n <=? 13)%nat) || (n =? 32)%nat.

(** The white space of two bytes: U+00A0 (no-break space), C2 A0. *)
Definition is_space2 (c1 c2 : Ascii.ascii) : bool :=
  (Ascii.nat_of_ascii c1 =? 194)%nat && (Ascii.nat_of_ascii c2 =? 160)%nat.

(** The white space and line terminators of three bytes: U+1680 (E1 9A 80),
    U+2000 to U+200A (E2 80 80 to E2 80 8A), the line and paragraph
    separators U+2028 and U+2029 (E2 80 A8, E2 80 A9), U+202F (E2 80 AF),
    U+205F (E2 81 9F), U+3000 (E3 80 80) and the byte order mark U+FEFF
    (EF BB BF). *)
Definition is_space3 (c1 c2 c3 : Ascii.ascii) : bool :=
  let n1 := Ascii.nat_of_ascii c1 in
  let n2 := Ascii.nat_of_ascii c2 in
  let n3 := Ascii.nat_of_ascii c3 in
  ((n1 =? 225) && (n2 =? 154) && (n3 =? 128))%nat
  || ((n1 =? 226) && (n2 =? 128)
      && (((128 <=? n3) && (n3 <=? 138)) || (n3 =? 168) || (n3 =? 169) || (n3 =? 175)))%nat
  || ((n1 =? 226) && (n2 =? 129) && (n3 =? 159))%nat
  || ((n1 =? 227) && (n2 =? 128) && (n3 =? 128))%nat
  || ((n1 =? 239) && (n2 =? 187) && (n3 =? 191))%nat.

(** [dropSpace s] is the rest of [s] after its first character when that
    character is one that [String.prototype.trim] strips (WhiteSpace or
    LineTerminator of ECMAScript), and [None] otherwise. *)
Definition dropSpace (s : string) : option string :=
  match s with
  | String c1 r1 =>
      if is_space c1 then Some r1
      else match r1 with
           | String c2 r2 =>
               if is_space2 c1 c2 then Some r2
               else match r2 with
                    | String c3 r3 => if is_space3 c1 c2 c3 then Some r3 else None
                    | EmptyString => None
                    end
           | EmptyString => None
           end
  | EmptyString => None
  end.

(** At most [fuel] characters are stripped; the length of [s] is enough. *)
Fixpoint trimStart_from (fuel : nat) (s : string) : string :=
  match fuel with
  | 0 => s
  | S n => match dropSpace s with
           | Some rest => trimStart_from n rest
           | None => s
           end
  end.

Definition trimStart (s : string) : string := trimStart_from (String.length s) s.

(** [s] consists of white space only. *)
Definition blank (s : string) : bool := String.eqb (trimStart s) "".

Fixpoint trimEnd (s : string) : string :=
  match s with
  | EmptyString => EmptyString
  | String c s' => if blank s then EmptyString else String c (trimEnd s')
  end.

(** [s.trim()] *)
Definition trim (s : string) : string := trimEnd (trimStart s).

(** U+00A0 and U+3000, for the examples. *)
Definition nbsp : string :=
  String (Ascii.ascii_of_nat 194) (String (Ascii.ascii_of_nat 160) EmptyString).
Definition ideographicSpace : string :=
  String (Ascii.ascii_of_nat 227)
    (String (Ascii.ascii_of_nat 128) (String (Ascii.ascii_of_nat 128) EmptyString)).

(** [l.join(sep)] *)
Fixpoint join (sep : string) (l : list string) : string :=
  match l with
  | [] => ""
  | [x] => x
  | x :: rest => x +:+ sep +:+ join sep rest
  end.

(** Truthiness of a string value: only the empty string is falsy. *)
Definition nonempty (s : string) : bool := negb (String.eqb s "").

(** Truthiness of a value that is a string, [null] or [undefined]. *)
Definition truthy (o : option string) : bool :=
  match o with Some s => nonempty s | None => false end.

End JsString.
Import JsString.

(** ** ConfigManager: the part the [ai] command reads *)

Module Config.

(** [this.config] restricted to the two keys read by [getAIConfig];
    [None] is a key that is absent ([undefined]). *)
Record ConfigManager := {
  isInitialized : bool;
  OPENAI_API_KEY : option string;
  OPENAI_MODEL : option string;
}.

Definition notInitialized : JsError :=
  {| code := ""; message := "ConfigManager not initialized. Call initialize() first." |}.

(** [get(key, defaultValue = null)], at a key whose entry is [entry]. *)
Definition get (cm : ConfigManager) (entry : ConfigManager -> option string)
  : Outcome (option string) :=
  if isInitialized cm then Ret (entry cm) else Throw notInitialized.

(** [openaiConfig.openai] *)
Record AIConfig := { apiKey : option string; model : option string }.

(** [getAIConfig()] *)
Definition getAIConfig (cm : ConfigManager) : Outcome AIConfig :=
  match get cm OPENAI_API_KEY with
  | Throw e => Throw e
  | Ret k =>
      match get cm OPENAI_MODEL with
      | Throw e => Throw e
      | Ret m => Ret {| apiKey := k; model := m |}
      end
  end.

End Config.

(** ** What the chat transport delivers and accepts *)

Module Transport.

(** A message notification. *)
Record Message := { senderID : string; threadID : string; messageID : string; body : string }.

(** A reaction notification. *)
Record Reaction := {
  reaction_senderID : string;
  reaction_threadID : string;
  reaction_messageID : string;
  emoji : string;
}.

(** Any other notification of the stream. *)
Record PlatformEvent := { type : string; payload : string }.

(** The three operations that put something on the wire. *)
Inductive Outbound :=
| Send (thread content : string)
| Reply (msgID content : string)
| React (msgID emo : string).

End Transport.

(** ** The [ai] command (src/commands/ai.js) *)

(** [onStart] and [onReply] below are one invocation of the handler, run
    from its call to the settlement of its promise without another handler in
    between: the store a stretch finds after an [await] is the store the
    stretch before it left.  For invocations that overlap see [AiAsync]; on
    an invocation alone the two agree (lemmas [onStart_alone] and
    [onReply_alone]). *)

Module Ai.
Import Transport.

Inductive Role := System | User | Assistant.

(** A point in time, in milliseconds: held as a [Date] object ([new Date()]),
    or as the ISO string that [JSON.stringify] writes for a [Date] and
    [JSON.parse] leaves a string. *)
Inductive Stamp := Date (ms : Z) | IsoString (ms : Z).

(** An element of [conversation.messages]. *)
Record Turn := { role : Role; content : string; timestamp : Stamp }.

(** An element of the [messages] array sent to the language model. *)
Record ChatMsg := { chat_role : Role; chat_content : string }.

Record Conversation := {
  id : string;
  userID : string;
  conv_threadID : string;
  model : string;
  systemPrompt : string;
  messages : list Turn;
  createdAt : Stamp;
  lastUsed : Stamp;
}.

(** A conversation after [JSON.stringify] and [JSON.parse]: the strings and
    the array are as before, every [Date] has become its ISO string.  (No
    field of a session is [undefined] here, so none is lost.) *)
Definition toJSON (t : Stamp) : Stamp :=
  match t with Date ms | IsoString ms => IsoString ms end.
Definition json_turn (t : Turn) : Turn :=
  {| role := role t; content := content t; timestamp := toJSON (timestamp t) |}.
Definition json_conversation (c : Conversation) : Conversation :=
  {| id := id c; userID := userID c; conv_threadID := conv_threadID c; model := model c;
     systemPrompt := systemPrompt c; messages := map json_turn (messages c);
     createdAt := toJSON (createdAt c); lastUsed := toJSON (lastUsed c) |}.
#[global] Instance conversation_json : Json Conversation := json_conversation.

(** The inbound message event, as far as the command reads it. *)
Definition Event : Type := Message.

(** An entry of [global.GoatBot.onReply]: the pending continuation that is
    handed to [onReply] as [Reply]. *)
Record ReplyEntry := {
  commandName : string;
  reply_messageID : string;
  author : string;
  conversationId : string;
}.

(** Calls that leave the command, in the order they are made. *)
Inductive Effect :=
| EReply (text : string)                           (* message.reply(text, ...) *)
| ETyping (thread : string)                        (* api.sendTypingIndicator(thread) *)
| ENewClient (key : option string)                 (* new OpenAI({ apiKey: key }) *)
| EComplete (mdl : string) (msgs : list ChatMsg)   (* openai.chat.completions.create *)
| EConvGet (key : string)                          (* this.conversations.get(key) *)
| EConvSet (key : string)                          (* this.conversations.set(key, _) *)
| EConvDelete (key : string)                       (* this.conversations.delete(key) *)
| ECacheSet (key : string) (ttl : Z)               (* databaseManager.cacheSet *)
| ECacheGet (key : string)                         (* databaseManager.cacheGet *)
| ELogger (lv : Database.LogLevel) (text : string) (e : option JsError).

(** What the collaborators answer during one invocation of a handler.
    [reply text] is the fate of [message.reply(text, callback)]: it throws,
    or the callback runs with an error ([Ret None]) or with the identifier
    of the message that was sent ([Ret (Some messageID)]). *)
Record Env := {
  now : Z;                                                    (* new Date() *)
  newOpenAI : option string -> Outcome unit;
  sendTypingIndicator : string -> Outcome unit;
  createCompletion : string -> list ChatMsg -> Outcome string;  (* completion.choices[0].message.content *)
  reply : string -> Outcome (option string);
}.

(** [new Date()] *)
Definition newDate (env : Env) : Stamp := Date (now env).

(** The mutable state the command works on: its own [conversations] map,
    the global [onReply] registry, the database manager, and the trace. *)
Record World := {
  conversations : gmap string Conversation;
  GoatBot_onReply : gmap string ReplyEntry;
  db : Database.DatabaseManager Conversation;
  trace : list Effect;
}.

Definition initial (d : Database.DatabaseManager Conversation) : World :=
  {| conversations := ∅; GoatBot_onReply := ∅; db := d; trace := [] |}.

Definition set_conversations (f : gmap string Conversation -> gmap string Conversation)
  (w : World) : World :=
  {| conversations := f (conversations w); GoatBot_onReply := GoatBot_onReply w;
     db := db w; trace := trace w |}.
Definition set_onReply (f : gmap string ReplyEntry -> gmap string ReplyEntry) (w : World) : World :=
  {| conversations := conversations w; GoatBot_onReply := f (GoatBot_onReply w);
     db := db w; trace := trace w |}.
Definition set_db (d : Database.DatabaseManager Conversation) (w : World) : World :=
  {| conversations := conversations w; GoatBot_onReply := GoatBot_onReply w;
     db := d; trace := trace w |}.
Definition emit (e : Effect) : Eff World unit :=
  modify (fun w => {| conversations := conversations w; GoatBot_onReply := GoatBot_onReply w;
                      db := db w; trace := trace w ++ [e] |}).

Definition set_lastUsed (t : Stamp) (c : Conversation) : Conversation :=
  {| id := id c; userID := userID c; conv_threadID := conv_threadID c; model := model c;
     systemPrompt := systemPrompt c; messages := messages c; createdAt := createdAt c;
     lastUsed := t |}.
Definition set_messages (l : list Turn) (c : Conversation) : Conversation :=
  {| id := id c; userID := userID c; conv_threadID := conv_threadID c; model := model c;
     systemPrompt := systemPrompt c; messages := l; createdAt := createdAt c;
     lastUsed := lastUsed c |}.
Definition set_model (m : string) (c : Conversation) : Conversation :=
  {| id := id c; userID := userID c; conv_threadID := conv_threadID c; model := m;
     systemPrompt := systemPrompt c; messages := messages c; createdAt := createdAt c;
     lastUsed := lastUsed c |}.
Definition set_systemPrompt (p : string) (c : Conversation) : Conversation :=
  {| id := id c; userID := userID c; conv_threadID := conv_threadID c; model := model c;
     systemPrompt := p; messages := messages c; createdAt := createdAt c;
     lastUsed := lastUsed c |}.

(** *** Collaborator calls *)

Definition logger (lv : Database.LogLevel) (t : string) (e : option JsError) : Eff World unit :=
  emit (ELogger lv t e).

(** [message.reply(text, ...)] without [await]: the call is made, the
    promise it returns is a value. *)
Definition replyPromise (env : Env) (t : string) : Eff World (Outcome (option string)) :=
  _ ← emit (EReply t); mret (reply env t).

(** [await message.reply(text, ...)] *)
Definition awaitReply (env : Env) (t : string) : Eff World (option string) :=
  p ← replyPromise env t; lift p.

Definition typing (env : Env) (thread : string) : Eff World unit :=
  _ ← emit (ETyping thread); lift (sendTypingIndicator env thread).

Definition openaiClient (env : Env) (key : option string) : Eff World unit :=
  _ ← emit (ENewClient key); lift (newOpenAI env key).

Definition complete (env : Env) (mdl : string) (msgs : list ChatMsg) : Eff World string :=
  _ ← emit (EComplete mdl msgs); lift (createCompletion env mdl msgs).

Definition zoom_db {A} (m : Eff (Database.DatabaseManager Conversation) A) : Eff World A :=
  fun w => let '(o, d) := m (db w) in (o, set_db d w).

Definition cacheSet (key : string) (value : Conversation) (ttl : Z) : Eff World bool :=
  _ ← emit (ECacheSet key ttl); zoom_db (Database.cacheSet key value ttl).

Definition cacheGet (key : string) : Eff World (option Conversation) :=
  _ ← emit (ECacheGet key); zoom_db (Database.cacheGet key).

(** *** The [conversations] map *)

Definition convGet (key : string) : Eff World (option Conversation) :=
  _ ← emit (EConvGet key); gets (fun w => conversations w !! key).

Definition convSet (key : string) (c : Conversation) : Eff World unit :=
  _ ← emit (EConvSet key); modify (set_conversations (insert key c)).

Definition convDelete (key : string) : Eff World unit :=
  _ ← emit (EConvDelete key); modify (set_conversations (delete key)).

(** A field assignment through the local reference [conversation].  The
    map entry at [key] refers to the same object, so the assignment is
    seen through the map: the entry is rewritten, and the updated object is
    what the local name denotes from then on. *)
Definition assign (key : string) (c : Conversation) : Eff World Conversation :=
  _ ← modify (set_conversations (insert key c)); mret c.

(** *** Constants of the command *)

(** [models] *)
Definition models : list (string * string) :=
  [ ("gpt-4", "gpt-4"); ("gpt-3.5-turbo", "gpt-3.5-turbo");
    ("gpt-3.5", "gpt-3.5-turbo"); ("gpt-4-turbo", "gpt-4-turbo-preview") ].

(** [this.models[name]] on the own keys of the object.  The program looks
    the name up after [toLowerCase()], and of the names that the object
    inherits from [Object.prototype] two are in lower case, [constructor] and
    [__proto__]: under them the program finds a function and an object, which
    are truthy and are no model names.  They are not looked at here, so a
    statement about a name that is not in the table has to leave them out
    (see [AiView.inheritedNames]). *)
Fixpoint lookupModel (tbl : list (string * string)) (name : string) : option string :=
  match tbl with
  | [] => None
  | (k, v) :: rest => if String.eqb k name then Some v else lookupModel rest name
  end.

(** [if (conversation.messages.length > 20)] *)
Definition historyLimit : nat := 20.
(** [conversation.messages.slice(-10)] *)
Definition historyKeep : nat := 10.
Definition cacheTTL : Z := 3600.
Definition defaultModel : string := "gpt-3.5-turbo".
Definition defaultSystemPrompt : string :=
  "You are a helpful, friendly, and knowledgeable AI assistant. Provide clear, concise, and helpful responses.".

Definition msgNoApiKey : string :=
  "⚠️ OpenAI API key not configured. Please contact the administrator.".
Definition msgProvideMessage : string :=
  "🤖 Please provide a message to chat with AI." +:+ nl +:+ nl +:+ "Example: ai Hello, how are you?".
Definition msgGenericError : string := "❌ An error occurred while processing your request.".
Definition msgQuota : string := "⚠️ OpenAI API quota exceeded. Please try again later.".
Definition msgRateLimit : string := "⚠️ Rate limit exceeded. Please wait a moment and try again.".
Definition msgInvalidKey : string := "⚠️ Invalid OpenAI API key. Please contact the administrator.".
Definition msgProvideContinue : string := "🤖 Please provide a message to continue the conversation.".
Definition msgNotFound : string :=
  "🤖 Conversation not found. Please start a new conversation with the ai command.".
Definition msgReplyError : string := "❌ An error occurred while processing your message.".
Definition msgCleared : string := "🧹 Conversation history cleared successfully!".
Definition msgNoActive : string :=
  "🤖 No active conversation found. Start a new conversation first.".
Definition msgProvidePrompt : string :=
  "🤖 Please provide a system prompt." +:+ nl +:+ nl
  +:+ "Example: ai system You are a helpful coding assistant.".
Definition msgPromptUpdated : string := "🔧 System prompt updated successfully!".
Definition helpText : string := "
🤖 **AI Command Help**

**Basic Usage:**
• `ai <message>` - Chat with AI
• Reply to AI messages to continue conversation

**Advanced Features:**
• `ai clear` - Clear conversation history
• `ai model <model>` - Switch AI model
• `ai system <prompt>` - Set system prompt
• `ai help` - Show this help

**Available Models:**
• gpt-4 - Most capable model
• gpt-3.5-turbo - Fast and efficient
• gpt-4-turbo - Latest GPT-4 model

**Features:**
✅ Conversation memory
✅ Context awareness
✅ Multiple AI models
✅ Custom system prompts
✅ Rate limiting protection
".

(** The response sent by [onStart] after a successful model call. *)
Definition startResponse (aiResponse : string) : string :=
  "🤖 **AI Response**" +:+ nl +:+ nl +:+ aiResponse +:+ nl +:+ nl
  +:+ "💬 *Reply to continue the conversation*" +:+ nl
  +:+ "📝 *Type " +:+ dquote +:+ "ai clear" +:+ dquote +:+ " to reset*".

(** The response sent by [onReply] after a successful model call. *)
Definition replyResponse (aiResponse : string) : string :=
  "🤖 **AI Response**" +:+ nl +:+ nl +:+ aiResponse +:+ nl +:+ nl
  +:+ "💬 *Reply to continue the conversation*".

(** The text chosen in the [catch] of [onStart] from [error.code]. *)
Definition errorMessage (error : JsError) : string :=
  if String.eqb (code error) "insufficient_quota" then msgQuota
  else if String.eqb (code error) "rate_limit_exceeded" then msgRateLimit
  else if String.eqb (code error) "invalid_api_key" then msgInvalidKey
  else msgGenericError.

(** *** History *)

(** [l.slice(-n)]: the last [n] elements, all of them when there are fewer. *)
Definition slice_last {A} (n : nat) (l : list A) : list A := drop (length l - n) l.

(** [conversation.messages.push(turn)] *)
Definition push (t : Turn) (c : Conversation) : Conversation :=
  set_messages (messages c ++ [t]) c.

(** [if (conversation.messages.length > 20)
       conversation.messages = conversation.messages.slice(-10)] *)
Definition trimHistory (l : list Turn) : list Turn :=
  if (historyLimit <? length l)%nat then slice_last historyKeep l else l.

(** The request payload: the system prompt followed by the turns. *)
Definition prepare (c : Conversation) : list ChatMsg :=
  {| chat_role := System; chat_content := systemPrompt c |}
  :: map (fun msg => {| chat_role := role msg; chat_content := content msg |}) (messages c).

(** *** Helper methods *)

(** What a handler body hands back from inside its [try]: it fell off the
    end or executed a bare [return] ([None]), or it executed
    [return message.reply(...)] ([Some p]): the promise [p] is returned
    without [await], so its rejection is not seen by the [catch]. *)
Definition Completion : Type := option (Outcome (option string)).

(** The handler's own promise settles as the returned promise does. *)
Definition settle (c : Completion) : Eff World unit :=
  match c with
  | None => mret tt
  | Some (Ret _) => mret tt
  | Some (Throw e) => throw e
  end.

(** [clearConversation(conversationId, message)] *)
Definition clearConversation (env : Env) (conversationId : string)
  : Eff World (Outcome (option string)) :=
  _ ← convDelete conversationId;
  replyPromise env msgCleared.

(** [switchModel(modelName, conversationId, message)]; [modelName] is
    [args[1]], [None] when absent. *)
Definition switchModel (env : Env) (modelName : option string) (conversationId : string)
  : Eff World (Outcome (option string)) :=
  match (if truthy modelName then lookupModel models (toLowerCase (default "" modelName))
         else None) with
  | Some target =>
      if nonempty target then
        found ← convGet conversationId;
        match found with
        | Some conversation =>
            conversation ← assign conversationId (set_model target conversation);
            replyPromise env ("🔧 Model switched to: " +:+ model conversation)
        | None => replyPromise env msgNoActive
        end
      else replyPromise env ("🤖 Available models: " +:+ join ", " (map fst models))
  | None => replyPromise env ("🤖 Available models: " +:+ join ", " (map fst models))
  end.

(** [setSystemPrompt(prompt, conversationId, message)] *)
Definition setSystemPrompt (env : Env) (prompt : string) (conversationId : string)
  : Eff World (Outcome (option string)) :=
  if negb (nonempty prompt) then replyPromise env msgProvidePrompt
  else
    found ← convGet conversationId;
    match found with
    | Some conversation =>
        _ ← assign conversationId (set_systemPrompt prompt conversation);
        replyPromise env msgPromptUpdated
    | None => replyPromise env msgNoActive
    end.

(** [showHelp(message)] *)
Definition showHelp (env : Env) : Eff World (Outcome (option string)) :=
  replyPromise env helpText.

(** The [switch (args[0].toLowerCase())] of [onStart], guarded by
    [if (args[0])]: the helper that is returned, if any. *)
Definition subcommand (env : Env) (args : list string) (conversationId : string)
  : option (Eff World (Outcome (option string))) :=
  match args with
  | [] => None
  | a0 :: rest =>
      if nonempty a0 then
        let s := toLowerCase a0 in
        if String.eqb s "clear" then Some (clearConversation env conversationId)
        else if String.eqb s "model" then Some (switchModel env (rest !! 0%nat) conversationId)
        else if String.eqb s "system" then Some (setSystemPrompt env (join " " rest) conversationId)
        else if String.eqb s "help" then Some (showHelp env)
        else None
      else None
  end.

(** *** onStart *)

(** The conversation object created when the map has none. *)
Definition newConversation (cfg : Config.AIConfig) (env : Env)
  (conversationId user thread : string) : Conversation :=
  {| id := conversationId; userID := user; conv_threadID := thread;
     model := (if truthy (Config.model cfg) then default "" (Config.model cfg) else defaultModel);
     systemPrompt := defaultSystemPrompt;
     messages := [];
     createdAt := newDate env; lastUsed := newDate env |}.

(** The callback passed to [message.reply]: on success the sent message
    is registered for continuation. *)
Definition registerReply (info : option string) (user conversationId : string) : Eff World unit :=
  match info with
  | Some sent =>
      modify (set_onReply (insert sent {| commandName := "ai"; reply_messageID := sent;
                                           author := user; conversationId := conversationId |}))
  | None => mret tt
  end.

(** The body of the [try] block of [onStart]. *)
Definition onStart_try (cm : Config.ConfigManager) (env : Env) (event : Event)
  (args : list string) : Eff World Completion :=
  let userID := senderID event in
  let threadID := threadID event in
  openaiConfig ← lift (Config.getAIConfig cm);
  if negb (truthy (Config.apiKey openaiConfig)) then
    p ← replyPromise env msgNoApiKey; mret (Some p)
  else
    _ ← openaiClient env (Config.apiKey openaiConfig);
    let conversationId := threadID +:+ "_" +:+ userID in
    match subcommand env args conversationId with
    | Some helper => p ← helper; mret (Some p)
    | None =>
        let userInput := trim (join " " args) in
        if negb (nonempty userInput) then
          p ← replyPromise env msgProvideMessage; mret (Some p)
        else
          _ ← typing env threadID;
          found ← convGet conversationId;
          conversation ← match found with
                         | Some c => mret c
                         | None =>
                             let c := newConversation openaiConfig env conversationId userID threadID in
                             _ ← convSet conversationId c; mret c
                         end;
          conversation ← assign conversationId (set_lastUsed (newDate env) conversation);
          conversation ← assign conversationId
            (push {| role := User; content := userInput; timestamp := newDate env |} conversation);
          conversation ← assign conversationId
            (set_messages (trimHistory (messages conversation)) conversation);
          aiResponse ← complete env (model conversation) (prepare conversation);
          conversation ← assign conversationId
            (push {| role := Assistant; content := aiResponse; timestamp := newDate env |} conversation);
          _ ← cacheSet ("ai_conversation_" +:+ conversationId) conversation cacheTTL;
          info ← awaitReply env (startResponse aiResponse);
          _ ← registerReply info userID conversationId;
          _ ← logger Database.LInfo
                ("AI command used by " +:+ userID +:+ " in " +:+ threadID
                 +:+ " with model " +:+ model conversation) None;
          mret None
    end.

(** [onStart: async function ({ message, args, event, api, configManager,
    databaseManager, logger })], one invocation that no other overlaps. *)
Definition onStart (cm : Config.ConfigManager) (env : Env) (event : Event)
  (args : list string) : Eff World unit :=
  c ← try_catch (onStart_try cm env event args)
        (fun error =>
           _ ← logger Database.LError "AI command error:" (Some error);
           _ ← awaitReply env (errorMessage error);
           mret None);
  settle c.

(** *** onReply *)

(** The lookup of [onReply]: the [conversations] map first, then the
    mirrored cache, whose hit is put back into the map. *)
Definition lookupConversation (conversationId : string) : Eff World (option Conversation) :=
  found ← convGet conversationId;
  match found with
  | Some c => mret (Some c)
  | None =>
      cached ← cacheGet ("ai_conversation_" +:+ conversationId);
      match cached with
      | Some c => _ ← convSet conversationId c; mret (Some c)
      | None => mret None
      end
  end.

(** The body of the [try] block of [onReply]. *)
Definition onReply_try (cm : Config.ConfigManager) (env : Env) (event : Event)
  (Reply : ReplyEntry) : Eff World Completion :=
  let author := author Reply in
  let conversationId := conversationId Reply in
  if negb (String.eqb (senderID event) author) then mret None
  else
    let userInput := trim (body event) in
    if negb (nonempty userInput) then
      p ← replyPromise env msgProvideContinue; mret (Some p)
    else if String.eqb (toLowerCase userInput) "clear" then
      p ← clearConversation env conversationId; mret (Some p)
    else
      openaiConfig ← lift (Config.getAIConfig cm);
      _ ← openaiClient env (Config.apiKey openaiConfig);
      _ ← typing env (threadID event);
      found ← lookupConversation conversationId;
      match found with
      | None => p ← replyPromise env msgNotFound; mret (Some p)
      | Some conversation =>
          conversation ← assign conversationId (set_lastUsed (newDate env) conversation);
          conversation ← assign conversationId
            (push {| role := User; content := userInput; timestamp := newDate env |} conversation);
          conversation ← assign conversationId
            (set_messages (trimHistory (messages conversation)) conversation);
          aiResponse ← complete env (model conversation) (prepare conversation);
          conversation ← assign conversationId
            (push {| role := Assistant; content := aiResponse; timestamp := newDate env |} conversation);
          _ ← cacheSet ("ai_conversation_" +:+ conversationId) conversation cacheTTL;
          info ← awaitReply env (replyResponse aiResponse);
          _ ← registerReply info (senderID event) conversationId;
          mret None
      end.

(** [onReply: async function ({ message, event, Reply, api, configManager,
    databaseManager, logger })], one invocation that no other overlaps. *)
Definition onReply (cm : Config.ConfigManager) (env : Env) (event : Event)
  (Reply : ReplyEntry) : Eff World unit :=
  c ← try_catch (onReply_try cm env event Reply)
        (fun error =>
           _ ← logger Database.LError "AI reply error:" (Some error);
           _ ← awaitReply env msgReplyError;
           mret None);
  settle c.

End Ai.

(** ** The [ai] command: invocations that overlap *)

Module AiAsync.
Import Transport Ai.

(** [onStart] and [onReply] are async functions: an invocation runs until
    it reaches an [await] and goes on when the awaited promise has settled.
    Nothing serialises the invocations (the listeners of BotManager start
    one for every message, BotManager.js 186-193), so between two stretches
    of one invocation stretches of others run, on the same [conversations]
    map and on the same session objects.  Module [Ai] gives one invocation
    from its call to its end with no other in between; here every stretch
    from one [await] to the next is a step of its own.

    A session object is known by its reference, its index in [heap]: the
    local [conversation] of a suspended invocation and an entry of the map
    refer to an object, they hold no copy of it.  The model follows the
    session objects, the map and the mirrored cache; the replies, the log
    lines and the registry of continuations are not recorded, none of them
    touches a session. *)
Record Store := {
  heap : list Conversation;
  conversations : gmap string nat;
  db : Database.DatabaseManager Conversation;
}.

Inductive Handler := OnStart | OnReply.

(** Where a suspended invocation waits, with the locals it goes on with. *)
Inductive Await :=
(* onStart: await api.sendTypingIndicator(threadID) *)
| AwaitTypingStart (openaiConfig : Config.AIConfig) (event : Event) (userInput : string)
(* onReply: await api.sendTypingIndicator(event.threadID) *)
| AwaitTypingReply (event : Event) (conversationId userInput : string)
(* onReply: await databaseManager.cacheGet(...), with what the read yields *)
| AwaitCacheGet (conversationId userInput : string) (cached : Outcome (option Conversation))
(* await openai.chat.completions.create({ model, messages, ... }) *)
| AwaitModel (h : Handler) (conversationId : string) (conversation : nat)
    (mdl : string) (msgs : list ChatMsg)
(* await databaseManager.cacheSet(...) *)
| AwaitCacheSet (response : string)
(* await message.reply(response, callback) *)
| AwaitReply (response : string)
(* the reply that ends the invocation: awaited in the catch block, or
   returned from the try block *)
| AwaitLastReply.

(** A stretch of an invocation: it leaves the invocation suspended at an
    [await], or settled ([None]). *)
Definition Stretch : Type := Store -> option Await * Store.

Definition suspended (a : Await) : Stretch := fun s => (Some a, s).
Definition settled : Stretch := fun s => (None, s).

(** [catch (error)] of either handler: the error is logged and answered, and
    the reply is awaited. *)
Definition caught : Stretch := suspended AwaitLastReply.

(** [return message.reply(...)] *)
Definition returned : Stretch := suspended AwaitLastReply.

(** An assignment to a field of the object [conversation], or a [push] on
    its [messages]. *)
Definition update (conversation : nat) (f : Conversation -> Conversation) (s : Store) : Store :=
  {| heap := alter f conversation (heap s); conversations := conversations s; db := db s |}.

Definition set_db (d : Database.DatabaseManager Conversation) (s : Store) : Store :=
  {| heap := heap s; conversations := conversations s; db := d |}.

(** [this.conversations.set(conversationId, conversation)] with an object
    that was just made. *)
Definition allocate (conversationId : string) (c : Conversation) (s : Store) : nat * Store :=
  (length (heap s),
   {| heap := heap s ++ [c];
      conversations := <[conversationId := length (heap s)]> (conversations s);
      db := db s |}).

(** [clearConversation(conversationId, message)] *)
Definition clearConversation (conversationId : string) (s : Store) : Store :=
  {| heap := heap s; conversations := delete conversationId (conversations s); db := db s |}.

(** [switchModel(modelName, conversationId, message)].  (Under the
    inherited names that [lookupModel] does not look at, the program assigns
    a function or an object to [conversation.model]; the turns of the session
    are not touched in that case either.) *)
Definition switchModel (modelName : option string) (conversationId : string) (s : Store) : Store :=
  match (if truthy modelName then lookupModel models (toLowerCase (default "" modelName))
         else None) with
  | Some target =>
      if nonempty target then
        match conversations s !! conversationId with
        | Some conversation => update conversation (set_model target) s
        | None => s
        end
      else s
  | None => s
  end.

(** [setSystemPrompt(prompt, conversationId, message)] *)
Definition setSystemPrompt (prompt conversationId : string) (s : Store) : Store :=
  if negb (nonempty prompt) then s
  else match conversations s !! conversationId with
       | Some conversation => update conversation (set_systemPrompt prompt) s
       | None => s
       end.

(** The [switch (args[0].toLowerCase())] of [onStart]. *)
Definition subcommand (args : list string) (conversationId : string) : option (Store -> Store) :=
  match args with
  | [] => None
  | a0 :: rest =>
      if nonempty a0 then
        let s := toLowerCase a0 in
        if String.eqb s "clear" then Some (clearConversation conversationId)
        else if String.eqb s "model" then Some (switchModel (rest !! 0%nat) conversationId)
        else if String.eqb s "system" then Some (setSystemPrompt (join " " rest) conversationId)
        else if String.eqb s "help" then Some (fun s => s)
        else None
      else None
  end.

(** Lines 272-285 and 400-413, on the object: [lastUsed] is set, the user's
    turn is pushed, and the history is cut when it has more than 20 turns. *)
Definition appendUser (env : Env) (userInput : string) (c : Conversation) : Conversation :=
  let c := set_lastUsed (newDate env) c in
  let c := push {| role := User; content := userInput; timestamp := newDate env |} c in
  set_messages (trimHistory (messages c)) c.

(** Lines 309-314 and 437-442, on the object. *)
Definition appendAssistant (env : Env) (aiResponse : string) (c : Conversation) : Conversation :=
  push {| role := Assistant; content := aiResponse; timestamp := newDate env |} c.

(** From the update of [lastUsed] to the call of the language model, which
    is awaited: the request is made of the object as it is then. *)
Definition request (h : Handler) (env : Env) (conversationId : string) (conversation : nat)
  (userInput : string) : Stretch :=
  fun s =>
    let s := update conversation (appendUser env userInput) s in
    match heap s !! conversation with
    | Some c => (Some (AwaitModel h conversationId conversation (model c) (prepare c)), s)
    | None => (None, s)   (* no such object: a reference is never dangling *)
    end.

(** [onStart], from its call to its first [await]. *)
Definition onStart_call (cm : Config.ConfigManager) (env : Env) (event : Event)
  (args : list string) : Stretch :=
  match Config.getAIConfig cm with
  | Throw _ => caught
  | Ret openaiConfig =>
      if negb (truthy (Config.apiKey openaiConfig)) then returned
      else
        match newOpenAI env (Config.apiKey openaiConfig) with
        | Throw _ => caught
        | Ret _ =>
            let conversationId := threadID event +:+ "_" +:+ senderID event in
            match subcommand args conversationId with
            | Some helper => fun s => (Some AwaitLastReply, helper s)
            | None =>
                let userInput := trim (join " " args) in
                if negb (nonempty userInput) then returned
                else suspended (AwaitTypingStart openaiConfig event userInput)
            end
        end
  end.

(** [onReply], from its call to its first [await]. *)
Definition onReply_call (cm : Config.ConfigManager) (env : Env) (event : Event)
  (Reply : ReplyEntry) : Stretch :=
  let conversationId := conversationId Reply in
  if negb (String.eqb (senderID event) (author Reply)) then settled
  else
    let userInput := trim (body event) in
    if negb (nonempty userInput) then returned
    else if String.eqb (toLowerCase userInput) "clear" then
      fun s => (Some AwaitLastReply, clearConversation conversationId s)
    else
      match Config.getAIConfig cm with
      | Throw _ => caught
      | Ret openaiConfig =>
          match newOpenAI env (Config.apiKey openaiConfig) with
          | Throw _ => caught
          | Ret _ => suspended (AwaitTypingReply event conversationId userInput)
          end
      end.

(** An invocation goes on after the promise it awaited has settled; [env]
    tells how.  The commands of the cache take effect in the order in which
    they are issued: the write of [cacheSet] (with the JSON text of the object
    as it is at the call) and the read of [cacheGet] are made when the
    function is called, and the invocation is handed the result when it
    resumes. *)
Definition resume (env : Env) (a : Await) : Stretch :=
  match a with
  | AwaitTypingStart openaiConfig event userInput =>
      match sendTypingIndicator env (threadID event) with
      | Throw _ => caught
      | Ret _ =>
          fun s =>
            let conversationId := threadID event +:+ "_" +:+ senderID event in
            let '(conversation, s) :=
              match conversations s !! conversationId with
              | Some conversation => (conversation, s)
              | None =>
                  allocate conversationId
                    (newConversation openaiConfig env conversationId
                       (senderID event) (threadID event)) s
              end in
            request OnStart env conversationId conversation userInput s
      end
  | AwaitTypingReply event conversationId userInput =>
      match sendTypingIndicator env (threadID event) with
      | Throw _ => caught
      | Ret _ =>
          fun s =>
            match conversations s !! conversationId with
            | Some conversation => request OnReply env conversationId conversation userInput s
            | None =>
                let '(cached, d) :=
                  Database.cacheGet ("ai_conversation_" +:+ conversationId) (db s) in
                (Some (AwaitCacheGet conversationId userInput cached), set_db d s)
            end
      end
  | AwaitCacheGet conversationId userInput cached =>
      match cached with
      | Throw _ => caught
      | Ret None => returned
      | Ret (Some c) =>
          fun s =>
            let '(conversation, s) := allocate conversationId c s in
            request OnReply env conversationId conversation userInput s
      end
  | AwaitModel h conversationId conversation mdl msgs =>
      match createCompletion env mdl msgs with
      | Throw _ => caught
      | Ret aiResponse =>
          fun s =>
            let s := update conversation (appendAssistant env aiResponse) s in
            match heap s !! conversation with
            | Some c =>
                let '(_, d) :=
                  Database.cacheSet ("ai_conversation_" +:+ conversationId) c cacheTTL (db s) in
                (Some (AwaitCacheSet (match h with
                                      | OnStart => startResponse aiResponse
                                      | OnReply => replyResponse aiResponse
                                      end)),
                 set_db d s)
            | None => (None, s)   (* no such object: a reference is never dangling *)
            end
      end
  | AwaitCacheSet response => suspended (AwaitReply response)
  | AwaitReply response =>
      match reply env response with
      | Throw _ => caught
      | Ret _ => settled
      end
  | AwaitLastReply => settled
  end.

(** The store and the invocations in flight. *)
Record Pool := { store : Store; runs : list Await }.

Definition start (d : Database.DatabaseManager Conversation) : Pool :=
  {| store := {| heap := []; conversations := ∅; db := d |}; runs := [] |}.

(** What happens next: a handler is called, or the promise that the
    invocation at position [i] awaits settles, or the database manager is
    changed by something else than the command (a key of the cache expires,
    [performCleanup] flushes the cache, a line is logged). *)
Inductive Label :=
| Call_onStart (cm : Config.ConfigManager) (env : Env) (event : Event) (args : list string)
| Call_onReply (cm : Config.ConfigManager) (env : Env) (event : Event) (Reply : ReplyEntry)
| Resume (i : nat) (env : Env)
| Elsewhere (d : Database.DatabaseManager Conversation).

Definition option_list {A} (o : option A) : list A :=
  match o with Some a => [a] | None => [] end.

Definition called (st : Stretch) (p : Pool) : Pool :=
  let '(a, s) := st (store p) in {| store := s; runs := runs p ++ option_list a |}.

Definition perform (l : Label) (p : Pool) : Pool :=
  match l with
  | Call_onStart cm env event args => called (onStart_call cm env event args) p
  | Call_onReply cm env event entry => called (onReply_call cm env event entry) p
  | Resume i env =>
      match runs p !! i with
      | Some a =>
          let '(a', s) := resume env a (store p) in
          {| store := s; runs := take i (runs p) ++ option_list a' ++ drop (S i) (runs p) |}
      | None => p
      end
  | Elsewhere d => {| store := set_db d (store p); runs := runs p |}
  end.

Fixpoint run (ls : list Label) (p : Pool) : Pool :=
  match ls with
  | [] => p
  | l :: rest => run rest (perform l p)
  end.

(** A handler is only called while fewer than [n] invocations are in flight:
    at most [n] invocations overlap. *)
Fixpoint overlap (n : nat) (ls : list Label) (p : Pool) : bool :=
  match ls with
  | [] => true
  | l :: rest =>
      match l with
      | Call_onStart _ _ _ _ | Call_onReply _ _ _ _ => (length (runs p) <? n)%nat
      | Resume _ _ | Elsewhere _ => true
      end && overlap n rest (perform l p)
  end.

(** The sessions the map holds, with their number of turns. *)
Definition turns (p : Pool) : list (string * option nat) :=
  (fun kv => (kv.1, length <$> (messages <$> heap (store p) !! kv.2)))
    <$> map_to_list (conversations (store p)).

(** How many invocations await the language model with a reference to the
    object [o]: they have appended a user's turn to it and will append the
    assistant's. *)
Definition weight (o : nat) (a : Await) : nat :=
  match a with
  | AwaitModel _ _ conversation _ _ => if decide (conversation = o) then 1 else 0
  | _ => 0
  end.

Fixpoint awaiting (o : nat) (rs : list Await) : nat :=
  match rs with
  | [] => 0
  | a :: rest => weight o a + awaiting o rest
  end.

(** What one stretch, which takes an invocation of weight [w] to one of
    weight [w'], may do to the turns of an object that is [c'] afterwards,
    [before] being the heap before the stretch: nothing; or the user's turn
    is appended and the history is cut, on an object there was or on one that
    was just made (empty, or read from the cache); or the assistant's turn is
    appended by the invocation that awaited the model with this object. *)
Definition stretch_of (before : list Conversation) (o : nat) (c' : Conversation)
  (w w' : nat) : Prop :=
  (exists c, before !! o = Some c /\ messages c' = messages c /\ w' <= w)
  \/ (exists l u, role u = User /\ messages c' = trimHistory (l ++ [u])
                  /\ (before !! o = None \/ exists c, before !! o = Some c /\ messages c = l))
  \/ (exists c t, before !! o = Some c /\ role t = Assistant
                  /\ messages c' = messages c ++ [t] /\ w = 1 /\ w' = 0).

(** The invariant of a pool in which at most [n] invocations overlap. *)
Definition balanced (n : nat) (p : Pool) : Prop :=
  length (runs p) <= n
  /\ forall o c, heap (store p) !! o = Some c ->
                 length (messages c) + awaiting o (runs p) <= historyLimit + n.

End AiAsync.

(** ** RateLimiter: per-identity sliding-window admission control *)

Module RateLimiter.

(** Modelled from the spec: src/middleware/RateLimiter.js, the class behind
    [this.rateLimiter.checkLimit(message.senderID)], is not among the
    sources; only its construction and its two calls in BotManager.js are.
    The limiter is constructed with [windowSize] and [maxEvents] and keeps,
    per identity, the time-ordered sequence of admitted timestamps. *)
Record Limiter := {
  windowSize : Z;
  maxEvents : nat;
  windows : gmap string (list Z);
}.

Definition create (w : Z) (m : nat) : Limiter :=
  {| windowSize := w; maxEvents := m; windows := ∅ |}.

(** Modelled from the spec: "purge timestamps in the identity's RateWindow
    older than [now - windowSize]": a timestamp [t] stays when
    [now - windowSize <= t]. *)
Definition purge (w now : Z) (l : list Z) : list Z :=
  filter (fun t => now - w <= t)%Z l.

(** Modelled from the spec: [Admit(identity) -> bool], the clock reading
    [now] made explicit.  "if the remaining count is [< maxEvents], append
    [now] and return admitted; otherwise return rejected without mutating
    state." *)
Definition Admit (identity : string) (now : Z) (rl : Limiter) : bool * Limiter :=
  let remaining := purge (windowSize rl) now (default [] (windows rl !! identity)) in
  if (length remaining <? maxEvents rl)%nat then
    (true, {| windowSize := windowSize rl; maxEvents := maxEvents rl;
              windows := <[identity := remaining ++ [now]]> (windows rl) |})
  else (false, rl).

(** The most recent timestamp of a window, [None] for an empty one. *)
Fixpoint mostRecent (l : list Z) : option Z :=
  match l with
  | [] => None
  | t :: rest => match mostRecent rest with
                 | None => Some t
                 | Some m => Some (Z.max t m)
                 end
  end.

Definition stale (w now : Z) (l : list Z) : bool :=
  match mostRecent l with
  | Some m => (m <? now - w)%Z
  | None => true
  end.

(** Modelled from the spec: [Cleanup()] "removes RateWindow entries whose
    most recent timestamp is older than the window". *)
Definition Cleanup (now : Z) (rl : Limiter) : Limiter :=
  {| windowSize := windowSize rl; maxEvents := maxEvents rl;
     windows := filter (fun kv => stale (windowSize rl) now (snd kv) = false) (windows rl) |}.

(** One operation on the limiter, stamped with the clock reading at which
    it runs. *)
Inductive Op :=
| OpAdmit (identity : string) (now : Z)
| OpCleanup (now : Z).

Definition time_of (o : Op) : Z :=
  match o with OpAdmit _ t => t | OpCleanup t => t end.

(** Runs the operations in order; returns the admitted events
    (identity, timestamp), oldest first, and the final limiter. *)
Fixpoint run (ops : list Op) (rl : Limiter) : list (string * Z) * Limiter :=
  match ops with
  | [] => ([], rl)
  | OpAdmit i t :: rest =>
      let '(ok, rl') := Admit i t rl in
      let '(adm, rl'') := run rest rl' in
      ((if ok then [(i, t)] else []) ++ adm, rl'')
  | OpCleanup t :: rest => run rest (Cleanup t rl)
  end.

(** The clock does not run backwards between operations. *)
Fixpoint monotone (t0 : Z) (ops : list Op) : Prop :=
  match ops with
  | [] => True
  | o :: rest => (t0 <= time_of o)%Z /\ monotone (time_of o) rest
  end.

(** The timestamps admitted for [identity]. *)
Definition times_of (identity : string) (adm : list (string * Z)) : list Z :=
  map snd (filter (fun e => fst e = identity) adm).

(** How many of the timestamps fall in the closed window [[a, a + w]]. *)
Definition count_in (a w : Z) (l : list Z) : nat :=
  length (filter (fun t => a <= t /\ t <= a + w)%Z l).

End RateLimiter.

(** ** BotManager (src/core/BotManager.js) *)

Module Bot.
Import Transport.

(** [this.stats] *)
Record Stats := {
  messagesProcessed : nat;
  commandsExecuted : nat;
  errors : nat;
  uptime : Z;
}.

(** The logger methods the manager uses. *)
Inductive LogKind := KInfo | KSuccess | KWarning | KError | KSecurity.

(** Modelled from the spec: src/api/FacebookAPI.js, the class of
    [this.facebookAPI], is not among the sources.  Section 6 gives the
    transport the operation [IsConnected() -> bool]; the client is the state
    of its link. *)
Record FacebookAPI := { connected : bool }.

(** Modelled from the spec: [IsConnected() -> bool] of the transport
    (FacebookAPI.js is not among the sources). *)
Definition isConnected (api : FacebookAPI) : bool := connected api.

Record BotInfo := { name : string; bot_id : string }.

(** What can be observed of one run, in order: log lines, calls into the
    collaborating managers, and calls that put something on the wire. *)
Inductive Obs :=
| OLog (k : LogKind) (line : string) (cause : option JsError)
| OCheckMessage (m : Message)             (* securityManager.checkMessage(m) *)
| OCheckLimit (sender : string)           (* rateLimiter.checkLimit(sender) *)
| OHandle (m : Message)                   (* messageHandler.handle(m) *)
| OHandleEvent (e : PlatformEvent)        (* eventManager.handle(e) *)
| OHandleReaction (r : Reaction)          (* messageHandler.handleReaction(r) *)
| OOut (o : Outbound).                    (* send / reply / react *)

(** A value of the JavaScript runtime, as far as [isReady] can return one. *)
Inductive JsValue := JBool (b : bool) | JNull.

(** A property read on [null]. *)
Definition nullDeref (prop : string) : JsError :=
  {| code := "";
     message := "Cannot read properties of null (reading '" +:+ prop +:+ "')" |}.

Section Orchestrator.

(** The state held by the collaborating managers (security manager, rate
    limiter, message handler, event manager), whose classes are outside the
    sources. *)
Context {Collab : Type}.

(** Their methods, taken as parameters.  The two checks answer with a
    boolean or throw and may change their own state ([Check(event) -> bool]
    and [Admit(identity) -> bool] in sections 4.2 and 4.1 of the spec); a
    handler, in addition, makes the outbound calls it returns (also when it
    throws afterwards). *)
Record Collaborators := {
  (* securityManager.checkMessage(message) *)
  checkMessage : Message -> Eff Collab bool;
  (* rateLimiter.checkLimit(senderID) *)
  checkLimit : string -> Eff Collab bool;
  (* messageHandler.handle(message) *)
  handle : Message -> Collab -> Outcome unit * list Outbound * Collab;
  (* eventManager.handle(event) *)
  handleEvent_ : PlatformEvent -> Collab -> Outcome unit * list Outbound * Collab;
  (* messageHandler.handleReaction(reaction) *)
  handleReaction_ : Reaction -> Collab -> Outcome unit * list Outbound * Collab;
}.

(** The fields of the manager; a manager field is [false] while it is
    [null]. *)
Record BotManager := {
  securityManager : bool;
  rateLimiter : bool;
  facebookAPI : option FacebookAPI;
  commandManager : bool;
  eventManager : bool;
  messageHandler : bool;
  isRunning : bool;
  botInfo : option BotInfo;
  startTime : Z;
  stats : Stats;
  trace : list Obs;
  collab : Collab;
}.

Definition set_securityManager (v : bool) (bm : BotManager) : BotManager :=
  {| securityManager := v; rateLimiter := rateLimiter bm; facebookAPI := facebookAPI bm;
     commandManager := commandManager bm; eventManager := eventManager bm;
     messageHandler := messageHandler bm; isRunning := isRunning bm; botInfo := botInfo bm;
     startTime := startTime bm; stats := stats bm; trace := trace bm;
     collab := collab bm |}.
Definition set_rateLimiter (v : bool) (bm : BotManager) : BotManager :=
  {| securityManager := securityManager bm; rateLimiter := v;
     facebookAPI := facebookAPI bm; commandManager := commandManager bm;
     eventManager := eventManager bm; messageHandler := messageHandler bm;
     isRunning := isRunning bm; botInfo := botInfo bm; startTime := startTime bm;
     stats := stats bm; trace := trace bm; collab := collab bm |}.
Definition set_facebookAPI (v : option FacebookAPI) (bm : BotManager) : BotManager :=
  {| securityManager := securityManager bm; rateLimiter := rateLimiter bm;
     facebookAPI := v; commandManager := commandManager bm;
     eventManager := eventManager bm; messageHandler := messageHandler bm;
     isRunning := isRunning bm; botInfo := botInfo bm; startTime := startTime bm;
     stats := stats bm; trace := trace bm; collab := collab bm |}.
Definition set_commandManager (v : bool) (bm : BotManager) : BotManager :=
  {| securityManager := securityManager bm; rateLimiter := rateLimiter bm;
     facebookAPI := facebookAPI bm; commandManager := v; eventManager := eventManager bm;
     messageHandler := messageHandler bm; isRunning := isRunning bm; botInfo := botInfo bm;
     startTime := startTime bm; stats := stats bm; trace := trace bm;
     collab := collab bm |}.
Definition set_eventManager (v : bool) (bm : BotManager) : BotManager :=
  {| securityManager := securityManager bm; rateLimiter := rateLimiter bm;
     facebookAPI := facebookAPI bm; commandManager := commandManager bm; eventManager := v;
     messageHandler := messageHandler bm; isRunning := isRunning bm; botInfo := botInfo bm;
     startTime := startTime bm; stats := stats bm; trace := trace bm;
     collab := collab bm |}.
Definition set_messageHandler (v : bool) (bm : BotManager) : BotManager :=
  {| securityManager := securityManager bm; rateLimiter := rateLimiter bm;
     facebookAPI := facebookAPI bm; commandManager := commandManager bm;
     eventManager := eventManager bm; messageHandler := v; isRunning := isRunning bm;
     botInfo := botInfo bm; startTime := startTime bm; stats := stats bm;
     trace := trace bm; collab := collab bm |}.
Definition set_isRunning (v : bool) (bm : BotManager) : BotManager :=
  {| securityManager := securityManager bm; rateLimiter := rateLimiter bm;
     facebookAPI := facebookAPI bm; commandManager := commandManager bm;
     eventManager := eventManager bm; messageHandler := messageHandler bm; isRunning := v;
     botInfo := botInfo bm; startTime := startTime bm; stats := stats bm;
     trace := trace bm; collab := collab bm |}.
Definition set_botInfo (v : option BotInfo) (bm : BotManager) : BotManager :=
  {| securityManager := securityManager bm; rateLimiter := rateLimiter bm;
     facebookAPI := facebookAPI bm; commandManager := commandManager bm;
     eventManager := eventManager bm; messageHandler := messageHandler bm;
     isRunning := isRunning bm; botInfo := v; startTime := startTime bm; stats := stats bm;
     trace := trace bm; collab := collab bm |}.
Definition set_startTime (v : Z) (bm : BotManager) : BotManager :=
  {| securityManager := securityManager bm; rateLimiter := rateLimiter bm;
     facebookAPI := facebookAPI bm; commandManager := commandManager bm;
     eventManager := eventManager bm; messageHandler := messageHandler bm;
     isRunning := isRunning bm; botInfo := botInfo bm; startTime := v; stats := stats bm;
     trace := trace bm; collab := collab bm |}.
Definition set_stats (v : Stats) (bm : BotManager) : BotManager :=
  {| securityManager := securityManager bm; rateLimiter := rateLimiter bm;
     facebookAPI := facebookAPI bm; commandManager := commandManager bm;
     eventManager := eventManager bm; messageHandler := messageHandler bm;
     isRunning := isRunning bm; botInfo := botInfo bm; startTime := startTime bm;
     stats := v; trace := trace bm; collab := collab bm |}.
Definition set_trace (v : list Obs) (bm : BotManager) : BotManager :=
  {| securityManager := securityManager bm; rateLimiter := rateLimiter bm;
     facebookAPI := facebookAPI bm; commandManager := commandManager bm;
     eventManager := eventManager bm; messageHandler := messageHandler bm;
     isRunning := isRunning bm; botInfo := botInfo bm; startTime := startTime bm;
     stats := stats bm; trace := v; collab := collab bm |}.
Definition set_collab (v : Collab) (bm : BotManager) : BotManager :=
  {| securityManager := securityManager bm; rateLimiter := rateLimiter bm;
     facebookAPI := facebookAPI bm; commandManager := commandManager bm;
     eventManager := eventManager bm; messageHandler := messageHandler bm;
     isRunning := isRunning bm; botInfo := botInfo bm; startTime := startTime bm;
     stats := stats bm; trace := trace bm; collab := v |}.

Definition observe (o : Obs) : Eff BotManager unit :=
  modify (fun bm => set_trace (trace bm ++ [o]) bm).

Definition logger (k : LogKind) (line : string) (cause : option JsError) : Eff BotManager unit :=
  observe (OLog k line cause).

(** [this.stats.messagesProcessed++] *)
Definition count_message : Eff BotManager unit :=
  modify (fun bm =>
    set_stats {| messagesProcessed := S (messagesProcessed (stats bm));
                 commandsExecuted := commandsExecuted (stats bm);
                 errors := errors (stats bm);
                 uptime := uptime (stats bm) |} bm).

(** [this.stats.errors++] *)
Definition count_error : Eff BotManager unit :=
  modify (fun bm =>
    set_stats {| messagesProcessed := messagesProcessed (stats bm);
                 commandsExecuted := commandsExecuted (stats bm);
                 errors := S (errors (stats bm));
                 uptime := uptime (stats bm) |} bm).

(** A call of a check: on the manager's own state. *)
Definition call_check {A} (m : Eff Collab A) : Eff BotManager A :=
  fun bm => let '(o, c) := m (collab bm) in (o, set_collab c bm).

(** A call of a handler: its outbound calls are appended to the trace. *)
Definition call_handler (h : Collab -> Outcome unit * list Outbound * Collab)
  : Eff BotManager unit :=
  fun bm => let '(o, out, c) := h (collab bm) in
            (o, set_trace (trace bm ++ map OOut out) (set_collab c bm)).

Variable co : Collaborators.

(** [await this.securityManager.checkMessage(message)] *)
Definition securityCheck (message : Message) : Eff BotManager bool :=
  present ← gets securityManager;
  if present : bool then
    _ ← observe (OCheckMessage message); call_check (checkMessage co message)
  else throw (nullDeref "checkMessage").

(** [await this.rateLimiter.checkLimit(message.senderID)] *)
Definition rateCheck (sender : string) : Eff BotManager bool :=
  present ← gets rateLimiter;
  if present : bool then
    _ ← observe (OCheckLimit sender); call_check (checkLimit co sender)
  else throw (nullDeref "checkLimit").

(** [await this.messageHandler.handle(message)] *)
Definition process (message : Message) : Eff BotManager unit :=
  present ← gets messageHandler;
  if present : bool then
    _ ← observe (OHandle message); call_handler (handle co message)
  else throw (nullDeref "handle").

(** [async handleMessage(message)] *)
Definition handleMessage (message : Message) : Eff BotManager unit :=
  _ ← count_message;
  try_catch
    (pass ← securityCheck message;
     if negb pass then
       logger KSecurity ("Message blocked by security check: " +:+ senderID message) None
     else
       admitted ← rateCheck (senderID message);
       if negb admitted then
         logger KSecurity ("Rate limit exceeded for user: " +:+ senderID message) None
       else
         process message)
    (fun error =>
       _ ← logger KError "Error in message handler:" (Some error);
       count_error).

(** [async handleEvent(event)] *)
Definition handleEvent (event : PlatformEvent) : Eff BotManager unit :=
  try_catch
    (present ← gets eventManager;
     if present : bool then
       _ ← observe (OHandleEvent event); call_handler (handleEvent_ co event)
     else throw (nullDeref "handle"))
    (fun error =>
       _ ← logger KError "Error in event handler:" (Some error);
       count_error).

(** [async handleReaction(reaction)] *)
Definition handleReaction (reaction : Reaction) : Eff BotManager unit :=
  try_catch
    (present ← gets messageHandler;
     if present : bool then
       _ ← observe (OHandleReaction reaction); call_handler (handleReaction_ co reaction)
     else throw (nullDeref "handleReaction"))
    (fun error =>
       _ ← logger KError "Error in reaction handler:" (Some error);
       count_error).

(** The listeners registered by [setupMessageListeners] on the stream. *)
Definition onMessage (message : Message) : Eff BotManager unit :=
  try_catch (handleMessage message)
    (fun error =>
       _ ← logger KError "Error handling message:" (Some error);
       count_error).

Definition onEvent (event : PlatformEvent) : Eff BotManager unit :=
  try_catch (handleEvent event)
    (fun error =>
       _ ← logger KError "Error handling event:" (Some error);
       count_error).

Definition onReaction (reaction : Reaction) : Eff BotManager unit :=
  try_catch (handleReaction reaction)
    (fun error =>
       _ ← logger KError "Error handling reaction:" (Some error);
       count_error).

(** *** Life cycle *)

(** [constructor(configManager, databaseManager, logger)], with the clock
    reading of [Date.now()]. *)
Definition construct (now : Z) (c : Collab) : BotManager :=
  {| securityManager := false; rateLimiter := false; facebookAPI := None;
     commandManager := false; eventManager := false; messageHandler := false;
     isRunning := false; botInfo := None; startTime := now;
     stats := {| messagesProcessed := 0; commandsExecuted := 0; errors := 0; uptime := 0 |};
     trace := []; collab := c |}.

(** How the awaited [initialize()] calls of the managers end, and the
    transport client that [new FacebookAPI(...)] yields. *)
Record InitOracle := {
  securityInit : Outcome unit;
  newFacebookAPI : FacebookAPI;
  facebookInit : Outcome unit;
  commandInit : Outcome unit;
  eventInit : Outcome unit;
}.

(** [async initialize()] *)
Definition initialize (o : InitOracle) : Eff BotManager unit :=
  try_catch
    (_ ← logger KInfo "Initializing BotManager..." None;
     _ ← modify (set_securityManager true);
     _ ← lift (securityInit o);
     _ ← modify (set_rateLimiter true);
     _ ← modify (set_facebookAPI (Some (newFacebookAPI o)));
     _ ← lift (facebookInit o);
     _ ← modify (set_commandManager true);
     _ ← lift (commandInit o);
     _ ← modify (set_eventManager true);
     _ ← lift (eventInit o);
     _ ← modify (set_messageHandler true);
     logger KSuccess "BotManager initialized successfully" None)
    (fun error =>
       _ ← logger KError "Failed to initialize BotManager:" (Some error);
       throw error).

(** How [connect()] and [getBotInfo()] end, the state of the link after the
    connection attempt, and the clock. *)
Record StartOracle := {
  connect : Outcome unit;
  linkAfterConnect : bool;
  getBotInfo : Outcome BotInfo;
  startClock : Z;
}.

(** [async start()].  [setupMessageListeners()] throws only when
    [this.facebookAPI] is [null], which cannot be the case after
    [this.facebookAPI.connect()] returned; timers are not part of the
    state. *)
Definition start (o : StartOracle) : Eff BotManager unit :=
  try_catch
    (running ← gets isRunning;
     if running : bool then logger KWarning "Bot is already running" None
     else
       _ ← logger KInfo "Starting Enhanced SecretBot..." None;
       api ← gets facebookAPI;
       match api with
       | None => throw (nullDeref "connect")
       | Some _ =>
           _ ← modify (set_facebookAPI (Some {| connected := linkAfterConnect o |}));
           _ ← lift (connect o);
           info ← lift (getBotInfo o);
           _ ← modify (set_botInfo (Some info));
           _ ← logger KInfo ("Bot connected as: " +:+ name info +:+ " (" +:+ bot_id info +:+ ")") None;
           _ ← modify (set_isRunning true);
           _ ← modify (set_startTime (startClock o));
           logger KSuccess "Enhanced SecretBot started successfully" None
       end)
    (fun error =>
       _ ← logger KError "Failed to start bot:" (Some error);
       throw error).

(** How [disconnect()] ends and the state of the link after it. *)
Record StopOracle := {
  disconnect : Outcome unit;
  linkAfterDisconnect : bool;
}.

(** [async stop()] *)
Definition stop (o : StopOracle) : Eff BotManager unit :=
  try_catch
    (running ← gets isRunning;
     if negb running then logger KWarning "Bot is not running" None
     else
       _ ← logger KInfo "Stopping Enhanced SecretBot..." None;
       api ← gets facebookAPI;
       _ ← match api with
           | Some _ =>
               _ ← modify (set_facebookAPI (Some {| connected := linkAfterDisconnect o |}));
               lift (disconnect o)
           | None => mret tt
           end;
       _ ← modify (set_isRunning false);
       logger KSuccess "Enhanced SecretBot stopped successfully" None)
    (fun error =>
       _ ← logger KError "Error stopping bot:" (Some error);
       throw error).

(** The link goes up or down on its own (the transport's [connected] and
    [disconnected] notifications). *)
Definition linkChange (up : bool) (bm : BotManager) : BotManager :=
  match facebookAPI bm with
  | Some _ => set_facebookAPI (Some {| connected := up |}) bm
  | None => bm
  end.

(** [updateStats()] *)
Definition updateStats (now : Z) (bm : BotManager) : BotManager :=
  set_stats {| messagesProcessed := messagesProcessed (stats bm);
               commandsExecuted := commandsExecuted (stats bm);
               errors := errors (stats bm);
               uptime := now - startTime bm |} bm.

(** [isReady()]:
    [this.isRunning && this.facebookAPI && this.facebookAPI.isConnected()].
    [a && b] is [a] when [a] is falsy and [b] otherwise. *)
Definition isReady (bm : BotManager) : JsValue :=
  if isRunning bm then
    match facebookAPI bm with
    | None => JNull
    | Some api => JBool (isConnected api)
    end
  else JBool (isRunning bm).

(** The transport is connected. *)
Definition transportConnected (bm : BotManager) : bool :=
  match facebookAPI bm with
  | Some api => isConnected api
  | None => false
  end.

(** One thing that happens to a manager. *)
Inductive step : BotManager -> BotManager -> Prop :=
| step_initialize o bm : step bm (snd (initialize o bm))
| step_start o bm : step bm (snd (start o bm))
| step_stop o bm : step bm (snd (stop o bm))
| step_link up bm : step bm (linkChange up bm)
| step_stats now bm : step bm (updateStats now bm)
| step_message m bm : step bm (snd (onMessage m bm))
| step_event e bm : step bm (snd (onEvent e bm))
| step_reaction r bm : step bm (snd (onReaction r bm)).

(** The states a manager can be in: those it gets to from its
    construction. *)
Inductive reachable : BotManager -> Prop :=
| reachable_new now c : reachable (construct now c)
| reachable_step bm bm' : reachable bm -> step bm bm' -> reachable bm'.

End Orchestrator.

Arguments Collaborators : clear implicits.
Arguments BotManager : clear implicits.

End Bot.

(** ** The pipeline: a message dispatched to the [ai] command *)

Module Pipeline.
Import Transport.

(** The texts of the replies in a trace of the command. *)
Definition replies (t : list Ai.Effect) : list string :=
  omap (fun e => match e with Ai.EReply text => Some text | _ => None end) t.

(** Modelled from the spec: src/core/MessageHandler.js is not among the
    sources.  Section 4.5 (Execute, Settle): the handler of a fresh command is
    invoked with the event and the dispatch settles as the handler does.  For
    a message routed to [ai] with arguments [args] that is a call of
    [onStart]; the replies it made are the outbound calls. *)
Definition aiHandler (cm : Config.ConfigManager) (env : Ai.Env) (args : list string)
  (m : Message) (w : Ai.World) : Outcome unit * list Outbound * Ai.World :=
  let '(o, w') := Ai.onStart cm env m args w in
  (o, map (Reply (messageID m)) (replies (drop (length (Ai.trace w)) (Ai.trace w'))), w').

(** The collaborators of a manager whose security manager and rate limiter
    let everything pass and whose message handler routes to [ai]. *)
Definition aiPipeline (cm : Config.ConfigManager) (env : Ai.Env) (args : list string)
  : Bot.Collaborators Ai.World :=
  {| Bot.checkMessage := fun _ => mret true;
     Bot.checkLimit := fun _ => mret true;
     Bot.handle := aiHandler cm env args;
     Bot.handleEvent_ := fun _ w => (Ret tt, [], w);
     Bot.handleReaction_ := fun _ w => (Ret tt, [], w) |}.

End Pipeline.

(** ** Concrete inputs *)

Module Scenario.
Import Transport.

Definition config : Config.ConfigManager :=
  {| Config.isInitialized := true;
     Config.OPENAI_API_KEY := Some "sk-test";
     Config.OPENAI_MODEL := None |}.

(** Sender 100 writes "ai hello" in thread 7. *)
Definition hello : Message :=
  {| senderID := "100"; threadID := "7"; messageID := "m0"; body := "ai hello" |}.

(** Every collaborator answers; the model says "hi". *)
Definition answering : Ai.Env :=
  {| Ai.now := 1000;
     Ai.newOpenAI := fun _ => Ret tt;
     Ai.sendTypingIndicator := fun _ => Ret tt;
     Ai.createCompletion := fun _ _ => Ret "hi";
     Ai.reply := fun _ => Ret (Some "m1") |}.



(** No Redis client. *)
Definition noRedis : Database.DatabaseManager Ai.Conversation :=
  {| Database.redis := None; Database.dblog := [] |}.

(** The command's state after [n] successful exchanges "ai hello" / "hi"
    of sender 100 in thread 7, from the state the module is loaded with. *)
Fixpoint exchanges (n : nat) : Ai.World :=
  match n with
  | 0 => Ai.initial noRedis
  | S k => snd (Ai.onStart config answering hello ["hello"] (exchanges k))
  end.

(** A session as the command holds it in memory, with its [Date] objects. *)
Definition liveSession : Ai.Conversation :=
  {| Ai.id := "7_100"; Ai.userID := "100"; Ai.conv_threadID := "7";
     Ai.model := "gpt-4"; Ai.systemPrompt := Ai.defaultSystemPrompt;
     Ai.messages := [ {| Ai.role := Ai.User; Ai.content := "hello"; Ai.timestamp := Ai.Date 10 |};
                      {| Ai.role := Ai.Assistant; Ai.content := "hi"; Ai.timestamp := Ai.Date 11 |} ];
     Ai.createdAt := Ai.Date 10; Ai.lastUsed := Ai.Date 10 |}.

(** The same session as the mirrored cache holds it: read back from its
    JSON text, the dates are strings. *)
Definition cachedSession : Ai.Conversation :=
  {| Ai.id := "7_100"; Ai.userID := "100"; Ai.conv_threadID := "7";
     Ai.model := "gpt-4"; Ai.systemPrompt := Ai.defaultSystemPrompt;
     Ai.messages := [ {| Ai.role := Ai.User; Ai.content := "hello"; Ai.timestamp := Ai.IsoString 10 |};
                      {| Ai.role := Ai.Assistant; Ai.content := "hi"; Ai.timestamp := Ai.IsoString 11 |} ];
     Ai.createdAt := Ai.IsoString 10; Ai.lastUsed := Ai.IsoString 10 |}.

(** The state after a restart: the map is empty, the cache still holds the
    session of sender 100 in thread 7. *)
Definition restarted : Ai.World :=
  Ai.initial
    {| Database.redis :=
         Some {| Database.store := {[ "ai_conversation_7_100" := cachedSession ]};
                 Database.setEx_reply := fun _ => Ret "OK";
                 Database.get_fault := fun _ => None |};
       Database.dblog := [] |}.

(** The continuation registered on the message "m1" sent to sender 100. *)
Definition continuation : Ai.ReplyEntry :=
  {| Ai.commandName := "ai"; Ai.reply_messageID := "m1"; Ai.author := "100";
     Ai.conversationId := "7_100" |}.

(** Sender 100 replies to "m1". *)
Definition followUp : Message :=
  {| senderID := "100"; threadID := "7"; messageID := "m2"; body := "and then?" |}.

(** Every manager initialises. *)
Definition initOk : Bot.InitOracle :=
  {| Bot.securityInit := Ret tt;
     Bot.newFacebookAPI := {| Bot.connected := false |};
     Bot.facebookInit := Ret tt;
     Bot.commandInit := Ret tt;
     Bot.eventInit := Ret tt |}.

Definition startOk : Bot.StartOracle :=
  {| Bot.connect := Ret tt;
     Bot.linkAfterConnect := true;
     Bot.getBotInfo := Ret {| Bot.name := "SecretBot"; Bot.bot_id := "1" |};
     Bot.startClock := 500 |}.

(** A manager over the state [c] of its collaborators, initialised and
    started. *)
Definition started {Collab : Type} (c : Collab) : Bot.BotManager Collab :=
  snd (Bot.start startOk (snd (Bot.initialize initOk (Bot.construct 0 c)))).

Definition boom : JsError := {| code := "EFAULT"; message := "handler failed" |}.

(** Collaborators without state: a security manager that blocks every
    message. *)
Definition blocking : Bot.Collaborators unit :=
  {| Bot.checkMessage := fun _ => mret false;
     Bot.checkLimit := fun _ => mret true;
     Bot.handle := fun m c => (Ret tt, [Reply (messageID m) "pong"], c);
     Bot.handleEvent_ := fun _ c => (Ret tt, [], c);
     Bot.handleReaction_ := fun _ c => (Ret tt, [], c) |}.

(** A rate limiter that rejects every sender. *)
Definition throttling : Bot.Collaborators unit :=
  {| Bot.checkMessage := fun _ => mret true;
     Bot.checkLimit := fun _ => mret false;
     Bot.handle := fun m c => (Ret tt, [Reply (messageID m) "pong"], c);
     Bot.handleEvent_ := fun _ c => (Ret tt, [], c);
     Bot.handleReaction_ := fun _ c => (Ret tt, [], c) |}.

(** Handlers that throw, the message handler after a first outbound call. *)
Definition faulty : Bot.Collaborators unit :=
  {| Bot.checkMessage := fun _ => mret true;
     Bot.checkLimit := fun _ => mret true;
     Bot.handle := fun m c => (Throw boom, [Reply (messageID m) "working on it"], c);
     Bot.handleEvent_ := fun _ c => (Throw boom, [], c);
     Bot.handleReaction_ := fun _ c => (Throw boom, [], c) |}.

Definition thumbsUp : Reaction :=
  {| reaction_senderID := "100"; reaction_threadID := "7"; reaction_messageID := "m1";
     emoji := "+1" |}.

Definition presence : PlatformEvent := {| type := "presence"; payload := "100" |}.

(** A burst of sender "s", one message of sender "t", a cleanup, and two
    later messages of "s"; clock readings in seconds. *)
Definition burst : list RateLimiter.Op :=
  [ RateLimiter.OpAdmit "s" 0; RateLimiter.OpAdmit "s" 1; RateLimiter.OpAdmit "s" 2;
    RateLimiter.OpAdmit "t" 2; RateLimiter.OpCleanup 5;
    RateLimiter.OpAdmit "s" 11; RateLimiter.OpAdmit "s" 12 ].

(** One exchange through [onStart] that no other invocation overlaps: the
    call, and the settlements of the typing indicator, of the model call, of
    the cache write and of the reply. *)
Definition exchangeAlone : list AiAsync.Label :=
  [ AiAsync.Call_onStart config answering hello ["hello"];
    AiAsync.Resume 0 answering; AiAsync.Resume 0 answering;
    AiAsync.Resume 0 answering; AiAsync.Resume 0 answering ].

(** Sixteen exchanges, one after the other. *)
Definition sixteenAlone : list AiAsync.Label := concat (replicate 16 exchangeAlone).

(** Nine exchanges, and then two messages of sender 100 whose invocations
    overlap: both have appended the user's turn before either is answered by
    the model. *)
Definition overlapping : list AiAsync.Label :=
  concat (replicate 9 exchangeAlone)
  ++ [ AiAsync.Call_onStart config answering hello ["hello"];
       AiAsync.Call_onStart config answering hello ["again"];
       AiAsync.Resume 0 answering; AiAsync.Resume 1 answering;
       AiAsync.Resume 0 answering; AiAsync.Resume 1 answering ].

End Scenario.

(** ** Vocabulary of the statements *)

Module Logic.

(** [wp m Q E s]: run from the store [s], the computation [m] ends in a
    store that satisfies [Q a] when it returns [a] and [E e] when it throws
    [e]. *)
Definition wp {S A} (m : Eff S A) (Q : A -> S -> Prop) (E : JsError -> S -> Prop) (s : S) : Prop :=
  match m s with
  | (Ret a, s') => Q a s'
  | (Throw e, s') => E e s'
  end.

(** Every session of the [conversations] map holds at most [n] turns. *)
Definition bounded (n : nat) (w : Ai.World) : Prop :=
  map_Forall (fun _ c => length (Ai.messages c) <= n) (Ai.conversations w).

(** The key under which a session is mirrored in the cache. *)
Definition mirrorKey (conversationId : string) : string :=
  "ai_conversation_" +:+ conversationId.

(** What a read of the mirrored store finds for a session: the value
    [cacheGet] hands back ([None] is [null]). *)
Definition mirrored (conversationId : string) (w : Ai.World) : option Ai.Conversation :=
  match fst (Database.cacheGet (mirrorKey conversationId) (Ai.db w)) with
  | Ret found => found
  | Throw _ => None
  end.

(** The store after a run, with the calls [t] added to its trace. *)
Definition traced (t : list Ai.Effect) (w : Ai.World) : Ai.World :=
  {| Ai.conversations := Ai.conversations w; Ai.GoatBot_onReply := Ai.GoatBot_onReply w;
     Ai.db := Ai.db w; Ai.trace := Ai.trace w ++ t |}.

(** The manager after a dispatch that counted [processed] messages and
    [failed] errors, added [t] to the trace and left the collaborators in the
    state [c]; every other field is as before. *)
Definition settled {Collab : Type} (processed failed : nat) (t : list Bot.Obs) (c : Collab)
  (bm : Bot.BotManager Collab) : Bot.BotManager Collab :=
  Bot.set_collab c
    (Bot.set_trace (Bot.trace bm ++ t)
       (Bot.set_stats
          {| Bot.messagesProcessed := processed + Bot.messagesProcessed (Bot.stats bm);
             Bot.commandsExecuted := Bot.commandsExecuted (Bot.stats bm);
             Bot.errors := failed + Bot.errors (Bot.stats bm);
             Bot.uptime := Bot.uptime (Bot.stats bm) |} bm)).

(** The outbound calls of a trace. *)
Definition outbound (t : list Bot.Obs) : list Transport.Outbound :=
  omap (fun o => match o with Bot.OOut out => Some out | _ => None end) t.

(** The messages handed to the message handler in a trace. *)
Definition handled (t : list Bot.Obs) : list Transport.Message :=
  omap (fun o => match o with Bot.OHandle m => Some m | _ => None end) t.

(** The lines logged in a trace. *)
Definition logged (t : list Bot.Obs) : list (Bot.LogKind * string * option JsError) :=
  omap (fun o => match o with Bot.OLog k l e => Some (k, l, e) | _ => None end) t.

(** The text of the two security log entries. *)
Definition blockedLine (m : Transport.Message) : string :=
  "Message blocked by security check: " +:+ Transport.senderID m.

Definition rateLimitedLine (m : Transport.Message) : string :=
  "Rate limit exceeded for user: " +:+ Transport.senderID m.

(** A running manager has a transport client. *)
Definition wired {Collab : Type} (bm : Bot.BotManager Collab) : Prop :=
  Bot.isRunning bm = true -> Bot.facebookAPI bm <> None.

(** The session [onStart] works on: the one in the map, or a fresh one. *)
Definition sessionOf (cfg : Config.AIConfig) (env : Ai.Env) (event : Ai.Event) (w : Ai.World)
  : Ai.Conversation :=
  let cid := Transport.threadID event +:+ "_" +:+ Transport.senderID event in
  default (Ai.newConversation cfg env cid (Transport.senderID event) (Transport.threadID event))
          (Ai.conversations w !! cid).

(** The timestamps kept for an identity. *)
Definition window_of (identity : string) (rl : RateLimiter.Limiter) : list Z :=
  default [] (RateLimiter.windows rl !! identity).

(** The timestamps of [l] that are not older than [b]. *)
Definition since (b : Z) (l : list Z) : list Z := filter (fun t => b <= t)%Z l.

(** The limiter [rl] agrees with the events [adm] admitted so far, the clock
    having reached [tcur]: no admitted event lies in the future, the window
    of every identity holds exactly its admitted timestamps as far as they
    can still matter, and no closed window of length [windowSize] holds more
    than [maxEvents] admitted events of one identity. *)
Record consistent (rl : RateLimiter.Limiter) (adm : list (string * Z)) (tcur : Z) : Prop := {
  past : Forall (fun e => snd e <= tcur)%Z adm;
  recent : forall identity b,
    (tcur - RateLimiter.windowSize rl <= b)%Z ->
    since b (window_of identity rl) = since b (RateLimiter.times_of identity adm);
  within : forall identity a,
    RateLimiter.count_in a (RateLimiter.windowSize rl) (RateLimiter.times_of identity adm)
    <= RateLimiter.maxEvents rl;
}.

End Logic.

(** ** Further vocabulary: what a trace of the command shows *)

Module Observations.


(** The requests sent to the language model in a trace. *)
Definition modelCalls (t : list Ai.Effect) : list (string * list Ai.ChatMsg) :=
  omap (fun e => match e with Ai.EComplete m msgs => Some (m, msgs) | _ => None end) t.

(** The session found by the lookup of [onReply]: in the map, else in the
    mirrored cache. *)
Definition found (conversationId : string) (w : Ai.World) : option Ai.Conversation :=
  match Ai.conversations w !! conversationId with
  | Some c => Some c
  | None => Logic.mirrored conversationId w
  end.



(** The continuation registered by a reply that was sent as message [sent]. *)
Definition registered (info : option string) (user conversationId : string)
  (reg : gmap string Ai.ReplyEntry) : gmap string Ai.ReplyEntry :=
  match info with
  | Some sent =>
      <[sent := {| Ai.commandName := "ai"; Ai.reply_messageID := sent;
                   Ai.author := user; Ai.conversationId := conversationId |}]> reg
  | None => reg
  end.

(** A reply that is rejected by the transport, whatever its text. *)
Definition rejecting : Ai.Env :=
  {| Ai.now := 1000;
     Ai.newOpenAI := fun _ => Ret tt;
     Ai.sendTypingIndicator := fun _ => Ret tt;
     Ai.createCompletion := fun _ _ => Ret "hi";
     Ai.reply := fun _ => Throw Scenario.boom |}.

(** A configuration without an API key. *)
Definition keyless : Config.ConfigManager :=
  {| Config.isInitialized := true;
     Config.OPENAI_API_KEY := Some "";
     Config.OPENAI_MODEL := None |}.

(** Sender 100 replies "Clear" to the message "m1", with a no-break space
    and a space before the word and an ideographic space after it. *)
Definition clearReply : Transport.Message :=
  {| Transport.senderID := "100"; Transport.threadID := "7";
     Transport.messageID := "m3";
     Transport.body := nbsp +:+ " Clear" +:+ ideographicSpace |}.

(** The state after one exchange with a Redis server that accepts every
    write. *)
Definition mirroredExchange : Ai.World :=
  snd (Ai.onStart Scenario.config Scenario.answering Scenario.hello ["hello"]
         (Ai.initial
            {| Database.redis :=
                 Some {| Database.store := ∅;
                         Database.setEx_reply := fun _ => Ret "OK";
                         Database.get_fault := fun _ => None |};
               Database.dblog := [] |})).

(** When a handler ends with an error, the trace ends with a reply that the
    transport rejected with that error. *)
Definition rejected_reply (env : Ai.Env) (o : Outcome unit) (w : Ai.World) : Prop :=
  match o with
  | Ret _ => True
  | Throw e => exists t, Ai.reply env t = Throw e /\ last (Ai.trace w) = Some (Ai.EReply t)
  end.

(** Every session of [w'] is a session of [w] with the same turns. *)
Definition same_turns (w w' : Ai.World) : Prop :=
  forall k c', Ai.conversations w' !! k = Some c' ->
               exists c, Ai.conversations w !! k = Some c /\ Ai.messages c' = Ai.messages c.


(** Between [w] and [w'] the language model was not called and no session
    gained, lost or changed a turn (sessions may have been removed). *)
Definition quiet (w w' : Ai.World) : Prop :=
  modelCalls (Ai.trace w') = modelCalls (Ai.trace w) /\ same_turns w w'.


(** Every session of the map [m'] is a session of [m] with the same turns. *)
Definition turns_kept (m m' : gmap string Ai.Conversation) : Prop :=
  forall k c', m' !! k = Some c' ->
               exists c, m !! k = Some c /\ Ai.messages c' = Ai.messages c.

(** [c'] is [c] but for its model and its system prompt. *)
Definition same_but_settings (c c' : Ai.Conversation) : Prop :=
  Ai.id c' = Ai.id c /\ Ai.userID c' = Ai.userID c
  /\ Ai.conv_threadID c' = Ai.conv_threadID c /\ Ai.messages c' = Ai.messages c
  /\ Ai.createdAt c' = Ai.createdAt c /\ Ai.lastUsed c' = Ai.lastUsed c.

(** Between [w] and [w'] the sessions under other keys than [cid], the
    pending continuations and the database manager are as they were, and the
    session under [cid], if there still is one, is the one there was, but
    for its model and system prompt. *)
Definition only_settings (cid : string) (w w' : Ai.World) : Prop :=
  (forall k, k <> cid -> Ai.conversations w' !! k = Ai.conversations w !! k)
  /\ (forall c', Ai.conversations w' !! cid = Some c' ->
                 exists c, Ai.conversations w !! cid = Some c /\ same_but_settings c c')
  /\ Ai.GoatBot_onReply w' = Ai.GoatBot_onReply w
  /\ Ai.db w' = Ai.db w.


End Observations.

(** ** The [ai] command: an invocation alone *)

(** The two models of the handlers side by side: the store of [AiAsync],
    read as the [conversations] map and the database manager of [Ai]. *)

Module AiAlone.
Import JsString Transport Logic Ai AiAsync.






End AiAlone.

(** ** DatabaseManager: the other cache operations, health and connection *)

Module DatabaseOps.
Import Database.

Section Cache.
Context {V : Type}.

(** What the Redis server answers to the commands [del], [flushDb] and
    [ping]: [del_fault k] makes [del(k)] throw; the other two answer with a
    status string or throw. *)
Record RedisAnswers := {
  del_fault : string -> option JsError;
  flushDb_reply : Outcome string;
  ping_reply : Outcome string;
}.

Definition remove (r : RedisClient V) (k : string) : RedisClient V :=
  {| store := delete k (store r); setEx_reply := setEx_reply r; get_fault := get_fault r |}.

Definition emptied (r : RedisClient V) : RedisClient V :=
  {| store := ∅; setEx_reply := setEx_reply r; get_fault := get_fault r |}.

(** [this.redis.del(key)]: the number of keys that were removed. *)
Definition redis_del (a : RedisAnswers) (r : RedisClient V) (key : string)
  : Eff (DatabaseManager V) Z :=
  match del_fault a key with
  | Some e => throw e
  | None =>
      _ ← modify (fun d => {| redis := Some (remove r key); dblog := dblog d |});
      mret (match store r !! key with Some _ => 1 | None => 0 end)%Z
  end.

(** [async cacheDelete(key)] *)
Definition cacheDelete (a : RedisAnswers) (key : string) : Eff (DatabaseManager V) bool :=
  r ← gets redis;
  match r with
  | None =>
      _ ← log LWarn "Redis not available, skipping cache delete" None;
      mret false
  | Some client =>
      try_catch
        (result ← redis_del a client key;
         mret (0 <? result)%Z)
        (fun error =>
           _ ← log LError ("Error deleting cache for key " +:+ key +:+ ":") (Some error);
           mret false)
  end.

(** [this.redis.flushDb()] *)
Definition redis_flushDb (a : RedisAnswers) (r : RedisClient V) : Eff (DatabaseManager V) string :=
  match flushDb_reply a with
  | Ret status =>
      _ ← modify (fun d => {| redis := Some (if String.eqb status "OK" then emptied r else r);
                              dblog := dblog d |});
      mret status
  | Throw e => throw e
  end.

(** [async cacheFlush()] *)
Definition cacheFlush (a : RedisAnswers) : Eff (DatabaseManager V) bool :=
  r ← gets redis;
  match r with
  | None =>
      _ ← log LWarn "Redis not available, skipping cache flush" None;
      mret false
  | Some client =>
      try_catch
        (result ← redis_flushDb a client;
         mret (String.eqb result "OK"))
        (fun error =>
           _ ← log LError "Error flushing cache:" (Some error);
           mret false)
  end.

(** *** Health *)

(** The [health] object of [healthCheck]. *)
Record Health := { mongodb : bool; health_redis : bool; overall : bool }.

Definition set_mongodb (v : bool) (h : Health) : Health :=
  {| mongodb := v; health_redis := health_redis h; overall := overall h |}.
Definition set_health_redis (v : bool) (h : Health) : Health :=
  {| mongodb := mongodb h; health_redis := v; overall := overall h |}.
Definition set_overall (v : bool) (h : Health) : Health :=
  {| mongodb := mongodb h; health_redis := health_redis h; overall := v |}.

(** The MongoDB side at the time of a check: whether [this.mongoose] is
    set, [mongoose.connection.readyState], and how
    [mongoose.connection.db.admin().ping()] ends. *)
Record Mongo := {
  mongoose : bool;
  readyState : Z;
  mongo_ping : Outcome unit;
}.

(** The local object [health] together with the manager. *)
Definition Frame : Type := Health * DatabaseManager V.

Definition assign_health (f : Health -> Health) : Eff Frame unit :=
  modify (fun fr : Frame => (f (fst fr), snd fr)).

Definition in_manager {A} (m : Eff (DatabaseManager V) A) : Eff Frame A :=
  fun fr => let '(o, d) := m (snd fr) in (o, (fst fr, d)).

(** The [try] statement of [healthCheck]. *)
Definition healthCheck_try (a : RedisAnswers) (m : Mongo) : Eff Frame unit :=
  try_catch
    (_ ← (if mongoose m && (readyState m =? 1)%Z then
            _ ← lift (mongo_ping m);
            assign_health (set_mongodb true)
          else mret tt);
     r ← gets (fun fr : Frame => redis (snd fr));
     _ ← match r with
         | Some _ =>
             pong ← lift (ping_reply a);
             assign_health (set_health_redis (String.eqb pong "PONG"))
         | None => assign_health (set_health_redis true)
         end;
     h ← gets (fun fr : Frame => fst fr);
     assign_health (set_overall (mongodb h && health_redis h)))
    (fun error => in_manager (log LError "Database health check failed:" (Some error))).

(** [async healthCheck()] *)
Definition healthCheck (a : RedisAnswers) (m : Mongo) : Eff (DatabaseManager V) Health :=
  fun d =>
    let '(o, fr) :=
      healthCheck_try a m ({| mongodb := false; health_redis := false; overall := false |}, d) in
    (match o with Ret _ => Ret (fst fr) | Throw e => Throw e end, snd fr).

(** The manager after a health check that failed with [e]: the error was
    logged. *)
Definition failed_check (e : JsError) (d : DatabaseManager V) : DatabaseManager V :=
  {| redis := redis d;
     dblog := dblog d ++ [ {| level := LError; text := "Database health check failed:";
                              err := Some e |} ] |}.

End Cache.

Arguments Frame : clear implicits.

(** *** Connection *)

(** A line written through the logger by the connection code. *)
Inductive Line :=
| LDatabase (text : string)                     (* logger.database *)
| LFailure (text : string) (e : option JsError)   (* logger.error *)
| LWarning (text : string).                     (* logger.warning *)

(** The connection state of the manager: whether [this.mongoose] and
    [this.redis] are set, the two fields [isConnected] and
    [connectionRetries], the reconnections scheduled with [setTimeout], the
    calls of [attemptReconnection] that were made, and the log. *)
Record Connection := {
  mongooseSet : bool;
  redisSet : bool;
  isConnected : bool;
  connectionRetries : nat;
  scheduled : list string;
  attempts : list string;
  journal : list Line;
}.

(** [this.maxRetries = 5] *)
Definition maxRetries : nat := 5.

(** The state built by the constructor. *)
Definition fresh : Connection :=
  {| mongooseSet := false; redisSet := false; isConnected := false;
     connectionRetries := 0; scheduled := []; attempts := []; journal := [] |}.

Definition logLine (l : Line) : Eff Connection unit :=
  modify (fun c => {| mongooseSet := mongooseSet c; redisSet := redisSet c;
                      isConnected := isConnected c; connectionRetries := connectionRetries c;
                      scheduled := scheduled c; attempts := attempts c;
                      journal := journal c ++ [l] |}).

Definition set_isConnected (v : bool) : Eff Connection unit :=
  modify (fun c => {| mongooseSet := mongooseSet c; redisSet := redisSet c;
                      isConnected := v; connectionRetries := connectionRetries c;
                      scheduled := scheduled c; attempts := attempts c;
                      journal := journal c |}).

Definition set_connectionRetries (n : nat) : Eff Connection unit :=
  modify (fun c => {| mongooseSet := mongooseSet c; redisSet := redisSet c;
                      isConnected := isConnected c; connectionRetries := n;
                      scheduled := scheduled c; attempts := attempts c;
                      journal := journal c |}).

(** [setTimeout(() => this.attemptReconnection(dbType), this.retryDelay)] *)
Definition schedule (dbType : string) : Eff Connection unit :=
  modify (fun c => {| mongooseSet := mongooseSet c; redisSet := redisSet c;
                      isConnected := isConnected c; connectionRetries := connectionRetries c;
                      scheduled := scheduled c ++ [dbType]; attempts := attempts c;
                      journal := journal c |}).

(** The decimal digits of a number, as a template literal prints it. *)
Definition show (n : nat) : string := NilZero.string_of_uint (Nat.to_uint n).

(** [async handleConnectionError(dbType, error)] *)
Definition handleConnectionError (dbType : string) (error : JsError) : Eff Connection unit :=
  _ ← logLine (LFailure (dbType +:+ " connection error:") (Some error));
  retries ← gets connectionRetries;
  if (retries <? maxRetries)%nat then
    _ ← set_connectionRetries (S retries);
    _ ← logLine (LDatabase ("Attempting to reconnect to " +:+ dbType +:+ " (attempt "
                          +:+ show (S retries) +:+ "/" +:+ show maxRetries +:+ ")"));
    schedule dbType
  else
    logLine (LFailure ("Max reconnection attempts reached for " +:+ dbType) None).

(** The listener of the ['connected'] event of the MongoDB connection. *)
Definition onConnected : Eff Connection unit :=
  _ ← logLine (LDatabase "MongoDB connected successfully");
  set_connectionRetries 0.

(** The listener of the ['reconnected'] event. *)
Definition onReconnected : Eff Connection unit :=
  _ ← logLine (LDatabase "MongoDB reconnected");
  _ ← set_isConnected true;
  set_connectionRetries 0.

(** A call that reads or writes [connectionRetries]: of
    [handleConnectionError], or of the body of the listener of ['connected']
    or of ['reconnected']. *)
Inductive Call :=
| CallError (dbType : string) (error : JsError)
| CallConnected
| CallReconnected.

Definition call (c : Call) : Eff Connection unit :=
  match c with
  | CallError dbType error => handleConnectionError dbType error
  | CallConnected => onConnected
  | CallReconnected => onReconnected
  end.

(** The state after a sequence of calls. *)
Fixpoint calls (l : list Call) (c : Connection) : Connection :=
  match l with
  | [] => c
  | x :: rest => calls rest (snd (call x c))
  end.

(** A call of [handleConnectionError]. *)
Definition is_error (x : Call) : Prop :=
  match x with CallError _ _ => True | _ => False end.

(** [async attemptReconnection(dbType)], as far as it runs when it is
    called: it calls [connectMongoDB] (or [connectRedis]), which starts the
    connection and awaits it; [MONGODB_URI] is taken to be set as it was when
    [this.mongoose] was assigned.  What the attempt does once the connection
    is made or has failed comes after the caller has gone on, and is not
    followed here: it assigns neither [isConnected] nor [connectionRetries],
    it leaves [this.redis] alone and assigns [this.mongoose] only a
    connection. *)
Definition attemptReconnection (dbType : string) : Eff Connection unit :=
  modify (fun c => {| mongooseSet := mongooseSet c; redisSet := redisSet c;
                      isConnected := isConnected c; connectionRetries := connectionRetries c;
                      scheduled := scheduled c; attempts := attempts c ++ [dbType];
                      journal := journal c |}).

(** The listener of the ['disconnected'] event of the MongoDB connection. *)
Definition onDisconnected : Eff Connection unit :=
  _ ← logLine (LWarning "MongoDB disconnected");
  _ ← set_isConnected false;
  attemptReconnection "MongoDB".

(** A listener that was registered [n] times runs [n] times. *)
Fixpoint listeners (n : nat) (listener : Eff Connection unit) : Eff Connection unit :=
  match n with
  | 0 => mret tt
  | S k => _ ← listener; listeners k listener
  end.

(** How [mongoose.disconnect()] and [this.redis.disconnect()] end, and how
    many listeners of ['disconnected'] run while [mongoose.disconnect()] is
    awaited: none when the connection emits no such event (it was not
    connected), otherwise one for each time [connectMongoDB] registered its
    listeners (once for the first connection and once more for every
    reconnection that succeeded). *)
Record DisconnectOracle := {
  mongoDisconnect : Outcome unit;
  disconnectedListeners : nat;
  redisDisconnect : Outcome unit;
}.

(** [async disconnect()] *)
Definition disconnect (o : DisconnectOracle) : Eff Connection unit :=
  try_catch
    (m ← gets mongooseSet;
     _ ← (if m : bool then
            _ ← listeners (disconnectedListeners o) onDisconnected;
            _ ← lift (mongoDisconnect o);
            logLine (LDatabase "MongoDB disconnected")
          else mret tt);
     r ← gets redisSet;
     _ ← (if r : bool then
            _ ← lift (redisDisconnect o);
            logLine (LDatabase "Redis disconnected")
          else mret tt);
     _ ← set_isConnected false;
     logLine (LDatabase "Database manager disconnected"))
    (fun error => logLine (LFailure "Error disconnecting from databases:" (Some error))).

End DatabaseOps.

(** ** BotManager: periodic tasks *)

Module Maintenance.
Import Bot.

Section Periodic.
Context {Collab V : Type}.

(** The manager together with the database manager it was constructed
    with ([this.databaseManager]). *)
Record Plant := {
  manager : BotManager Collab;
  database : Database.DatabaseManager V;
}.

Definition in_bot {A} (m : Eff (BotManager Collab) A) : Eff Plant A :=
  fun p => let '(o, bm) := m (manager p) in (o, {| manager := bm; database := database p |}).

Definition in_database {A} (m : Eff (Database.DatabaseManager V) A) : Eff Plant A :=
  fun p => let '(o, d) := m (database p) in (o, {| manager := manager p; database := d |}).

(** [rateLimiter.cleanup()], a method of a class outside the sources, taken
    as a parameter as the checks are: it works on the state of the
    collaborators and returns or throws. *)
Variable cleanup : Eff Collab unit.

Variable answers : DatabaseOps.RedisAnswers.

(** [async performCleanup()] *)
Definition performCleanup : Eff Plant unit :=
  try_catch
    (_ ← in_bot (logger KInfo "Performing periodic cleanup..." None);
     present ← gets (fun p => rateLimiter (manager p));
     _ ← (if present : bool then in_bot (call_check cleanup)
          else throw (nullDeref "cleanup"));
     _ ← in_database (DatabaseOps.cacheFlush answers);
     in_bot (logger KInfo "Cleanup completed" None))
    (fun error => in_bot (logger KError "Cleanup failed:" (Some error))).

End Periodic.

Arguments Plant : clear implicits.

End Maintenance.

(** ** The application object *)

Module EnhancedSecretBot.

Section Application.
Context {Collab : Type}.

(** The fields of [EnhancedSecretBot] that [stop] works on, and the log. *)
Record App := {
  isRunning : bool;
  botManager : option (Bot.BotManager Collab);
  databaseManager : DatabaseOps.Connection;
  applog : list (Bot.LogKind * string * option JsError);
}.

Definition logger (k : Bot.LogKind) (line : string) (cause : option JsError) : Eff App unit :=
  modify (fun a => {| isRunning := isRunning a; botManager := botManager a;
                      databaseManager := databaseManager a;
                      applog := applog a ++ [(k, line, cause)] |}).

(** [await this.botManager.stop()] *)
Definition stopManager (o : Bot.StopOracle) (bm : Bot.BotManager Collab) : Eff App unit :=
  fun a => let '(r, bm') := Bot.stop o bm in
           (r, {| isRunning := isRunning a; botManager := Some bm';
                  databaseManager := databaseManager a; applog := applog a |}).

(** [await this.databaseManager.disconnect()] *)
Definition disconnectDatabase (o : DatabaseOps.DisconnectOracle) : Eff App unit :=
  fun a => let '(r, c) := DatabaseOps.disconnect o (databaseManager a) in
           (r, {| isRunning := isRunning a; botManager := botManager a;
                  databaseManager := c; applog := applog a |}).

(** [async stop()]; [this.databaseManager] is set by the constructor. *)
Definition stop (so : Bot.StopOracle) (dc : DatabaseOps.DisconnectOracle) : Eff App unit :=
  try_catch
    (_ ← modify (fun a => {| isRunning := false; botManager := botManager a;
                             databaseManager := databaseManager a; applog := applog a |});
     bm ← gets botManager;
     _ ← match bm with
         | Some bm => stopManager so bm
         | None => mret tt
         end;
     _ ← disconnectDatabase dc;
     logger Bot.KInfo "Bot stopped successfully" None)
    (fun error => logger Bot.KError "Error stopping bot:" (Some error)).

End Application.

Arguments App : clear implicits.

End EnhancedSecretBot.

(** ** Further vocabulary for traces of the command *)

Module AiView.


(** The lower-case names that the [models] object inherits from
    [Object.prototype]; [this.models[name]] finds them although they are not
    keys of the table. *)
Definition inheritedNames : list string := ["constructor"; "__proto__"].

End AiView.

(** ** What a trace of the manager shows *)

Module BotView.

(** The number of lines logged as errors in a trace. *)
Definition errorLines (t : list Bot.Obs) : nat :=
  length (omap (fun o => match o with
                         | Bot.OLog Bot.KError line cause => Some (line, cause)
                         | _ => None
                         end) t).

(** The manager with the line [l] added to its trace. *)
Definition noted {Collab : Type} (l : Bot.Obs) (bm : Bot.BotManager Collab)
  : Bot.BotManager Collab :=
  Bot.set_trace (Bot.trace bm ++ [l]) bm.

(** What one dispatch does to the statistics: [n] messages are counted,
    and as many errors as error lines were logged, at most one;
    [commandsExecuted] and [uptime] are left as they were. *)
Definition counted {Collab : Type} (n : nat) (bm bm' : Bot.BotManager Collab) : Prop :=
  exists t,
    Bot.trace bm' = Bot.trace bm ++ t
    /\ errorLines t <= 1
    /\ Bot.stats bm'
       = {| Bot.messagesProcessed := n + Bot.messagesProcessed (Bot.stats bm);
            Bot.commandsExecuted := Bot.commandsExecuted (Bot.stats bm);
            Bot.errors := errorLines t + Bot.errors (Bot.stats bm);
            Bot.uptime := Bot.uptime (Bot.stats bm) |}.

(** From [bm] to [bm'] no counter went down, [commandsExecuted] did not
    move, the trace was only extended, and every error counted on the way was
    logged. *)
Definition advance {Collab : Type} (bm bm' : Bot.BotManager Collab) : Prop :=
  Bot.commandsExecuted (Bot.stats bm') = Bot.commandsExecuted (Bot.stats bm)
  /\ Bot.messagesProcessed (Bot.stats bm) <= Bot.messagesProcessed (Bot.stats bm')
  /\ Bot.errors (Bot.stats bm) <= Bot.errors (Bot.stats bm')
  /\ exists t,
       Bot.trace bm' = Bot.trace bm ++ t
       /\ Bot.errors (Bot.stats bm') <= Bot.errors (Bot.stats bm) + errorLines t.

End BotView.

(** ** ConfigManager: the identifier lists *)

Module ConfigLists.

(** A value held in [this.config]: what the environment, the validation
    and the configuration file can put there. *)
Inductive JsVal :=
| VUndefined
| VNull
| VBool (b : bool)
| VNum (n : Z)
| VStr (s : string)
| VArr (l : list string).

(** Truthiness. *)
Definition truthyVal (v : JsVal) : bool :=
  match v with
  | VUndefined | VNull => false
  | VBool b => b
  | VNum n => negb (n =? 0)%Z
  | VStr s => nonempty s
  | VArr _ => true
  end.

Definition comma : Ascii.ascii := Ascii.ascii_of_nat 44.

(** [s.split(',')] *)
Fixpoint split (s : string) : list string :=
  match s with
  | EmptyString => [EmptyString]
  | String c rest =>
      if Ascii.eqb c comma then EmptyString :: split rest
      else match split rest with
           | t :: ts => String c t :: ts
           | [] => [String c EmptyString]
           end
  end.

(** The three keys that [processConfig] rewrites. *)
Record Lists := {
  ADMIN_IDS : JsVal;
  WHITELIST_IDS : JsVal;
  TELEGRAM_CHAT_ID : JsVal;
}.

(** Calling [split] on a value that has no such method. *)
Definition notAFunction (key : string) : JsError :=
  {| code := ""; message := "this.config." +:+ key +:+ ".split is not a function" |}.

(** [v.split(',').map(id => id.trim())] *)
Definition splitIds (key : string) (v : JsVal) : Outcome JsVal :=
  match v with
  | VStr s => Ret (VArr (map trim (split s)))
  | _ => Throw (notAFunction key)
  end.

(** [processConfig()] *)
Definition processConfig : Eff Lists unit :=
  admins ← gets ADMIN_IDS;
  _ ← (if truthyVal admins then
         ids ← lift (splitIds "ADMIN_IDS" admins);
         modify (fun c => {| ADMIN_IDS := ids; WHITELIST_IDS := WHITELIST_IDS c;
                             TELEGRAM_CHAT_ID := TELEGRAM_CHAT_ID c |})
       else mret tt);
  white ← gets WHITELIST_IDS;
  _ ← (if truthyVal white then
         ids ← lift (splitIds "WHITELIST_IDS" white);
         modify (fun c => {| ADMIN_IDS := ADMIN_IDS c; WHITELIST_IDS := ids;
                             TELEGRAM_CHAT_ID := TELEGRAM_CHAT_ID c |})
       else mret tt);
  chats ← gets TELEGRAM_CHAT_ID;
  if truthyVal chats then
    ids ← lift (splitIds "TELEGRAM_CHAT_ID" chats);
    modify (fun c => {| ADMIN_IDS := ADMIN_IDS c; WHITELIST_IDS := WHITELIST_IDS c;
                        TELEGRAM_CHAT_ID := ids |})
  else mret tt.

(** The number of commas of a string. *)
Fixpoint commas (s : string) : nat :=
  match s with
  | EmptyString => 0
  | String c rest => (if Ascii.eqb c comma then 1 else 0) + commas rest
  end.

(** What [processConfig] makes of one value: a non-empty string is split
    and trimmed, a falsy value is left alone. *)
Definition processed (v : JsVal) : JsVal :=
  match v with
  | VStr s => if nonempty s then VArr (map trim (split s)) else v
  | _ => v
  end.

(** A value that [processConfig] can work on: a string, or a falsy value. *)
Definition splittable (v : JsVal) : Prop :=
  match v with
  | VStr _ => True
  | _ => truthyVal v = false
  end.

(** ADMIN_IDS=" 100<U+00A0>,<U+3000>200," *)
Definition spacedIds : string :=
  " 100" +:+ nbsp +:+ "," +:+ ideographicSpace +:+ "200,".

End ConfigLists.

(** * Properties *)

(** ** Reasoning about computations *)

Module Rules.
Import Logic.

Lemma wp_ret {S A} (a : A) Q E (s : S) : Q a s -> wp (mret a) Q E s.
Proof. exact (fun H => H). Qed.

Lemma wp_throw {S A} e (Q : A -> S -> Prop) E (s : S) : E e s -> wp (throw e) Q E s.
Proof. exact (fun H => H). Qed.

Lemma wp_bind {S A B} (m : Eff S A) (k : A -> Eff S B) Q E (s : S) :
  wp m (fun a => wp (k a) Q E) E s -> wp (m ≫= k) Q E s.
Proof.
  unfold wp, mbind, eff_bind, bind. destruct (m s) as [[a|e] s']; exact (fun H => H).
Qed.

Lemma wp_try {S A} (body : Eff S A) h Q E (s : S) :
  wp body Q (fun e => wp (h e) Q E) s -> wp (try_catch body h) Q E s.
Proof.
  unfold wp, try_catch. destruct (body s) as [[a|e] s']; exact (fun H => H).
Qed.

Lemma wp_modify {S} (f : S -> S) Q E (s : S) : Q tt (f s) -> wp (modify f) Q E s.
Proof. exact (fun H => H). Qed.

Lemma wp_gets {S A} (f : S -> A) Q E (s : S) : Q (f s) s -> wp (gets f) Q E s.
Proof. exact (fun H => H). Qed.

Lemma wp_lift {S A} (o : Outcome A) (Q : A -> S -> Prop) E (s : S) :
  match o with Ret a => Q a s | Throw e => E e s end -> wp (lift o) Q E s.
Proof. unfold wp, lift. destruct o; exact (fun H => H). Qed.

Lemma wp_equation {S A} (m : Eff S A) (s : S) (r : Outcome A * S) :
  wp m (fun a s' => r = (Ret a, s')) (fun e s' => r = (Throw e, s')) s -> m s = r.
Proof. unfold wp. destruct (m s) as [[a|e] s']; intros ->; reflexivity. Qed.

Lemma wp_mono {S A} (m : Eff S A) (Q Q' : A -> S -> Prop) (E E' : JsError -> S -> Prop) (s : S) :
  wp m Q E s ->
  (forall a s', Q a s' -> Q' a s') -> (forall e s', E e s' -> E' e s') ->
  wp m Q' E' s.
Proof. unfold wp. destruct (m s) as [[a|e] s']; auto. Qed.

Lemma wp_snd {S A} (m : Eff S A) (P : S -> Prop) (s : S) :
  wp m (fun _ => P) (fun _ => P) s -> P (snd (m s)).
Proof. unfold wp. destruct (m s) as [[a|e] s']; exact (fun H => H). Qed.

Lemma wp_outcome {S A} (m : Eff S A) (P : Outcome A -> S -> Prop) (s : S) :
  wp m (fun a => P (Ret a)) (fun e => P (Throw e)) s -> P (fst (m s)) (snd (m s)).
Proof. unfold wp. destruct (m s) as [[a|e] s']; exact (fun H => H). Qed.

Ltac head_of t := lazymatch t with ?f _ => head_of f | _ => t end.

(** One step of symbolic execution through the control structure of a
    computation; [norm] tidies the store after a change. *)
Ltac wp_core norm :=
  lazymatch goal with
  | |- wp (mbind _ _) _ _ _ => apply wp_bind
  | |- wp (mret _) _ _ _ => apply wp_ret
  | |- wp (ret _) _ _ _ => apply wp_ret
  | |- wp (throw _) _ _ _ => apply wp_throw
  | |- wp (try_catch _ _) _ _ _ => apply wp_try
  | |- wp (modify _) _ _ _ => apply wp_modify; norm
  | |- wp (gets _) _ _ _ => apply wp_gets; norm
  | |- wp (let x := ?v in _) _ _ _ => cbv zeta
  | |- wp ?m _ _ _ =>
      let h := head_of m in
      first [ unfold h | fail 1 "stuck at" m ]
  end.

End Rules.

(** ** The mirrored cache *)

Module DatabaseFacts.
Import Database.

Lemma cacheSet_cases {V : Type} {codec : Json V} (key : string) (value : V) (expireSeconds : Z)
  (d : DatabaseManager V) :
  exists b d',
    cacheSet key value expireSeconds d = (Ret b, d')
    /\ match redis d with
       | None =>
           b = false
           /\ d' = {| redis := None;
                      dblog := dblog d ++ [ {| level := LWarn;
                                               text := "Redis not available, skipping cache set";
                                               err := None |} ] |}
       | Some c =>
           match setEx_reply c key with
           | Throw e =>
               b = false
               /\ d' = {| redis := Some c;
                          dblog := dblog d ++ [ {| level := LError;
                                                   text := "Error setting cache for key " +:+ key +:+ ":";
                                                   err := Some e |} ] |}
           | Ret status =>
               b = String.eqb status "OK" /\ dblog d' = dblog d
           end
       end.
Proof.
  unfold cacheSet, mbind, eff_bind, bind, gets, try_catch, redis_setEx, log, modify, mret, eff_ret, ret,
    throw; simpl.
  destruct d as [[c|] lg]; simpl.
  - destruct (setEx_reply c key) as [status|e]; simpl; eauto.
  - eauto.
Qed.

Lemma cacheGet_returns {V : Type} (key : string) (d : DatabaseManager V) :
  exists r d', cacheGet key d = (Ret r, d') /\ redis d' = redis d.
Proof.
  unfold cacheGet, mbind, eff_bind, bind, gets, try_catch, redis_get, log, modify, mret, eff_ret, ret,
    throw; simpl.
  destruct d as [[c|] lg]; simpl; [|eauto].
  destruct (get_fault c key); simpl; eauto.
Qed.

(** C8.  For every key, value and expiry, and whatever the state of the
    cache backend, [cacheSet] returns a boolean and never throws: with no
    Redis client it logs a warning and returns [false]; when the write
    throws it logs the error and returns [false]; otherwise it returns
    whether the status was OK.  The mirroring step of the [ai] command
    therefore always returns, and it leaves the in-memory [conversations] map
    as the preceding in-memory write made it. *)
Theorem cacheSet_never_throws :
  (forall (V : Type) (codec : Json V) (key : string) (value : V) (expireSeconds : Z)
          (d : DatabaseManager V),
     exists b d',
       cacheSet key value expireSeconds d = (Ret b, d')
       /\ match redis d with
          | None =>
              b = false
              /\ dblog d' = dblog d ++ [ {| level := LWarn;
                                            text := "Redis not available, skipping cache set";
                                            err := None |} ]
          | Some c =>
              match setEx_reply c key with
              | Throw e =>
                  b = false
                  /\ dblog d' = dblog d ++ [ {| level := LError;
                                                text := "Error setting cache for key " +:+ key +:+ ":";
                                                err := Some e |} ]
              | Ret status => b = String.eqb status "OK" /\ dblog d' = dblog d
              end
          end)
  /\ (forall (key : string) (c : Ai.Conversation) (ttl : Z) (w : Ai.World),
        exists b w',
          Ai.cacheSet key c ttl w = (Ret b, w')
          /\ Ai.conversations w' = Ai.conversations w
          /\ Ai.GoatBot_onReply w' = Ai.GoatBot_onReply w
          /\ Ai.trace w' = Ai.trace w ++ [Ai.ECacheSet key ttl]).
Proof.
  split.
  - intros V codec key value expireSeconds d.
    destruct (cacheSet_cases key value expireSeconds d) as (b & d' & Heq & Hcase).
    exists b, d'. split; [exact Heq|].
    destruct (redis d) as [c|].
    + destruct (setEx_reply c key); destruct Hcase as [-> Hd]; subst; auto.
    + destruct Hcase as [-> ->]. auto.
  - intros key c ttl w.
    destruct (cacheSet_cases key c ttl (Ai.db w)) as (b & d' & Heq & _).
    exists b. eexists. split.
    + unfold Ai.cacheSet, Ai.emit, Ai.zoom_db, mbind, eff_bind, bind, modify. simpl.
      rewrite Heq. reflexivity.
    + simpl. auto.
Qed.

End DatabaseFacts.
(** ** The [ai] command *)

Module AiFacts.
Import Logic Rules Ai.

Lemma slice_last_length {A} (n : nat) (l : list A) :
  length (slice_last n l) = Nat.min n (length l).
Proof. unfold slice_last. rewrite length_drop. lia. Qed.

Lemma trimHistory_length (l : list Turn) :
  length (trimHistory l) <= historyLimit.
Proof.
  unfold trimHistory. destruct (Nat.ltb_spec historyLimit (length l)).
  - rewrite slice_last_length. unfold historyKeep, historyLimit. lia.
  - assumption.
Qed.

Lemma wp_zoom_db {A} (m : Eff (Database.DatabaseManager Conversation) A) Q E (w : World) :
  (forall o d, m (db w) = (o, d) ->
     match o with Ret a => Q a (set_db d w) | Throw e => E e (set_db d w) end) ->
  wp (zoom_db m) Q E w.
Proof.
  intros H. unfold wp, zoom_db. destruct (m (db w)) as [o d] eqn:Hm.
  specialize (H o d eq_refl). destruct o; exact H.
Qed.

Lemma wp_db_cacheSet key (c : Conversation) ttl Q E (w : World) :
  (forall b d, Q b (set_db d w)) -> wp (zoom_db (Database.cacheSet key c ttl)) Q E w.
Proof.
  intros H. apply wp_zoom_db. intros o d Hm.
  destruct (DatabaseFacts.cacheSet_cases key c ttl (db w)) as (b & d' & Heq & _).
  rewrite Heq in Hm. injection Hm as <- <-. apply H.
Qed.

Lemma wp_db_cacheGet key Q E (w : World) :
  (forall r d, Q r (set_db d w)) -> wp (zoom_db (Database.cacheGet (V:=Conversation) key)) Q E w.
Proof.
  intros H. apply wp_zoom_db. intros o d Hm.
  destruct (DatabaseFacts.cacheGet_returns key (db w)) as (b & d' & Heq & _).
  rewrite Heq in Hm. injection Hm as <- <-. apply H.
Qed.

Ltac case_inner x :=
  lazymatch x with
  | match ?y with _ => _ end => case_inner y
  | subcommand _ _ _ => unfold subcommand
  | _ => destruct x eqn:?
  end.

Ltac norm_world :=
  cbv beta;
  cbn [conversations GoatBot_onReply db trace set_conversations set_onReply set_db].

(** One step of symbolic execution of a computation of the command, every
    test and every answer of a collaborator being split. *)
Ltac wp_step :=
  lazymatch goal with
  | |- wp (lift ?o) _ _ _ => apply wp_lift; destruct o eqn:?
  | |- wp (zoom_db (Database.cacheSet _ _ _)) _ _ _ => apply wp_db_cacheSet; intros ? ?; norm_world
  | |- wp (zoom_db (Database.cacheGet _)) _ _ _ => apply wp_db_cacheGet; intros ? ?; norm_world
  | |- wp (match ?x with _ => _ end) _ _ _ =>
      first [ progress (cbn [negb]; cbv beta iota) | case_inner x ]
  | _ => wp_core norm_world
  end.

Lemma push_length t c : length (messages (push t c)) = S (length (messages c)).
Proof. unfold push. simpl. rewrite length_app. simpl. lia. Qed.

Ltac solve_length :=
  rewrite ?push_length;
  cbn [messages set_messages set_lastUsed set_model set_systemPrompt newConversation length];
  try match goal with
      | |- context [length (trimHistory ?l)] => pose proof (trimHistory_length l)
      end;
  unfold historyLimit in *; lia.

Ltac solve_bounded Hw :=
  unfold bounded in *; norm_world;
  rewrite ?insert_insert_eq;
  repeat match goal with
         | H : conversations _ !! _ = Some _ |- _ =>
             apply (map_Forall_lookup_1 _ _ _ _ Hw) in H; cbv beta in H
         end;
  repeat first
    [ assumption
    | apply map_Forall_delete
    | apply map_Forall_insert_2; [solve_length|] ].

Lemma trimHistory_suffix (l : list Turn) : trimHistory l `suffix_of` l.
Proof.
  unfold trimHistory, slice_last. destruct (historyLimit <? length l)%nat; [|done].
  apply suffix_drop.
Qed.

Lemma trimHistory_over (l : list Turn) :
  historyLimit < length l ->
  trimHistory l = drop (length l - historyKeep) l /\ length (trimHistory l) = historyKeep.
Proof.
  intros H. unfold trimHistory. destruct (Nat.ltb_spec historyLimit (length l)); [|lia].
  split; [reflexivity|]. rewrite slice_last_length. unfold historyLimit, historyKeep in *. lia.
Qed.

Lemma trimHistory_under (l : list Turn) :
  length l <= historyLimit -> trimHistory l = l.
Proof.
  intros H. unfold trimHistory. destruct (Nat.ltb_spec historyLimit (length l)); [lia|done].
Qed.

Lemma onStart_try_bounded cm env ev args w :
  bounded (S historyLimit) w ->
  wp (onStart_try cm env ev args)
    (fun _ => bounded (S historyLimit)) (fun _ => bounded (S historyLimit)) w.
Proof.
  intros Hw. unfold onStart_try. repeat wp_step; solve_bounded Hw.
Qed.

Lemma onReply_try_bounded cm env ev R w :
  bounded (S historyLimit) w ->
  wp (onReply_try cm env ev R)
    (fun _ => bounded (S historyLimit)) (fun _ => bounded (S historyLimit)) w.
Proof.
  intros Hw. unfold onReply_try. repeat wp_step; solve_bounded Hw.
Qed.

Lemma onStart_bounded cm env ev args w :
  bounded (S historyLimit) w -> bounded (S historyLimit) (snd (onStart cm env ev args w)).
Proof.
  intros Hw. apply wp_snd. unfold onStart. apply wp_bind, wp_try.
  eapply wp_mono; [apply onStart_try_bounded, Hw | |];
    cbv beta; intros ? w' Hw'; repeat wp_step; solve_bounded Hw'.
Qed.

Lemma onReply_bounded cm env ev R w :
  bounded (S historyLimit) w -> bounded (S historyLimit) (snd (onReply cm env ev R w)).
Proof.
  intros Hw. apply wp_snd. unfold onReply. apply wp_bind, wp_try.
  eapply wp_mono; [apply onReply_try_bounded, Hw | |];
    cbv beta; intros ? w' Hw'; repeat wp_step; solve_bounded Hw'.
Qed.

(** C1, as stated, fails for the cap 20 of the code: sixteen successful
    exchanges from the initial state leave a session of 21 turns (the
    assistant turn of the sixteenth is appended to a session of 20). *)
Lemma history_exceeds_limit :
  (length <$> (messages <$> conversations (Scenario.exchanges 16) !! "7_100")) = Some 21
  /\ ~ bounded historyLimit (Scenario.exchanges 16).
Proof.
  assert (E : (length <$> (messages <$> conversations (Scenario.exchanges 16) !! "7_100"))
              = Some 21) by (vm_compute; reflexivity).
  split; [exact E|].
  intros H. unfold bounded in H.
  destruct (conversations (Scenario.exchanges 16) !! "7_100") as [c|] eqn:Hc; [|discriminate].
  apply (map_Forall_lookup_1 _ _ _ _ H) in Hc. simpl in E. injection E as E.
  unfold historyLimit in Hc. lia.
Qed.

End AiFacts.

(** ** Overlapping invocations of the [ai] command *)

Module AsyncFacts.
Import JsString Transport Ai AiFacts AiAsync.

Lemma awaiting_app o (l1 l2 : list Await) : awaiting o (l1 ++ l2) = awaiting o l1 + awaiting o l2.
Proof. induction l1 as [|a l1 IH]; cbn; [reflexivity|]. rewrite IH. lia. Qed.

Lemma awaiting_length o (l : list Await) : awaiting o l <= length l.
Proof.
  induction l as [|a l IH]; cbn; [lia|].
  assert (weight o a <= 1) by (destruct a; cbn; try case_decide; lia). lia.
Qed.

Lemma awaiting_middle o (l : list Await) i a :
  l !! i = Some a ->
  awaiting o l = awaiting o (take i l) + weight o a + awaiting o (drop (S i) l).
Proof.
  intros H. rewrite <- (take_drop_middle l i a H) at 1.
  rewrite awaiting_app. cbn. lia.
Qed.

Lemma length_middle (l : list Await) i a :
  l !! i = Some a -> length l = length (take i l) + 1 + length (drop (S i) l).
Proof.
  intros H. rewrite <- (take_drop_middle l i a H) at 1.
  rewrite length_app. cbn. lia.
Qed.

Lemma update_lookup o f (s : Store) o' :
  heap (update o f s) !! o' = if decide (o = o') then f <$> heap s !! o' else heap s !! o'.
Proof.
  unfold update. cbn. rewrite list_lookup_alter. case_decide; subst; reflexivity.
Qed.

Lemma allocate_lookup cid c (s : Store) o' :
  heap (allocate cid c s).2 !! o'
  = if decide (o' = length (heap s)) then Some c else heap s !! o'.
Proof.
  unfold allocate. cbn. case_decide as H.
  - subst. rewrite lookup_app_r by lia. rewrite Nat.sub_diag. reflexivity.
  - destruct (decide (o' < length (heap s))) as [Hlt|Hge].
    + apply lookup_app_l. exact Hlt.
    + rewrite lookup_ge_None_2 by (rewrite length_app; cbn; lia).
      symmetry. apply lookup_ge_None_2. lia.
Qed.

Lemma appendUser_messages env u (c : Conversation) :
  messages (appendUser env u c)
  = trimHistory (messages c ++ [ {| role := User; content := u; timestamp := newDate env |} ]).
Proof. reflexivity. Qed.

Lemma appendAssistant_messages env t (c : Conversation) :
  messages (appendAssistant env t c)
  = messages c ++ [ {| role := Assistant; content := t; timestamp := newDate env |} ].
Proof. reflexivity. Qed.

Lemma stretch_same before o c' w w' :
  before !! o = Some c' -> w' <= w -> stretch_of before o c' w w'.
Proof. intros H Hw. left. exists c'. auto. Qed.

(** [request] on the object [o0], which is [x] before: the user's turn is
    appended to it, other objects are as they were, and the invocation then
    awaits the model with [o0]. *)
Lemma request_ok h env cid o0 u (s : Store) x o c' :
  heap s !! o0 = Some x ->
  heap (request h env cid o0 u s).2 !! o = Some c' ->
  (o = o0 /\ c' = appendUser env u x
   /\ awaiting o (option_list (request h env cid o0 u s).1) = 1)
  \/ (o <> o0 /\ heap s !! o = Some c'
      /\ awaiting o (option_list (request h env cid o0 u s).1) = 0).
Proof.
  intros Hx. unfold request.
  assert (Hup : heap (update o0 (appendUser env u) s) !! o0 = Some (appendUser env u x)).
  { rewrite update_lookup, decide_True by reflexivity. rewrite Hx. reflexivity. }
  cbv zeta. rewrite Hup. cbn [fst snd]. rewrite update_lookup.
  case_decide as Ho.
  - subst o. rewrite Hx. cbn. intros [= <-]. left.
    rewrite decide_True by reflexivity. auto.
  - intros Hc. right. cbn. rewrite decide_False by exact Ho. auto.
Qed.

Lemma request_dangling h env cid o0 u (s : Store) o :
  heap s !! o0 = None ->
  heap (request h env cid o0 u s).2 !! o = heap s !! o
  /\ (request h env cid o0 u s).1 = None.
Proof.
  intros Hx. unfold request. cbv zeta.
  assert (Hup : heap (update o0 (appendUser env u) s) !! o0 = None).
  { rewrite update_lookup, decide_True by reflexivity. rewrite Hx. reflexivity. }
  rewrite Hup. cbn [fst snd]. split; [|reflexivity].
  rewrite update_lookup. case_decide; [subst; rewrite Hx|]; reflexivity.
Qed.

Lemma request_stretch h env cid o0 u (s : Store) before o c' w :
  (forall o', o' <> o0 -> heap s !! o' = before !! o') ->
  (before !! o0 = None \/ before !! o0 = heap s !! o0) ->
  heap (request h env cid o0 u s).2 !! o = Some c' ->
  stretch_of before o c' w (awaiting o (option_list (request h env cid o0 u s).1)).
Proof.
  intros Hother Hself Hc.
  destruct (heap s !! o0) as [x|] eqn:Hx.
  - destruct (request_ok h env cid o0 u s x o c' Hx Hc) as [(-> & -> & _)|(Ho & Hsame & ->)].
    + right. left. eexists (messages x), _. split; [|split; [apply appendUser_messages|]].
      * reflexivity.
      * destruct Hself as [Hnone|Hsome]; [left; exact Hnone|right; eauto].
    + apply stretch_same; [|lia]. rewrite <- Hother by exact Ho. exact Hsame.
  - destruct (request_dangling h env cid o0 u s o Hx) as [Hheap ->].
    rewrite Hheap in Hc. apply stretch_same; [|cbn; lia].
    destruct (decide (o = o0)) as [->|Ho]; [congruence|].
    rewrite <- Hother by exact Ho. exact Hc.
Qed.

Lemma allocate_request_stretch h env cid c u (s : Store) o c' w :
  heap (request h env cid (allocate cid c s).1 u (allocate cid c s).2).2 !! o = Some c' ->
  stretch_of (heap s) o c' w
    (awaiting o (option_list (request h env cid (allocate cid c s).1 u (allocate cid c s).2).1)).
Proof.
  apply request_stretch.
  - intros o' Ho'. rewrite allocate_lookup. cbn in Ho'. rewrite decide_False by exact Ho'.
    reflexivity.
  - left. cbn. apply lookup_ge_None_2. lia.
Qed.

Lemma resume_ok env a (s : Store) o c' :
  heap (resume env a s).2 !! o = Some c' ->
  stretch_of (heap s) o c' (weight o a) (awaiting o (option_list (resume env a s).1)).
Proof.
  destruct a as [cfg event u|event cid u|cid u cached|h cid o0 mdl msgs|response|response|];
    cbn [resume].
  - destruct (sendTypingIndicator env (threadID event)) as [[]|e];
      [|intros H; apply stretch_same; [exact H|cbn; lia]].
    destruct (conversations s !! (threadID event +:+ "_" +:+ senderID event)) as [o0|] eqn:Hc.
    + apply request_stretch; auto.
    + apply allocate_request_stretch.
  - destruct (sendTypingIndicator env (threadID event)) as [[]|e];
      [|intros H; apply stretch_same; [exact H|cbn; lia]].
    destruct (conversations s !! cid) as [o0|] eqn:Hc.
    + apply request_stretch; auto.
    + destruct (Database.cacheGet ("ai_conversation_" +:+ cid) (db s)) as [cached d].
      intros H; apply stretch_same; [exact H|cbn; lia].
  - destruct cached as [[c|]|e]; try (intros H; apply stretch_same; [exact H|cbn; lia]).
    apply allocate_request_stretch.
  - destruct (createCompletion env mdl msgs) as [aiResponse|e];
      [|intros H; apply stretch_same; [exact H|cbn; lia]].
    cbv zeta.
    destruct (heap s !! o0) as [x|] eqn:Hx.
    + assert (Hup : heap (update o0 (appendAssistant env aiResponse) s) !! o0
                    = Some (appendAssistant env aiResponse x)).
      { rewrite update_lookup, decide_True by reflexivity. rewrite Hx. reflexivity. }
      rewrite Hup.
      destruct (Database.cacheSet ("ai_conversation_" +:+ cid)
                  (appendAssistant env aiResponse x) cacheTTL
                  (db (update o0 (appendAssistant env aiResponse) s))) as [r d].
      cbn [fst snd set_db heap]. rewrite update_lookup. cbn [weight].
      case_decide as Ho.
      * subst o. rewrite Hx. cbn. intros [= <-]. right. right.
        exists x, {| role := Assistant; content := aiResponse; timestamp := newDate env |}.
        repeat split; first [exact Hx|reflexivity].
      * intros H. apply stretch_same; [exact H|cbn; lia].
    + assert (Hup : heap (update o0 (appendAssistant env aiResponse) s) !! o0 = None).
      { rewrite update_lookup, decide_True by reflexivity. rewrite Hx. reflexivity. }
      rewrite Hup. cbn [fst snd]. rewrite update_lookup.
      intros H. apply stretch_same; [|cbn; lia].
      case_decide; [subst; rewrite Hx in H; discriminate H|exact H].
  - intros H. apply stretch_same; [exact H|cbn; lia].
  - destruct (reply env response); intros H; apply stretch_same; (exact H || (cbn; lia)).
  - intros H. apply stretch_same; [exact H|cbn; lia].
Qed.

Lemma helper_ok args cid helper (s : Store) o c' :
  subcommand args cid = Some helper ->
  heap (helper s) !! o = Some c' ->
  exists c, heap s !! o = Some c /\ messages c' = messages c.
Proof.
  unfold subcommand. destruct args as [|a0 rest]; [discriminate|].
  destruct (nonempty a0); [|discriminate].
  destruct (String.eqb (toLowerCase a0) "clear"); [intros [= <-]; cbn; eauto|].
  destruct (String.eqb (toLowerCase a0) "model").
  { intros [= <-]. unfold switchModel.
    destruct (if truthy (rest !! 0%nat) then _ else _) as [target|]; [|eauto].
    destruct (nonempty target); [|eauto].
    destruct (conversations s !! cid) as [o0|]; [|eauto].
    rewrite update_lookup. case_decide; [|eauto].
    destruct (heap s !! o) as [c|]; [|discriminate]. cbn. intros [= <-]. eauto. }
  destruct (String.eqb (toLowerCase a0) "system").
  { intros [= <-]. unfold setSystemPrompt.
    destruct (negb (nonempty (join " " rest))); [eauto|].
    destruct (conversations s !! cid) as [o0|]; [|eauto].
    rewrite update_lookup. case_decide; [|eauto].
    destruct (heap s !! o) as [c|]; [|discriminate]. cbn. intros [= <-]. eauto. }
  destruct (String.eqb (toLowerCase a0) "help"); [intros [= <-]; eauto|discriminate].
Qed.

Lemma onStart_call_ok cm env event args (s : Store) o c' :
  heap (onStart_call cm env event args s).2 !! o = Some c' ->
  (exists c, heap s !! o = Some c /\ messages c' = messages c)
  /\ awaiting o (option_list (onStart_call cm env event args s).1) = 0.
Proof.
  unfold onStart_call.
  destruct (Config.getAIConfig cm) as [cfg|e]; [|cbn; eauto].
  destruct (negb (truthy (Config.apiKey cfg))); [cbn; eauto|].
  destruct (newOpenAI env (Config.apiKey cfg)) as [[]|e]; [|cbn; eauto].
  destruct (subcommand args (threadID event +:+ "_" +:+ senderID event)) as [helper|] eqn:Hsub.
  - cbn. intros H. split; [|reflexivity]. eapply helper_ok; eassumption.
  - cbv zeta. destruct (negb (nonempty (trim (join " " args)))); cbn; eauto.
Qed.

Lemma onReply_call_ok cm env event entry (s : Store) o c' :
  heap (onReply_call cm env event entry s).2 !! o = Some c' ->
  (exists c, heap s !! o = Some c /\ messages c' = messages c)
  /\ awaiting o (option_list (onReply_call cm env event entry s).1) = 0.
Proof.
  unfold onReply_call. cbv zeta.
  destruct (negb (String.eqb (senderID event) (author entry))); [cbn; eauto|].
  destruct (negb (nonempty (trim (body event)))); [cbn; eauto|].
  destruct (String.eqb (toLowerCase (trim (body event))) "clear"); [cbn; eauto|].
  destruct (Config.getAIConfig cm) as [cfg|e]; [|cbn; eauto].
  destruct (newOpenAI env (Config.apiKey cfg)) as [[]|e]; cbn; eauto.
Qed.

Lemma called_balanced n (st : Stretch) (p : Pool) :
  (forall s o c', heap (st s).2 !! o = Some c' ->
     (exists c, heap s !! o = Some c /\ messages c' = messages c)
     /\ awaiting o (option_list (st s).1) = 0) ->
  length (runs p) < n ->
  balanced n p -> balanced n (called st p).
Proof.
  intros Hst Hn [Hlen Hinv]. unfold called.
  destruct (st (store p)) as [a s'] eqn:Hrun. split.
  - cbn. rewrite length_app. destruct a; cbn; lia.
  - intros o c' Hc'. cbn in *.
    specialize (Hst (store p) o c'). rewrite Hrun in Hst. cbn in Hst.
    destruct (Hst Hc') as ((c & Hc & Hmsg) & Hw).
    rewrite awaiting_app, Hw, Hmsg. specialize (Hinv o c Hc). lia.
Qed.

Lemma resume_balanced n i env (p : Pool) :
  balanced n p -> balanced n (perform (Resume i env) p).
Proof.
  intros [Hlen Hinv]. cbn [perform].
  destruct (runs p !! i) as [a|] eqn:Ha; [|split; assumption].
  pose proof (resume_ok env a (store p)) as Hok.
  destruct (resume env a (store p)) as [a' s'] eqn:Hrun. cbn [fst snd] in Hok.
  pose proof (length_middle (runs p) i a Ha) as Hl.
  assert (Hlen' : length (take i (runs p) ++ option_list a' ++ drop (S i) (runs p)) <= n).
  { rewrite !length_app. destruct a'; cbn; lia. }
  split; [exact Hlen'|].
  intros o c' Hc'. cbn [store runs] in *.
  pose proof (awaiting_middle o (runs p) i a Ha) as Hmid.
  rewrite !awaiting_app.
  destruct (Hok o c' Hc') as [(c & Hc & Hmsg & Hw)|[(l & u & _ & Hmsg & _)|(c & t & Hc & _ & Hmsg & Hw & Hw')]].
  - specialize (Hinv o c Hc). rewrite Hmsg. lia.
  - rewrite Hmsg.
    pose proof (trimHistory_length (l ++ [u])).
    pose proof (awaiting_length o (take i (runs p) ++ option_list a' ++ drop (S i) (runs p))) as Hb.
    rewrite !awaiting_app in Hb. lia.
  - specialize (Hinv o c Hc). rewrite Hmsg, length_app. cbn [length]. lia.
Qed.

Lemma perform_balanced n l (p : Pool) :
  match l with
  | Call_onStart _ _ _ _ | Call_onReply _ _ _ _ => length (runs p) < n
  | Resume _ _ | Elsewhere _ => True
  end ->
  balanced n p -> balanced n (perform l p).
Proof.
  destruct l as [cm env event args|cm env event entry|i env|d]; intros Hn Hp.
  - apply called_balanced; [intros; apply onStart_call_ok; assumption|exact Hn|exact Hp].
  - apply called_balanced; [intros; apply onReply_call_ok; assumption|exact Hn|exact Hp].
  - apply resume_balanced, Hp.
  - exact Hp.
Qed.

Lemma run_balanced n ls (p : Pool) :
  overlap n ls p = true -> balanced n p -> balanced n (run ls p).
Proof.
  revert p. induction ls as [|l ls IH]; intros p Hov Hp; [exact Hp|].
  cbn [overlap] in Hov. apply andb_prop in Hov as [Hl Hov].
  cbn [run]. apply IH; [exact Hov|]. apply perform_balanced; [|exact Hp].
  destruct l; [apply Nat.ltb_lt, Hl|apply Nat.ltb_lt, Hl|exact I|exact I].
Qed.

Lemma start_balanced n d : balanced n (start d).
Proof. split; [cbn; lia|]. intros o c H. discriminate H. Qed.

Lemma overlap_bound n ls d o c :
  overlap n ls (start d) = true ->
  heap (store (run ls (start d))) !! o = Some c ->
  length (messages c) <= historyLimit + n.
Proof.
  intros Hov Hc. destruct (run_balanced n ls (start d) Hov (start_balanced n d)) as [_ H].
  specialize (H o c Hc). lia.
Qed.

Lemma perform_stretch (l : Label) (p : Pool) o c' :
  heap (store (perform l p)) !! o = Some c' ->
  exists w w', stretch_of (heap (store p)) o c' w w'.
Proof.
  destruct l as [cm env event args|cm env event entry|i env|d]; cbn [perform];
    [| | |intros Hc; exists 0, 0; left; eauto].
  - unfold called.
    pose proof (onStart_call_ok cm env event args (store p) o c') as H.
    destruct (onStart_call cm env event args (store p)) as [a s']. cbn in *.
    intros Hc. destruct (H Hc) as ((c & Hc0 & Hmsg) & _).
    exists 0, 0. left. eauto.
  - unfold called.
    pose proof (onReply_call_ok cm env event entry (store p) o c') as H.
    destruct (onReply_call cm env event entry (store p)) as [a s']. cbn in *.
    intros Hc. destruct (H Hc) as ((c & Hc0 & Hmsg) & _).
    exists 0, 0. left. eauto.
  - destruct (runs p !! i) as [a|] eqn:Ha.
    + pose proof (resume_ok env a (store p) o c') as H.
      destruct (resume env a (store p)) as [a' s']. cbn in *.
      intros Hc. eauto.
    + intros Hc. exists 0, 0. left. eauto.
Qed.

(** C1 (amended).  The history of a session is cut only right after the
    user's turn is appended, in the same stretch of the handler, and only when
    it then holds more than [historyLimit] = 20 turns: it is cut to its
    [historyKeep] = 10 most recent turns, the oldest being dropped.  Every
    stretch of [onStart] or [onReply] leaves the turns of a session object as
    they were, or appends the user's turn and cuts, or appends the
    assistant's turn, which is never followed by a cut.  The assistant's turn
    is appended after the awaited model call, and in between other
    invocations run: when at most [n] invocations overlap, a session holds at
    most 20 + [n] turns, so at most 21 when no two invocations overlap.
    Sixteen exchanges one after the other leave 21 turns; two overlapping
    invocations after nine exchanges leave 22. *)
Theorem history_bounded :
  (forall l : list Turn,
     trimHistory l `suffix_of` l
     /\ (historyLimit < length l ->
         trimHistory l = drop (length l - historyKeep) l
         /\ length (trimHistory l) = historyKeep)
     /\ (length l <= historyLimit -> trimHistory l = l))
  /\ (forall (l : list Turn) (u : Turn), length (trimHistory (l ++ [u])) <= historyLimit)
  /\ (forall (l : Label) (p : Pool) (o : nat) (c' : Conversation),
        heap (store (perform l p)) !! o = Some c' ->
        exists w w', stretch_of (heap (store p)) o c' w w')
  /\ (forall (n : nat) (ls : list Label) (d : Database.DatabaseManager Conversation)
             (o : nat) (c : Conversation),
        overlap n ls (start d) = true ->
        heap (store (run ls (start d))) !! o = Some c ->
        length (messages c) <= historyLimit + n)
  /\ (overlap 1 Scenario.sixteenAlone (start Scenario.noRedis) = true
      /\ turns (run Scenario.sixteenAlone (start Scenario.noRedis)) = [("7_100", Some 21)])
  /\ (overlap 2 Scenario.overlapping (start Scenario.noRedis) = true
      /\ turns (run Scenario.overlapping (start Scenario.noRedis)) = [("7_100", Some 22)]).
Proof.
  split; [|split; [|split; [|split; [|split]]]].
  - intros l. split; [apply trimHistory_suffix|].
    split; [apply trimHistory_over | apply trimHistory_under].
  - intros l u. apply trimHistory_length.
  - apply perform_stretch.
  - apply overlap_bound.
  - split; vm_compute; reflexivity.
  - split; vm_compute; reflexivity.
Qed.

(** The bound at work on the overlapping invocations: no session object has
    more than 22 turns. *)
Lemma history_bounded_witness :
  Forall (fun c => length (messages c) <= 22)
    (heap (store (run Scenario.overlapping (start Scenario.noRedis)))).
Proof.
  apply Forall_lookup_2. intros o c Hc.
  apply (proj1 (proj2 (proj2 (proj2 history_bounded))) 2 Scenario.overlapping Scenario.noRedis o c);
    [vm_compute; reflexivity|exact Hc].
Defined.

End AsyncFacts.

(** ** Paths through [onReply] and [onStart] *)

Module AiPaths.
Import Transport Logic Rules Ai AiFacts.

(** C10.  A reply whose sender is not the author recorded in the pending
    continuation makes [onReply] return at once: the store is left exactly as
    it was, so nothing was sent, no conversation state was read (neither the
    map nor the mirrored cache) and none was modified. *)
Theorem onReply_ignores_other_senders (cm : Config.ConfigManager) (env : Env)
  (event : Event) (Reply : ReplyEntry) (w : World) :
  senderID event <> author Reply ->
  onReply cm env event Reply w = (Ret tt, w).
Proof.
  intros Hne. apply String.eqb_neq in Hne.
  unfold onReply, onReply_try. rewrite Hne. reflexivity.
Qed.

Lemma onReply_ignores_other_senders_witness :
  onReply Scenario.config Scenario.answering Scenario.hello
    {| commandName := "ai"; reply_messageID := "m1"; author := "200";
       conversationId := "7_200" |}
    (Scenario.exchanges 1)
  = (Ret tt, Scenario.exchanges 1).
Proof.
  apply onReply_ignores_other_senders. simpl. discriminate.
Defined.

(** Symbolic execution along one path: a test or an answer that a
    hypothesis settles is rewritten with it, any other is split. *)
Ltac settle_with_hyp x :=
  match goal with
  | H : x = _ |- _ => rewrite H; cbv beta iota
  end.

Ltac case_known x :=
  lazymatch x with
  | match ?y with _ => _ end => case_known y
  | negb ?y => case_known y
  | subcommand _ _ _ => first [ settle_with_hyp x | unfold subcommand ]
  | _ => first [ settle_with_hyp x | destruct x eqn:? ]
  end.

Ltac wp_go :=
  lazymatch goal with
  | |- wp (lift ?o) _ _ _ =>
      apply wp_lift; first [ settle_with_hyp o | destruct o eqn:? ]
  | |- wp (match ?x with _ => _ end) _ _ _ =>
      first [ progress (cbn [negb]; cbv beta iota) | case_known x; cbn [negb] ]
  | |- wp (zoom_db ?m) _ _ _ =>
      let o := fresh "o" in
      let d := fresh "d" in
      let Hm := fresh "Hm" in
      apply wp_zoom_db; intros o d Hm;
      cbn [conversations GoatBot_onReply db trace] in Hm;
      try match goal with
          | H : m _ = _ |- _ => rewrite H in Hm; injection Hm as <- <-
          end;
      norm_world
  | _ => wp_step
  end.

Lemma lookup_hit (cid : string) (c : Conversation) (w : World) :
  conversations w !! cid = Some c ->
  lookupConversation cid w = (Ret (Some c), traced [EConvGet cid] w).
Proof.
  intros Hc. apply wp_equation. unfold lookupConversation.
  repeat wp_go. reflexivity.
Qed.

Lemma lookup_mirror (cid : string) (w : World) :
  conversations w !! cid = None ->
  exists d,
    Database.cacheGet (mirrorKey cid) (db w) = (Ret (mirrored cid w), d)
    /\ lookupConversation cid w
       = (Ret (mirrored cid w),
          match mirrored cid w with
          | Some c =>
              traced [EConvGet cid; ECacheGet (mirrorKey cid); EConvSet cid]
                (set_conversations (insert cid c) (set_db d w))
          | None => traced [EConvGet cid; ECacheGet (mirrorKey cid)] (set_db d w)
          end).
Proof.
  intros Hc. unfold mirrored.
  destruct (DatabaseFacts.cacheGet_returns (mirrorKey cid) (db w)) as (r & d & Hget & _).
  exists d. rewrite Hget. cbn [fst]. split; [reflexivity|].
  apply wp_equation. unfold lookupConversation. fold (mirrorKey cid).
  repeat wp_go; unfold traced; cbn; rewrite <- ?app_assoc; reflexivity.
Qed.

(** C7.  The lookup of [onReply] reads the in-memory map first and, on a
    hit, returns the session without reading the mirrored cache.  On a miss it
    reads the cache under the session's key: a session found there is put
    back into the map and returned; when the cache has none either, the lookup
    returns nothing, and [onReply] answers "conversation not found" without
    calling the language model and without touching any session. *)
Theorem lookup_memory_then_mirror (cid : string) (w : World) :
  (forall c, conversations w !! cid = Some c ->
     lookupConversation cid w = (Ret (Some c), traced [EConvGet cid] w))
  /\ (conversations w !! cid = None ->
      exists d,
        Database.cacheGet (mirrorKey cid) (db w) = (Ret (mirrored cid w), d)
        /\ lookupConversation cid w
           = (Ret (mirrored cid w),
              match mirrored cid w with
              | Some c =>
                  traced [EConvGet cid; ECacheGet (mirrorKey cid); EConvSet cid]
                    (set_conversations (insert cid c) (set_db d w))
              | None => traced [EConvGet cid; ECacheGet (mirrorKey cid)] (set_db d w)
              end))
  /\ (forall cm env event Reply cfg,
        conversationId Reply = cid ->
        senderID event = author Reply ->
        nonempty (trim (body event)) = true ->
        String.eqb (toLowerCase (trim (body event))) "clear" = false ->
        Config.getAIConfig cm = Ret cfg ->
        newOpenAI env (Config.apiKey cfg) = Ret tt ->
        sendTypingIndicator env (threadID event) = Ret tt ->
        conversations w !! cid = None ->
        mirrored cid w = None ->
        exists d,
          Database.redis d = Database.redis (db w)
          /\ onReply cm env event Reply w
             = (match reply env msgNotFound with Ret _ => Ret tt | Throw e => Throw e end,
                traced [ENewClient (Config.apiKey cfg); ETyping (threadID event);
                        EConvGet cid; ECacheGet (mirrorKey cid); EReply msgNotFound]
                       (set_db d w))).
Proof.
  split; [|split].
  - intros c. apply lookup_hit.
  - apply lookup_mirror.
  - intros cm env event Reply cfg <- Hsender Hinput Hclear Hcfg Hclient Htyping Hmiss Hmirror.
    destruct (DatabaseFacts.cacheGet_returns (mirrorKey (conversationId Reply)) (db w))
      as (r & d & Hget & Hredis).
    assert (r = None) as ->.
    { unfold mirrored in Hmirror. rewrite Hget in Hmirror. exact Hmirror. }
    exists d. split; [exact Hredis|].
    assert (Hsame : String.eqb (senderID event) (author Reply) = true)
      by (apply String.eqb_eq, Hsender).
    unfold mirrorKey in *.
    apply wp_equation. unfold onReply, onReply_try.
    rewrite Hsame, Hinput, Hclear. cbv beta iota zeta. cbn [negb].
    repeat wp_go; unfold traced; cbn; rewrite <- ?app_assoc; reflexivity.
Qed.

(** The three cases at work: a hit in the map after one exchange, a hit in
    the mirrored cache after a restart, and a reply to a continuation whose
    session is in neither. *)
Lemma lookup_memory_then_mirror_witness :
  (exists c,
     lookupConversation "7_100" (Scenario.exchanges 1)
     = (Ret (Some c), traced [EConvGet "7_100"] (Scenario.exchanges 1)))
  /\ (exists w',
        lookupConversation "7_100" Scenario.restarted = (Ret (Some Scenario.cachedSession), w')
        /\ conversations w' !! "7_100" = Some Scenario.cachedSession)
  /\ (exists d,
        onReply Scenario.config Scenario.answering Scenario.followUp Scenario.continuation
          (initial Scenario.noRedis)
        = (Ret tt,
           traced [ENewClient (Some "sk-test"); ETyping "7"; EConvGet "7_100";
                   ECacheGet "ai_conversation_7_100"; EReply msgNotFound]
                  (set_db d (initial Scenario.noRedis)))).
Proof.
  split; [|split].
  - eexists.
    apply (proj1 (lookup_memory_then_mirror "7_100" (Scenario.exchanges 1))).
    vm_compute. reflexivity.
  - destruct (proj1 (proj2 (lookup_memory_then_mirror "7_100" Scenario.restarted)))
      as (d & _ & Hrun); [vm_compute; reflexivity|].
    eexists. split; [exact Hrun|]. vm_compute. reflexivity.
  - destruct (proj2 (proj2 (lookup_memory_then_mirror "7_100" (initial Scenario.noRedis)))
                Scenario.config Scenario.answering Scenario.followUp Scenario.continuation
                {| Config.apiKey := Some "sk-test"; Config.model := None |})
      as (d & _ & Hrun); try (vm_compute; reflexivity).
    exists d. exact Hrun.
Defined.

End AiPaths.

(** ** BotManager: dispatch *)

Module BotFacts.
Import Transport Logic Rules Bot.

Lemma wp_call_check {Collab A} (m : Eff Collab A) Q E (bm : BotManager Collab) :
  (forall o c, m (collab bm) = (o, c) ->
     match o with
     | Ret a => Q a (set_collab c bm)
     | Throw e => E e (set_collab c bm)
     end) ->
  wp (call_check m) Q E bm.
Proof.
  intros H. unfold wp, call_check. destruct (m (collab bm)) as [o c] eqn:Hm.
  specialize (H o c eq_refl). destruct o; exact H.
Qed.

Lemma wp_call_handler {Collab} (h : Collab -> Outcome unit * list Outbound * Collab)
  Q E (bm : BotManager Collab) :
  (forall o out c, h (collab bm) = (o, out, c) ->
     match o with
     | Ret a => Q a (set_trace (trace bm ++ map OOut out) (set_collab c bm))
     | Throw e => E e (set_trace (trace bm ++ map OOut out) (set_collab c bm))
     end) ->
  wp (call_handler h) Q E bm.
Proof.
  intros H. unfold wp, call_handler. destruct (h (collab bm)) as [[o out] c] eqn:Hm.
  specialize (H o out c eq_refl). destruct o; exact H.
Qed.

Ltac bot_norm :=
  cbv beta iota;
  cbn [securityManager rateLimiter facebookAPI commandManager eventManager messageHandler
       isRunning botInfo startTime stats trace collab
       set_securityManager set_rateLimiter set_facebookAPI set_commandManager
       set_eventManager set_messageHandler set_isRunning set_botInfo set_startTime
       set_stats set_trace set_collab
       messagesProcessed commandsExecuted errors uptime].

Ltac bot_norm_in H :=
  cbv beta iota in H;
  cbn [securityManager rateLimiter facebookAPI commandManager eventManager messageHandler
       isRunning botInfo startTime stats trace collab
       set_securityManager set_rateLimiter set_facebookAPI set_commandManager
       set_eventManager set_messageHandler set_isRunning set_botInfo set_startTime
       set_stats set_trace set_collab
       messagesProcessed commandsExecuted errors uptime] in H.

(** A test or an answer that a hypothesis settles is rewritten with it. *)
Ltac known x :=
  match goal with
  | H : x = _ |- _ => rewrite H; cbv beta iota
  end.

Ltac known_in Hm :=
  match type of Hm with
  | ?l = _ =>
      match goal with
      | H : l = _ |- _ =>
          lazymatch H with
          | Hm => fail
          | _ => rewrite H in Hm; inversion Hm; subst; clear Hm
          end
      end
  end.

Ltac case_bot x :=
  lazymatch x with
  | match ?y with _ => _ end => case_bot y
  | negb ?y => case_bot y
  | _ => first [ known x | destruct x eqn:? ]
  end.

(** One step of symbolic execution of a computation of the manager. *)
Ltac bot_step :=
  lazymatch goal with
  | |- wp (call_check _) _ _ _ =>
      let o := fresh "o" in
      let c := fresh "c" in
      let Hm := fresh "Hm" in
      apply wp_call_check; intros o c Hm; bot_norm_in Hm;
      first [ known_in Hm | destruct o as [[|]|] ]; bot_norm
  | |- wp (call_handler _) _ _ _ =>
      let o := fresh "o" in
      let out := fresh "out" in
      let c := fresh "c" in
      let Hm := fresh "Hm" in
      apply wp_call_handler; intros o out c Hm; bot_norm_in Hm;
      first [ known_in Hm | destruct o as [[]|] ]; bot_norm
  | |- wp (lift ?o) _ _ _ => apply wp_lift; first [ known o | destruct o eqn:? ]
  | |- wp (match ?x with _ => _ end) _ _ _ =>
      first [ progress (cbn [negb]; cbv beta iota) | case_bot x; cbn [negb] ]
  | _ => wp_core bot_norm
  end.

Section Dispatch.
Context {Collab : Type} (co : Collaborators Collab).

(** The listeners return, whatever happens below them. *)
Lemma onMessage_returns message (bm : BotManager Collab) :
  fst (onMessage co message bm) = Ret tt.
Proof.
  apply (wp_outcome (onMessage co message) (fun o _ => o = Ret tt)).
  unfold onMessage. repeat bot_step; reflexivity.
Qed.

Lemma onEvent_returns event (bm : BotManager Collab) :
  fst (onEvent co event bm) = Ret tt.
Proof.
  apply (wp_outcome (onEvent co event) (fun o _ => o = Ret tt)).
  unfold onEvent. repeat bot_step; reflexivity.
Qed.

Lemma onReaction_returns reaction (bm : BotManager Collab) :
  fst (onReaction co reaction bm) = Ret tt.
Proof.
  apply (wp_outcome (onReaction co reaction) (fun o _ => o = Ret tt)).
  unfold onReaction. repeat bot_step; reflexivity.
Qed.

Ltac finish_run :=
  unfold settled; bot_norm; rewrite <- ?app_assoc; reflexivity.

Lemma handleMessage_security_denied message (bm : BotManager Collab) c1 :
  securityManager bm = true ->
  checkMessage co message (collab bm) = (Ret false, c1) ->
  handleMessage co message bm
  = (Ret tt,
     settled 1 0 [OCheckMessage message; OLog KSecurity (blockedLine message) None] c1 bm).
Proof.
  intros Hsec Hcheck. apply wp_equation. unfold handleMessage.
  repeat bot_step. finish_run.
Qed.

Lemma handleMessage_rate_denied message (bm : BotManager Collab) c1 c2 :
  securityManager bm = true ->
  rateLimiter bm = true ->
  checkMessage co message (collab bm) = (Ret true, c1) ->
  checkLimit co (senderID message) c1 = (Ret false, c2) ->
  handleMessage co message bm
  = (Ret tt,
     settled 1 0 [OCheckMessage message; OCheckLimit (senderID message);
                  OLog KSecurity (rateLimitedLine message) None] c2 bm).
Proof.
  intros Hsec Hrate Hcheck Hlimit. apply wp_equation. unfold handleMessage.
  repeat bot_step. finish_run.
Qed.

Lemma handleMessage_fault message (bm : BotManager Collab) c1 c2 e out c3 :
  securityManager bm = true ->
  rateLimiter bm = true ->
  messageHandler bm = true ->
  checkMessage co message (collab bm) = (Ret true, c1) ->
  checkLimit co (senderID message) c1 = (Ret true, c2) ->
  handle co message c2 = (Throw e, out, c3) ->
  handleMessage co message bm
  = (Ret tt,
     settled 1 1 ([OCheckMessage message; OCheckLimit (senderID message); OHandle message]
                  ++ map OOut out
                  ++ [OLog KError "Error in message handler:" (Some e)]) c3 bm).
Proof.
  intros Hsec Hrate Hhandler Hcheck Hlimit Hhandle. apply wp_equation. unfold handleMessage.
  repeat bot_step. finish_run.
Qed.

Lemma handleMessage_returns message (bm : BotManager Collab) :
  fst (handleMessage co message bm) = Ret tt.
Proof.
  apply (wp_outcome (handleMessage co message) (fun o _ => o = Ret tt)).
  unfold handleMessage. repeat bot_step; reflexivity.
Qed.

Lemma onMessage_handleMessage message (bm : BotManager Collab) :
  onMessage co message bm = handleMessage co message bm.
Proof.
  pose proof (handleMessage_returns message bm) as H.
  unfold onMessage, try_catch. destruct (handleMessage co message bm) as [[[]|e] bm'].
  - reflexivity.
  - discriminate H.
Qed.

Lemma handleEvent_fault event (bm : BotManager Collab) e out c :
  eventManager bm = true ->
  handleEvent_ co event (collab bm) = (Throw e, out, c) ->
  onEvent co event bm
  = (Ret tt,
     settled 0 1 ([OHandleEvent event] ++ map OOut out
                  ++ [OLog KError "Error in event handler:" (Some e)]) c bm).
Proof.
  intros Hmgr Hhandle. apply wp_equation. unfold onEvent, handleEvent.
  repeat bot_step. finish_run.
Qed.

Lemma handleReaction_fault reaction (bm : BotManager Collab) e out c :
  messageHandler bm = true ->
  handleReaction_ co reaction (collab bm) = (Throw e, out, c) ->
  onReaction co reaction bm
  = (Ret tt,
     settled 0 1 ([OHandleReaction reaction] ++ map OOut out
                  ++ [OLog KError "Error in reaction handler:" (Some e)]) c bm).
Proof.
  intros Hmgr Hhandle. apply wp_equation. unfold onReaction, handleReaction.
  repeat bot_step. finish_run.
Qed.

(** The security check is the first call of a dispatch, and the rate limiter
    is asked only after the security check returned [true]. *)
Lemma security_first message (bm : BotManager Collab) :
  securityManager bm = true ->
  exists rest,
    trace (snd (onMessage co message bm)) = trace bm ++ OCheckMessage message :: rest
    /\ forall sender, OCheckLimit sender ∈ rest ->
                      exists c1, checkMessage co message (collab bm) = (Ret true, c1).
Proof.
  intros Hsec. rewrite onMessage_handleMessage.
  apply (wp_snd (handleMessage co message)
           (fun bm' => exists rest,
              trace bm' = trace bm ++ OCheckMessage message :: rest
              /\ forall sender, OCheckLimit sender ∈ rest ->
                                exists c1, checkMessage co message (collab bm) = (Ret true, c1))).
  unfold handleMessage. repeat bot_step.
  all: bot_norm; rewrite <- ?app_assoc; cbn [app]; eexists; (split; [reflexivity|]).
  all: eauto.
  all: intros sender Hin; repeat (apply elem_of_cons in Hin as [Hin|Hin]; [discriminate Hin|]).
  all: inversion Hin.
Qed.



Lemma settled_outbound (t : list Obs) p f c (bm : BotManager Collab) :
  outbound (trace (settled p f t c bm)) = outbound (trace bm) ++ outbound t.
Proof. unfold settled, outbound. bot_norm. apply omap_app. Qed.

Lemma settled_handled (t : list Obs) p f c (bm : BotManager Collab) :
  handled (trace (settled p f t c bm)) = handled (trace bm) ++ handled t.
Proof. unfold settled, handled. bot_norm. apply omap_app. Qed.

(** C3.  For every inbound message the security check is the first call of
    the dispatch and the rate limiter is asked only after it returned
    [true].  When the security check returns [false] the rate limiter is
    not even asked; when either returns [false] the dispatch ends after one
    security log line: the message handler is not invoked and no outbound
    call is made. *)
Theorem blocked_message_is_not_handled message (bm : BotManager Collab) :
  securityManager bm = true ->
  (exists rest,
     trace (snd (onMessage co message bm)) = trace bm ++ OCheckMessage message :: rest
     /\ forall sender, OCheckLimit sender ∈ rest ->
                       exists c1, checkMessage co message (collab bm) = (Ret true, c1))
  /\ (forall c1,
        checkMessage co message (collab bm) = (Ret false, c1) ->
        fst (onMessage co message bm) = Ret tt
        /\ trace (snd (onMessage co message bm))
           = trace bm ++ [OCheckMessage message; OLog KSecurity (blockedLine message) None]
        /\ handled (trace (snd (onMessage co message bm))) = handled (trace bm)
        /\ outbound (trace (snd (onMessage co message bm))) = outbound (trace bm))
  /\ (rateLimiter bm = true ->
      forall c1 c2,
        checkMessage co message (collab bm) = (Ret true, c1) ->
        checkLimit co (senderID message) c1 = (Ret false, c2) ->
        fst (onMessage co message bm) = Ret tt
        /\ trace (snd (onMessage co message bm))
           = trace bm ++ [OCheckMessage message; OCheckLimit (senderID message);
                          OLog KSecurity (rateLimitedLine message) None]
        /\ handled (trace (snd (onMessage co message bm))) = handled (trace bm)
        /\ outbound (trace (snd (onMessage co message bm))) = outbound (trace bm)).
Proof.
  intros Hsec. split; [apply security_first, Hsec|]. split.
  - intros c1 Hcheck. rewrite onMessage_handleMessage.
    rewrite (handleMessage_security_denied message bm c1 Hsec Hcheck). cbn [fst snd].
    rewrite settled_handled, settled_outbound. cbn. rewrite !app_nil_r. auto.
  - intros Hrate c1 c2 Hcheck Hlimit. rewrite onMessage_handleMessage.
    rewrite (handleMessage_rate_denied message bm c1 c2 Hsec Hrate Hcheck Hlimit). cbn [fst snd].
    rewrite settled_handled, settled_outbound. cbn. rewrite !app_nil_r. auto.
Qed.

(** C4 (amended).  A message denied by the security check or by the rate
    limiter is counted in [messagesProcessed], which is incremented on entry
    before either check; [commandsExecuted], [errors] and [uptime] are as
    before, exactly one line is logged, a security line, and no other field
    of the manager changes. *)
Theorem blocked_message_counts_as_processed message (bm : BotManager Collab) c :
  securityManager bm = true ->
  rateLimiter bm = true ->
  (checkMessage co message (collab bm) = (Ret false, c)
   \/ exists c1, checkMessage co message (collab bm) = (Ret true, c1)
                 /\ checkLimit co (senderID message) c1 = (Ret false, c)) ->
  exists line t,
    onMessage co message bm = (Ret tt, settled 1 0 t c bm)
    /\ logged t = [(KSecurity, line, None)]
    /\ (line = blockedLine message \/ line = rateLimitedLine message)
    /\ messagesProcessed (stats (snd (onMessage co message bm)))
       = S (messagesProcessed (stats bm))
    /\ commandsExecuted (stats (snd (onMessage co message bm))) = commandsExecuted (stats bm)
    /\ errors (stats (snd (onMessage co message bm))) = errors (stats bm)
    /\ uptime (stats (snd (onMessage co message bm))) = uptime (stats bm).
Proof.
  intros Hsec Hrate [Hcheck | (c1 & Hcheck & Hlimit)]; rewrite onMessage_handleMessage.
  - rewrite (handleMessage_security_denied message bm c Hsec Hcheck).
    exists (blockedLine message). eexists. split; [reflexivity|]. cbn. auto 10.
  - rewrite (handleMessage_rate_denied message bm c1 c Hsec Hrate Hcheck Hlimit).
    exists (rateLimitedLine message). eexists. split; [reflexivity|]. cbn. auto 10.
Qed.

(** C5.  The listeners on the three channels of the stream return normally
    for every notification and in every state.  When the handler of a
    message, of an event or of a reaction throws, the error is caught at the
    dispatch boundary: it is logged and [errors] is incremented, once. *)
Theorem handler_fault_is_contained :
  (forall message (bm : BotManager Collab), fst (onMessage co message bm) = Ret tt)
  /\ (forall event (bm : BotManager Collab), fst (onEvent co event bm) = Ret tt)
  /\ (forall reaction (bm : BotManager Collab), fst (onReaction co reaction bm) = Ret tt)
  /\ (forall message (bm : BotManager Collab) c1 c2 e out c3,
        securityManager bm = true ->
        rateLimiter bm = true ->
        messageHandler bm = true ->
        checkMessage co message (collab bm) = (Ret true, c1) ->
        checkLimit co (senderID message) c1 = (Ret true, c2) ->
        handle co message c2 = (Throw e, out, c3) ->
        onMessage co message bm
        = (Ret tt,
           settled 1 1 ([OCheckMessage message; OCheckLimit (senderID message); OHandle message]
                        ++ map OOut out
                        ++ [OLog KError "Error in message handler:" (Some e)]) c3 bm)
        /\ errors (stats (snd (onMessage co message bm))) = S (errors (stats bm)))
  /\ (forall event (bm : BotManager Collab) e out c,
        eventManager bm = true ->
        handleEvent_ co event (collab bm) = (Throw e, out, c) ->
        onEvent co event bm
        = (Ret tt,
           settled 0 1 ([OHandleEvent event] ++ map OOut out
                        ++ [OLog KError "Error in event handler:" (Some e)]) c bm)
        /\ errors (stats (snd (onEvent co event bm))) = S (errors (stats bm)))
  /\ (forall reaction (bm : BotManager Collab) e out c,
        messageHandler bm = true ->
        handleReaction_ co reaction (collab bm) = (Throw e, out, c) ->
        onReaction co reaction bm
        = (Ret tt,
           settled 0 1 ([OHandleReaction reaction] ++ map OOut out
                        ++ [OLog KError "Error in reaction handler:" (Some e)]) c bm)
        /\ errors (stats (snd (onReaction co reaction bm))) = S (errors (stats bm))).
Proof.
  split; [exact onMessage_returns|]. split; [exact onEvent_returns|].
  split; [exact onReaction_returns|]. split; [|split].
  - intros message bm c1 c2 e out c3 Hsec Hrate Hhandler Hcheck Hlimit Hhandle.
    rewrite onMessage_handleMessage.
    rewrite (handleMessage_fault message bm c1 c2 e out c3 Hsec Hrate Hhandler Hcheck Hlimit Hhandle).
    split; reflexivity.
  - intros event bm e out c Hmgr Hhandle.
    rewrite (handleEvent_fault event bm e out c Hmgr Hhandle). split; reflexivity.
  - intros reaction bm e out c Hmgr Hhandle.
    rewrite (handleReaction_fault reaction bm e out c Hmgr Hhandle). split; reflexivity.
Qed.

End Dispatch.

(** C3 at work: a blocking security manager, then a throttling rate
    limiter, in front of a handler that would answer "pong". *)
Lemma blocked_message_is_not_handled_witness :
  (trace (snd (onMessage Scenario.blocking Scenario.hello (Scenario.started tt)))
   = trace (Scenario.started tt)
     ++ [OCheckMessage Scenario.hello; OLog KSecurity "Message blocked by security check: 100" None]
   /\ outbound (trace (snd (onMessage Scenario.blocking Scenario.hello (Scenario.started tt))))
      = outbound (trace (Scenario.started tt)))
  /\ (trace (snd (onMessage Scenario.throttling Scenario.hello (Scenario.started tt)))
      = trace (Scenario.started tt)
        ++ [OCheckMessage Scenario.hello; OCheckLimit "100";
            OLog KSecurity "Rate limit exceeded for user: 100" None]
      /\ outbound (trace (snd (onMessage Scenario.throttling Scenario.hello (Scenario.started tt))))
         = outbound (trace (Scenario.started tt))).
Proof.
  split.
  - destruct (blocked_message_is_not_handled Scenario.blocking Scenario.hello
                (Scenario.started tt) eq_refl) as (_ & Hdeny & _).
    destruct (Hdeny tt eq_refl) as (_ & Htrace & _ & Hout). split; [exact Htrace | exact Hout].
  - destruct (blocked_message_is_not_handled Scenario.throttling Scenario.hello
                (Scenario.started tt) eq_refl) as (_ & _ & Hlimit).
    destruct (Hlimit eq_refl tt tt eq_refl eq_refl) as (_ & Htrace & _ & Hout).
    split; [exact Htrace | exact Hout].
Defined.

Lemma blocked_message_counts_as_processed_witness :
  messagesProcessed (stats (snd (onMessage Scenario.blocking Scenario.hello (Scenario.started tt))))
  = 1
  /\ errors (stats (snd (onMessage Scenario.blocking Scenario.hello (Scenario.started tt)))) = 0
  /\ commandsExecuted
       (stats (snd (onMessage Scenario.blocking Scenario.hello (Scenario.started tt)))) = 0.
Proof.
  destruct (blocked_message_counts_as_processed Scenario.blocking Scenario.hello
              (Scenario.started tt) tt eq_refl eq_refl (or_introl eq_refl))
    as (line & t & _ & _ & _ & Hprocessed & Hexecuted & Herrors & _).
  split; [exact Hprocessed|]. split; [exact Herrors | exact Hexecuted].
Defined.

(** C4, as stated, fails: the message blocked by the security check is
    counted in [messagesProcessed]. *)
Lemma blocked_message_is_counted :
  messagesProcessed (stats (Scenario.started tt)) = 0
  /\ messagesProcessed
       (stats (snd (onMessage Scenario.blocking Scenario.hello (Scenario.started tt)))) = 1
  /\ logged (trace (snd (onMessage Scenario.blocking Scenario.hello (Scenario.started tt))))
     = logged (trace (Scenario.started tt))
       ++ [(KSecurity, "Message blocked by security check: 100", None)].
Proof. vm_compute. auto. Qed.

Lemma handler_fault_is_contained_witness :
  (onMessage Scenario.faulty Scenario.hello (Scenario.started tt)
   = (Ret tt,
      settled 1 1 [OCheckMessage Scenario.hello; OCheckLimit "100"; OHandle Scenario.hello;
                   OOut (Reply "m0" "working on it");
                   OLog KError "Error in message handler:" (Some Scenario.boom)]
        tt (Scenario.started tt))
   /\ errors (stats (snd (onMessage Scenario.faulty Scenario.hello (Scenario.started tt)))) = 1)
  /\ errors (stats (snd (onEvent Scenario.faulty Scenario.presence (Scenario.started tt)))) = 1
  /\ errors (stats (snd (onReaction Scenario.faulty Scenario.thumbsUp (Scenario.started tt)))) = 1.
Proof.
  destruct (handler_fault_is_contained Scenario.faulty) as (_ & _ & _ & Hmsg & Hevent & Hreaction).
  split; [|split].
  - exact (Hmsg Scenario.hello (Scenario.started tt) tt tt Scenario.boom
             [Reply "m0" "working on it"] tt eq_refl eq_refl eq_refl eq_refl eq_refl eq_refl).
  - exact (proj2 (Hevent Scenario.presence (Scenario.started tt) Scenario.boom [] tt
                    eq_refl eq_refl)).
  - exact (proj2 (Hreaction Scenario.thumbsUp (Scenario.started tt) Scenario.boom [] tt
                    eq_refl eq_refl)).
Defined.

(** ** BotManager: life cycle and readiness *)

Section LifeCycle.
Context {Collab : Type} (co : Collaborators Collab).

Ltac solve_wired :=
  unfold wired in *; bot_norm;
  try match goal with |- _ /\ _ => split end;
  first [ reflexivity | assumption | discriminate
        | intros; first [ assumption | discriminate | congruence | tauto ] ].

Lemma initialize_wired o (bm : BotManager Collab) :
  wired bm -> wired (snd (initialize o bm)).
Proof.
  intros Hw. apply wp_snd. unfold initialize.
  repeat bot_step; solve_wired.
Qed.

Lemma start_wired o (bm : BotManager Collab) :
  wired bm -> wired (snd (start o bm)).
Proof.
  intros Hw. apply wp_snd. unfold start.
  repeat bot_step; solve_wired.
Qed.

Lemma stop_wired o (bm : BotManager Collab) :
  wired bm -> wired (snd (stop o bm)).
Proof.
  intros Hw. apply wp_snd. unfold stop.
  repeat bot_step; solve_wired.
Qed.

Lemma linkChange_wired up (bm : BotManager Collab) :
  wired bm -> wired (linkChange up bm).
Proof.
  unfold wired, linkChange. destruct (facebookAPI bm) eqn:Hapi; bot_norm; [discriminate|].
  rewrite Hapi. auto.
Qed.

Lemma onMessage_wiring message (bm : BotManager Collab) :
  isRunning (snd (onMessage co message bm)) = isRunning bm
  /\ facebookAPI (snd (onMessage co message bm)) = facebookAPI bm.
Proof.
  apply (wp_snd (onMessage co message)
           (fun bm' => isRunning bm' = isRunning bm /\ facebookAPI bm' = facebookAPI bm)).
  unfold onMessage. repeat bot_step; bot_norm; split; reflexivity.
Qed.

Lemma onEvent_wiring event (bm : BotManager Collab) :
  isRunning (snd (onEvent co event bm)) = isRunning bm
  /\ facebookAPI (snd (onEvent co event bm)) = facebookAPI bm.
Proof.
  apply (wp_snd (onEvent co event)
           (fun bm' => isRunning bm' = isRunning bm /\ facebookAPI bm' = facebookAPI bm)).
  unfold onEvent. repeat bot_step; bot_norm; split; reflexivity.
Qed.

Lemma onReaction_wiring reaction (bm : BotManager Collab) :
  isRunning (snd (onReaction co reaction bm)) = isRunning bm
  /\ facebookAPI (snd (onReaction co reaction bm)) = facebookAPI bm.
Proof.
  apply (wp_snd (onReaction co reaction)
           (fun bm' => isRunning bm' = isRunning bm /\ facebookAPI bm' = facebookAPI bm)).
  unfold onReaction. repeat bot_step; bot_norm; split; reflexivity.
Qed.

Lemma step_wired (bm bm' : BotManager Collab) :
  step co bm bm' -> wired bm -> wired bm'.
Proof.
  intros Hstep Hw. destruct Hstep.
  - apply initialize_wired, Hw.
  - apply start_wired, Hw.
  - apply stop_wired, Hw.
  - apply linkChange_wired, Hw.
  - exact Hw.
  - unfold wired. destruct (onMessage_wiring m bm) as [-> ->]. exact Hw.
  - unfold wired. destruct (onEvent_wiring e bm) as [-> ->]. exact Hw.
  - unfold wired. destruct (onReaction_wiring r bm) as [-> ->]. exact Hw.
Qed.

Lemma reachable_wired (bm : BotManager Collab) : reachable co bm -> wired bm.
Proof.
  induction 1 as [now c | bm bm' _ IH Hstep].
  - unfold wired. cbn. discriminate.
  - exact (step_wired bm bm' Hstep IH).
Qed.

(** C9.  In every state the manager can get to from its construction (by
    [initialize], [start], [stop], changes of the link, statistics updates
    and dispatches, each ending normally or with an error) [isReady()]
    returns a boolean, which is [true] exactly when the bot is running and
    the transport is connected. *)
Theorem isReady_is_boolean (bm : BotManager Collab) :
  reachable co bm ->
  isReady bm = JBool (isRunning bm && transportConnected bm).
Proof.
  intros Hreach. pose proof (reachable_wired bm Hreach) as Hw.
  unfold isReady, transportConnected, wired in *.
  destruct (isRunning bm); [|reflexivity].
  destruct (facebookAPI bm); [reflexivity|].
  exfalso. apply Hw; reflexivity.
Qed.

End LifeCycle.

Lemma isReady_is_boolean_witness :
  isReady (Scenario.started tt) = JBool true
  /\ isReady (linkChange false (Scenario.started tt)) = JBool false.
Proof.
  split.
  - apply (isReady_is_boolean Scenario.blocking (Scenario.started tt)).
    unfold Scenario.started.
    apply reachable_step with (bm := snd (initialize Scenario.initOk (construct 0 tt))).
    + apply reachable_step with (bm := construct 0 tt).
      * apply reachable_new.
      * apply step_initialize.
    + apply step_start.
  - apply (isReady_is_boolean Scenario.blocking (linkChange false (Scenario.started tt))).
    apply reachable_step with (bm := Scenario.started tt); [|apply step_link].
    apply reachable_step with (bm := snd (initialize Scenario.initOk (construct 0 tt))).
    + apply reachable_step with (bm := construct 0 tt).
      * apply reachable_new.
      * apply step_initialize.
    + apply step_start.
Defined.

(** Outside the reachable states the conjunction can yield [null]: a manager
    marked as running without a transport client. *)
Remark isReady_null_unwired :
  isReady (set_isRunning true (construct 0 tt)) = JNull.
Proof. reflexivity. Qed.

End BotFacts.

(** ** A failed model call *)

Module AiFailures.
Import Transport Logic Rules Ai AiFacts AiPaths.
Import BotFacts.







End AiFailures.

(** ** The rate limiter *)

Module RateLimiterFacts.
Import Logic RateLimiter.

Lemma times_of_app identity (a b : list (string * Z)) :
  times_of identity (a ++ b) = times_of identity a ++ times_of identity b.
Proof. unfold times_of. rewrite filter_app, map_app. reflexivity. Qed.

Lemma times_of_one identity i (t : Z) :
  times_of identity [(i, t)] = if decide (i = identity) then [t] else [].
Proof.
  unfold times_of. rewrite filter_cons. cbn [fst]. destruct (decide (i = identity)); reflexivity.
Qed.

Lemma since_app b l k : since b (l ++ k) = since b l ++ since b k.
Proof. apply filter_app. Qed.

Lemma since_since b c l : (c <= b)%Z -> since b (since c l) = since b l.
Proof.
  intros H. unfold since. apply list_filter_filter_l. intros x. lia.
Qed.

Lemma purge_since w now l : purge w now l = since (now - w) l.
Proof. reflexivity. Qed.

Lemma count_in_since a w l : count_in a w l <= length (since a l).
Proof.
  unfold count_in, since.
  induction l as [|x l IH]; [reflexivity|].
  rewrite !filter_cons. destruct (decide (a <= x /\ x <= a + w)%Z) as [[H1 H2]|H].
  - rewrite decide_True by exact H1. cbn. lia.
  - destruct (decide (a <= x)%Z); cbn; lia.
Qed.

Lemma count_in_app a w l k : count_in a w (l ++ k) = count_in a w l + count_in a w k.
Proof. unfold count_in. rewrite filter_app, length_app. reflexivity. Qed.

Lemma mostRecent_bound l m : mostRecent l = Some m -> Forall (fun t => t <= m)%Z l.
Proof.
  revert m. induction l as [|x l IH]; intros m H; [constructor|].
  cbn in H. destruct (mostRecent l) as [m'|] eqn:Hl.
  - injection H as <-. constructor; [lia|].
    eapply Forall_impl; [apply (IH m' eq_refl)|]. cbn. intros t Ht. lia.
  - injection H as <-. destruct l; [constructor; [lia|constructor]|].
    cbn in Hl. destruct (mostRecent l); discriminate.
Qed.

Lemma stale_since w now l b : stale w now l = true -> (now - w <= b)%Z -> since b l = [].
Proof.
  unfold stale. intros Hs Hb. destruct (mostRecent l) as [m|] eqn:Hm.
  - apply Z.ltb_lt in Hs. pose proof (mostRecent_bound l m Hm) as Hall. clear Hm.
    unfold since. induction Hall as [|x l Hx _ IH]; [reflexivity|].
    rewrite filter_cons_False by lia. exact IH.
  - destruct l; [reflexivity|]. cbn in Hm. destruct (mostRecent l); discriminate.
Qed.

Lemma consistent_create w m t0 : consistent (create w m) [] t0.
Proof.
  split.
  - constructor.
  - intros identity b _. unfold window_of, create. cbn. rewrite lookup_empty. reflexivity.
  - intros identity a. cbn. lia.
Qed.

Lemma consistent_later rl adm t t' :
  (t <= t')%Z -> consistent rl adm t -> consistent rl adm t'.
Proof.
  intros Hle [Hpast Hrecent Hwithin]. split.
  - eapply Forall_impl; [exact Hpast|]. cbn. intros e He. lia.
  - intros identity b Hb. apply Hrecent. lia.
  - exact Hwithin.
Qed.

Lemma Admit_config identity now rl :
  windowSize (snd (Admit identity now rl)) = windowSize rl
  /\ maxEvents (snd (Admit identity now rl)) = maxEvents rl.
Proof. unfold Admit. destruct (_ <? _)%nat; split; reflexivity. Qed.

Lemma Admit_admitted identity now rl :
  length (purge (windowSize rl) now (window_of identity rl)) < maxEvents rl ->
  Admit identity now rl
  = (true,
     {| windowSize := windowSize rl; maxEvents := maxEvents rl;
        windows := <[identity := purge (windowSize rl) now (window_of identity rl) ++ [now]]>
                     (windows rl) |}).
Proof.
  intros H. unfold Admit. fold (window_of identity rl).
  destruct (Nat.ltb_spec (length (purge (windowSize rl) now (window_of identity rl)))
              (maxEvents rl)); [reflexivity|lia].
Qed.

Lemma Admit_rejected identity now rl :
  maxEvents rl <= length (purge (windowSize rl) now (window_of identity rl)) ->
  Admit identity now rl = (false, rl).
Proof.
  intros H. unfold Admit. fold (window_of identity rl).
  destruct (Nat.ltb_spec (length (purge (windowSize rl) now (window_of identity rl)))
              (maxEvents rl)); [lia|reflexivity].
Qed.

Lemma consistent_Admit identity now rl adm tcur :
  (tcur <= now)%Z ->
  consistent rl adm tcur ->
  consistent (snd (Admit identity now rl))
    (adm ++ if fst (Admit identity now rl) then [(identity, now)] else []) now.
Proof.
  intros Hnow Hc.
  destruct (Nat.lt_ge_cases (length (purge (windowSize rl) now (window_of identity rl)))
              (maxEvents rl)) as [Hlt|Hge].
  2:{ rewrite (Admit_rejected identity now rl Hge). cbn [fst snd]. rewrite app_nil_r.
      exact (consistent_later rl adm tcur now Hnow Hc). }
  rewrite (Admit_admitted identity now rl Hlt). cbn [fst snd].
  destruct Hc as [Hpast Hrecent Hwithin].
  assert (Hkept : forall b, (now - windowSize rl <= b)%Z ->
            since b (purge (windowSize rl) now (window_of identity rl) ++ [now])
            = since b (times_of identity adm ++ [now])).
  { intros b Hb. rewrite !since_app, purge_since, since_since by exact Hb.
    rewrite Hrecent by lia. reflexivity. }
  split.
  - apply Forall_app. split.
    + eapply Forall_impl; [exact Hpast|]. cbn. intros e He. lia.
    + constructor; [cbn; lia|constructor].
  - intros i b Hb. cbn [windowSize] in Hb. unfold window_of. cbn [windows].
    rewrite times_of_app, times_of_one.
    destruct (decide (identity = i)) as [->|Hne].
    + rewrite lookup_insert_eq. cbn [default]. apply Hkept, Hb.
    + rewrite lookup_insert_ne by exact Hne. rewrite app_nil_r.
      apply (Hrecent i b). lia.
  - intros i a. cbn [windowSize maxEvents]. rewrite times_of_app, times_of_one.
    destruct (decide (identity = i)) as [->|Hne]; [|rewrite app_nil_r; apply Hwithin].
    destruct (decide (a <= now /\ now <= a + windowSize rl)%Z) as [[Ha1 Ha2]|Hout].
    + etransitivity; [apply count_in_since|].
      rewrite <- Hkept by lia. rewrite since_app, length_app.
      assert (length (since a [now]) <= 1).
      { unfold since. rewrite filter_cons. destruct (decide (a <= now)%Z); cbn; lia. }
      pose proof (length_filter (fun t => a <= t)%Z
                    (purge (windowSize rl) now (window_of i rl))) as Hlen.
      unfold since at 1. lia.
    + rewrite count_in_app.
      assert (count_in a (windowSize rl) [now] = 0) as ->.
      { unfold count_in. rewrite filter_cons_False by exact Hout. reflexivity. }
      rewrite Nat.add_0_r. apply Hwithin.
Qed.

Lemma consistent_Cleanup now rl adm tcur :
  (tcur <= now)%Z ->
  consistent rl adm tcur ->
  consistent (Cleanup now rl) adm now.
Proof.
  intros Hnow [Hpast Hrecent Hwithin]. split.
  - eapply Forall_impl; [exact Hpast|]. cbn. intros e He. lia.
  - intros i b Hb. cbn [Cleanup windowSize] in Hb.
    rewrite <- (Hrecent i b) by lia.
    unfold window_of, Cleanup. cbn [windows].
    destruct (windows rl !! i) as [l|] eqn:Hl.
    + destruct (stale (windowSize rl) now l) eqn:Hstale.
      * rewrite (proj2 (map_lookup_filter_None _ _ _)).
        2:{ right. intros x Hx. rewrite Hl in Hx. injection Hx as <-. cbn. rewrite Hstale.
            discriminate. }
        cbn [default]. symmetry. apply (stale_since _ _ _ _ Hstale Hb).
      * rewrite (map_lookup_filter_Some_2 _ _ _ _ Hl); [reflexivity|].
        cbn. exact Hstale.
    + rewrite (proj2 (map_lookup_filter_None _ _ _)); [reflexivity|]. left. exact Hl.
  - exact Hwithin.
Qed.

Lemma consistent_run ops : forall rl adm tcur,
  monotone tcur ops ->
  consistent rl adm tcur ->
  exists tend, consistent (snd (run ops rl)) (adm ++ fst (run ops rl)) tend
               /\ windowSize (snd (run ops rl)) = windowSize rl
               /\ maxEvents (snd (run ops rl)) = maxEvents rl.
Proof.
  induction ops as [|[identity now|now] ops IH]; intros rl adm tcur Hmono Hc.
  - exists tcur. cbn. rewrite app_nil_r. auto.
  - cbn [run]. destruct Hmono as [Hle Hmono]. cbn [time_of] in Hle, Hmono.
    pose proof (consistent_Admit identity now rl adm tcur Hle Hc) as Hstep.
    destruct (Admit_config identity now rl) as [Hw Hm].
    destruct (Admit identity now rl) as [ok rl'] eqn:Hadmit. cbn [fst snd] in *.
    destruct (IH rl' _ now Hmono Hstep) as (tend & Hend & Hw' & Hm').
    destruct (run ops rl') as [adm' rl''] eqn:Hrun. cbn [fst snd] in *.
    exists tend. rewrite <- app_assoc in Hend. split; [exact Hend|]. split; congruence.
  - cbn [run]. destruct Hmono as [Hle Hmono]. cbn [time_of] in Hle, Hmono.
    pose proof (consistent_Cleanup now rl adm tcur Hle Hc) as Hstep.
    destruct (IH (Cleanup now rl) adm now Hmono Hstep) as (tend & Hend & Hw' & Hm').
    exists tend. split; [exact Hend|]. split; assumption.
Qed.

(** C2.  On each call [Admit] purges the identity's timestamps older than
    [now - windowSize]; it admits, appending [now], exactly when fewer than
    [maxEvents] remain, and otherwise rejects and leaves the limiter as it
    was.  Over any sequence of calls (and cleanups) made while the clock
    does not run backwards, starting from a fresh limiter, the events
    admitted for one identity number at most [maxEvents] in every window
    [[a, a + windowSize]]. *)
Theorem Admit_sliding_window :
  (forall identity now rl,
     length (purge (windowSize rl) now (window_of identity rl)) < maxEvents rl ->
     Admit identity now rl
     = (true,
        {| windowSize := windowSize rl; maxEvents := maxEvents rl;
           windows := <[identity := purge (windowSize rl) now (window_of identity rl) ++ [now]]>
                        (windows rl) |}))
  /\ (forall identity now rl,
        maxEvents rl <= length (purge (windowSize rl) now (window_of identity rl)) ->
        Admit identity now rl = (false, rl))
  /\ (forall (w : Z) (m : nat) (ops : list Op) (t0 : Z) (identity : string) (a : Z),
        monotone t0 ops ->
        count_in a w (times_of identity (fst (run ops (create w m)))) <= m).
Proof.
  split; [exact Admit_admitted|]. split; [exact Admit_rejected|].
  intros w m ops t0 identity a Hmono.
  destruct (consistent_run ops (create w m) [] t0 Hmono (consistent_create w m t0))
    as (tend & [_ _ Hwithin] & Hw & Hm).
  specialize (Hwithin identity a). rewrite Hw, Hm in Hwithin. exact Hwithin.
Qed.

(** The bound at work on the burst: with two events per ten seconds the
    third message of "s" is rejected, "t" is not affected, and the window
    [[1, 11]] holds two admitted events of "s". *)
Lemma Admit_sliding_window_witness :
  fst (run Scenario.burst (create 10 2)) = [("s", 0); ("s", 1); ("t", 2); ("s", 11); ("s", 12)]%Z
  /\ count_in 1 10 (times_of "s" (fst (run Scenario.burst (create 10 2)))) <= 2.
Proof.
  split; [vm_compute; reflexivity|].
  apply (proj2 (proj2 Admit_sliding_window) 10%Z 2 Scenario.burst 0%Z "s" 1%Z).
  cbn. lia.
Defined.

End RateLimiterFacts.

(** ** The cache operations of DatabaseManager *)

Module DatabaseMore.
Import Database DatabaseOps.

Ltac db_run :=
  unfold cacheSet, cacheGet, cacheDelete, cacheFlush, redis_setEx, redis_get, redis_del,
    redis_flushDb, Database.write, remove, emptied, log,
    mbind, eff_bind, bind, gets, try_catch, modify, mret, eff_ret, ret, throw in *;
  cbn [fst snd redis dblog store setEx_reply get_fault] in *.

(** X10.  [cacheGet] never throws and never changes the Redis client.
    Without a client it logs a warning and returns [null]; when the read (or
    the parsing of what was read) throws, it logs the error and returns
    [null]; otherwise it returns the stored value, [null] for a key that is
    not stored, and logs nothing. *)
Theorem cacheGet_never_throws {V : Type} (key : string) (d : DatabaseManager V) :
  exists v d',
    cacheGet key d = (Ret v, d')
    /\ redis d' = redis d
    /\ match redis d with
       | None =>
           v = None
           /\ dblog d' = dblog d ++ [ {| level := LWarn;
                                         text := "Redis not available, skipping cache get";
                                         err := None |} ]
       | Some c =>
           match get_fault c key with
           | Some e =>
               v = None
               /\ dblog d' = dblog d ++ [ {| level := LError;
                                             text := "Error getting cache for key " +:+ key +:+ ":";
                                             err := Some e |} ]
           | None => v = store c !! key /\ dblog d' = dblog d
           end
       end.
Proof.
  destruct d as [[c|] lg]; db_run.
  - destruct (get_fault c key) as [e|] eqn:Hf; db_run; rewrite ?Hf; eauto 10.
  - eauto 10.
Qed.

Lemma cacheGet_value {V : Type} (key : string) (d : DatabaseManager V) :
  fst (cacheGet key d)
  = Ret (match redis d with
         | Some c => match get_fault c key with Some _ => None | None => store c !! key end
         | None => None
         end).
Proof.
  destruct d as [[c|] lg]; db_run; [|reflexivity].
  destruct (get_fault c key); reflexivity.
Qed.

Lemma cacheSet_run {V : Type} {codec : Json V} (key : string) (value : V) (ttl : Z)
  (d : DatabaseManager V) :
  cacheSet key value ttl d
  = match redis d with
    | None =>
        (Ret false,
         {| redis := None;
            dblog := dblog d ++ [ {| level := LWarn;
                                     text := "Redis not available, skipping cache set";
                                     err := None |} ] |})
    | Some c =>
        match setEx_reply c key with
        | Ret status =>
            (Ret (String.eqb status "OK"),
             {| redis := Some (if String.eqb status "OK"
                               then Database.write c key (json value) else c);
                dblog := dblog d |})
        | Throw e =>
            (Ret false,
             {| redis := Some c;
                dblog := dblog d ++ [ {| level := LError;
                                         text := "Error setting cache for key " +:+ key +:+ ":";
                                         err := Some e |} ] |})
        end
    end.
Proof.
  destruct d as [[c|] lg]; unfold cacheSet, redis_setEx, log,
    mbind, eff_bind, bind, gets, try_catch, modify, mret, eff_ret, ret, throw;
    cbn [fst snd redis dblog]; [|reflexivity].
  destruct (setEx_reply c key); reflexivity.
Qed.

(** X11.  What [cacheSet] returns tells what a later [cacheGet] finds.
    After [cacheSet] returned [true], [cacheGet] of the same key returns,
    unless the read itself fails, the value that was written as it is after
    [JSON.stringify] and [JSON.parse] (for a session of the [ai] command: with
    every [Date] turned into its ISO string), and every other key reads as
    before.  After it returned [false] every key reads as before: nothing was
    written.  (Keys do not expire in the model.) *)
Theorem cacheSet_then_cacheGet {V : Type} {codec : Json V} (key : string) (value : V) (ttl : Z)
  (d : DatabaseManager V) :
  (fst (cacheSet key value ttl d) = Ret true ->
   (forall c, redis d = Some c -> get_fault c key = None) ->
   fst (cacheGet key (snd (cacheSet key value ttl d))) = Ret (Some (json value)))
  /\ (forall k, k <> key ->
        fst (cacheGet k (snd (cacheSet key value ttl d))) = fst (cacheGet k d))
  /\ (fst (cacheSet key value ttl d) = Ret false ->
      forall k, fst (cacheGet k (snd (cacheSet key value ttl d))) = fst (cacheGet k d))
  /\ json Scenario.liveSession = Scenario.cachedSession.
Proof.
  rewrite cacheSet_run.
  split; [|split; [|split]]; [| | |reflexivity].
  - intros Hset Hread. rewrite cacheGet_value. revert Hset.
    destruct (redis d) as [c|]; [|discriminate].
    specialize (Hread c eq_refl).
    destruct (setEx_reply c key) as [status|e]; [|discriminate].
    cbn [fst snd redis]. intros [= ->]. unfold Database.write. cbn [get_fault store].
    rewrite Hread, lookup_insert_eq. reflexivity.
  - intros k Hk. rewrite !cacheGet_value.
    destruct (redis d) as [c|]; [|reflexivity].
    destruct (setEx_reply c key) as [status|e]; [|reflexivity].
    cbn [fst snd redis].
    destruct (String.eqb status "OK"); [|reflexivity].
    unfold Database.write. cbn [get_fault store].
    rewrite lookup_insert_ne by congruence. reflexivity.
  - intros Hset k. rewrite !cacheGet_value. revert Hset.
    destruct (redis d) as [c|]; [|reflexivity].
    destruct (setEx_reply c key) as [status|e]; [|reflexivity].
    cbn [fst snd redis]. intros [= ->]. reflexivity.
Qed.

(** With a Redis server that accepts the write, the session written under
    the key of the mirror is read back with its dates as strings. *)
Lemma cacheSet_then_cacheGet_witness :
  fst (cacheGet "ai_conversation_7_100"
         (snd (cacheSet "ai_conversation_7_100" Scenario.liveSession 3600
                 (Ai.db Scenario.restarted))))
  = Ret (Some Scenario.cachedSession).
Proof.
  change Scenario.cachedSession with (json Scenario.liveSession).
  apply (proj1 (cacheSet_then_cacheGet "ai_conversation_7_100" Scenario.liveSession 3600
                  (Ai.db Scenario.restarted))).
  - reflexivity.
  - intros c [= <-]. reflexivity.
Defined.

Lemma cacheDelete_run {V : Type} (a : RedisAnswers) (key : string) (d : DatabaseManager V) :
  cacheDelete a key d
  = match redis d with
    | None =>
        (Ret false,
         {| redis := None;
            dblog := dblog d ++ [ {| level := LWarn;
                                     text := "Redis not available, skipping cache delete";
                                     err := None |} ] |})
    | Some c =>
        match del_fault a key with
        | None =>
            (Ret (match store c !! key with Some _ => true | None => false end),
             {| redis := Some (remove c key); dblog := dblog d |})
        | Some e =>
            (Ret false,
             {| redis := Some c;
                dblog := dblog d ++ [ {| level := LError;
                                         text := "Error deleting cache for key " +:+ key +:+ ":";
                                         err := Some e |} ] |})
        end
    end.
Proof.
  destruct d as [[c|] lg]; unfold cacheDelete, redis_del, log,
    mbind, eff_bind, bind, gets, try_catch, modify, mret, eff_ret, ret, throw;
    cbn [fst snd redis dblog]; [|reflexivity].
  destruct (del_fault a key); [reflexivity|].
  destruct (store c !! key); reflexivity.
Qed.

(** X12.  [cacheDelete] never throws.  It returns [true] exactly when a
    client is set, [del] does not throw and the key was stored; the key then
    reads as [null].  Whatever it returns, every other key reads as before. *)
Theorem cacheDelete_removes_one_key {V : Type} (a : RedisAnswers) (key : string)
  (d : DatabaseManager V) :
  exists b,
    fst (cacheDelete a key d) = Ret b
    /\ (b = true <->
        exists c, redis d = Some c /\ del_fault a key = None /\ store c !! key <> None)
    /\ (b = true -> fst (cacheGet key (snd (cacheDelete a key d))) = Ret None)
    /\ (forall k, k <> key ->
          fst (cacheGet k (snd (cacheDelete a key d))) = fst (cacheGet k d)).
Proof.
  rewrite cacheDelete_run.
  destruct (redis d) as [c|] eqn:Hc; [destruct (del_fault a key) as [e|] eqn:Hf|];
    cbn [fst snd]; eexists; (split; [reflexivity|]); (split; [|split]).
  - split; [discriminate|]. intros (c' & _ & Hno & _). discriminate.
  - discriminate.
  - intros k _. rewrite !cacheGet_value, Hc. reflexivity.
  - destruct (store c !! key) eqn:Hk; split.
    + intros _. exists c. rewrite Hk. auto.
    + reflexivity.
    + discriminate.
    + intros (c' & [= <-] & _ & Hstored). congruence.
  - intros _. rewrite cacheGet_value. unfold remove. cbn [redis get_fault store].
    rewrite lookup_delete_eq. destruct (get_fault c key); reflexivity.
  - intros k Hk. rewrite !cacheGet_value, Hc. unfold remove. cbn [redis get_fault store].
    rewrite lookup_delete_ne by congruence. reflexivity.
  - split; [discriminate|]. intros (c' & Hno & _). discriminate.
  - discriminate.
  - intros k _. rewrite !cacheGet_value, Hc. reflexivity.
Qed.

Lemma cacheFlush_run {V : Type} (a : RedisAnswers) (d : DatabaseManager V) :
  cacheFlush a d
  = match redis d with
    | None =>
        (Ret false,
         {| redis := None;
            dblog := dblog d ++ [ {| level := LWarn;
                                     text := "Redis not available, skipping cache flush";
                                     err := None |} ] |})
    | Some c =>
        match flushDb_reply a with
        | Ret status =>
            (Ret (String.eqb status "OK"),
             {| redis := Some (if String.eqb status "OK" then emptied c else c);
                dblog := dblog d |})
        | Throw e =>
            (Ret false,
             {| redis := Some c;
                dblog := dblog d ++ [ {| level := LError; text := "Error flushing cache:";
                                         err := Some e |} ] |})
        end
    end.
Proof.
  destruct d as [[c|] lg]; unfold cacheFlush, redis_flushDb, log,
    mbind, eff_bind, bind, gets, try_catch, modify, mret, eff_ret, ret, throw;
    cbn [fst snd redis dblog]; [|reflexivity].
  destruct (flushDb_reply a); reflexivity.
Qed.

(** X13.  [cacheFlush] never throws.  It returns [true] exactly when a
    client is set and [flushDb] answers OK; every key then reads as [null].
    When it returns [false], every key reads as before. *)
Theorem cacheFlush_empties_the_cache {V : Type} (a : RedisAnswers) (d : DatabaseManager V) :
  exists b,
    fst (cacheFlush a d) = Ret b
    /\ (b = true <-> redis d <> None /\ flushDb_reply a = Ret "OK")
    /\ (b = true -> forall k, fst (cacheGet k (snd (cacheFlush a d))) = Ret None)
    /\ (b = false -> forall k, fst (cacheGet k (snd (cacheFlush a d))) = fst (cacheGet k d)).
Proof.
  rewrite cacheFlush_run.
  destruct (redis d) as [c|] eqn:Hc; [destruct (flushDb_reply a) as [status|e] eqn:Hf|];
    cbn [fst snd]; eexists; (split; [reflexivity|]).
  - destruct (String.eqb_spec status "OK") as [->|Hne]; (split; [|split]).
    + split; [intros _; split; [discriminate|reflexivity]|reflexivity].
    + intros _ k. rewrite cacheGet_value. unfold emptied. cbn [redis get_fault store].
      rewrite lookup_empty. destruct (get_fault c k); reflexivity.
    + discriminate.
    + split; [discriminate|]. intros [_ [= ->]]. congruence.
    + discriminate.
    + intros _ k. rewrite !cacheGet_value, Hc. reflexivity.
  - split; [|split].
    + split; [discriminate|]. intros [_ Hno]. discriminate.
    + discriminate.
    + intros _ k. rewrite !cacheGet_value, Hc. reflexivity.
  - split; [|split].
    + split; [discriminate|]. intros [Hno _]. congruence.
    + discriminate.
    + intros _ k. rewrite !cacheGet_value, Hc. reflexivity.
Qed.

Lemma healthCheck_run {V : Type} (a : RedisAnswers) (m : Mongo) (d : DatabaseManager V) :
  healthCheck a m d
  = if mongoose m && (readyState m =? 1)%Z then
      match mongo_ping m with
      | Throw e =>
          (Ret {| mongodb := false; health_redis := false; overall := false |}, failed_check e d)
      | Ret _ =>
          match redis d with
          | None => (Ret {| mongodb := true; health_redis := true; overall := true |}, d)
          | Some _ =>
              match ping_reply a with
              | Ret pong =>
                  (Ret {| mongodb := true; health_redis := String.eqb pong "PONG";
                          overall := String.eqb pong "PONG" |}, d)
              | Throw e =>
                  (Ret {| mongodb := true; health_redis := false; overall := false |},
                   failed_check e d)
              end
          end
      end
    else
      match redis d with
      | None => (Ret {| mongodb := false; health_redis := true; overall := false |}, d)
      | Some _ =>
          match ping_reply a with
          | Ret pong =>
              (Ret {| mongodb := false; health_redis := String.eqb pong "PONG";
                      overall := false |}, d)
          | Throw e =>
              (Ret {| mongodb := false; health_redis := false; overall := false |},
               failed_check e d)
          end
      end.
Proof.
  unfold healthCheck, healthCheck_try, assign_health, in_manager, log, lift, failed_check,
    set_mongodb, set_health_redis, set_overall,
    mbind, eff_bind, bind, gets, try_catch, modify, mret, eff_ret, ret, throw.
  destruct d as [r lg].
  destruct (mongoose m && (readyState m =? 1)%Z); [destruct (mongo_ping m) as [[]|e]|];
    cbn [fst snd redis dblog];
    try reflexivity.
  all: destruct r as [c|]; cbn [fst snd redis dblog]; try reflexivity.
  all: destruct (ping_reply a) as [pong|e']; reflexivity.
Qed.

(** X14.  [healthCheck] never throws and never changes the Redis client.
    The database is reported healthy ([overall]) exactly when
    [this.mongoose] is set, the connection is in state 1, the MongoDB ping
    returns, and Redis either answers PONG or is not configured.  When the
    MongoDB ping throws, all three fields are [false], also [redis] without
    a Redis client; when the Redis ping throws, [mongodb] is reported
    [true] and [overall] is [false]. *)
Theorem healthCheck_reports {V : Type} (a : RedisAnswers) (m : Mongo) (d : DatabaseManager V) :
  exists h,
    fst (healthCheck a m d) = Ret h
    /\ redis (snd (healthCheck a m d)) = redis d
    /\ (overall h = true <->
        mongoose m = true /\ readyState m = 1%Z /\ mongo_ping m = Ret tt
        /\ (redis d = None \/ ping_reply a = Ret "PONG"))
    /\ (overall h = true -> mongodb h = true /\ health_redis h = true)
    /\ (forall e, mongoose m = true -> readyState m = 1%Z -> mongo_ping m = Throw e ->
          h = {| mongodb := false; health_redis := false; overall := false |})
    /\ (forall e, mongoose m = true -> readyState m = 1%Z -> mongo_ping m = Ret tt ->
          redis d <> None -> ping_reply a = Throw e ->
          h = {| mongodb := true; health_redis := false; overall := false |}).
Proof.
  rewrite healthCheck_run.
  destruct (mongoose m) eqn:Hset; cbn [andb];
    [destruct (Z.eqb_spec (readyState m) 1) as [Hstate|Hstate];
       [destruct (mongo_ping m) as [[]|e] eqn:Hping|]|];
    (destruct (redis d) as [c|] eqn:Hc;
       [destruct (ping_reply a) as [pong|e'] eqn:Hpong;
          [destruct (String.eqb_spec pong "PONG") as [->|Hne]|]|]);
    cbn [fst snd redis failed_check];
    (eexists; split; [reflexivity|]; split; [first [reflexivity | assumption]|]);
    cbn [mongodb health_redis overall];
    repeat match goal with
           | |- _ /\ _ => split
           | |- _ <-> _ => split
           end;
    intros; try reflexivity; try discriminate; try congruence; try tauto;
    repeat match goal with
           | H : _ /\ _ |- _ => destruct H
           | H : _ \/ _ |- _ => destruct H
           end;
    try discriminate; try congruence; auto.
Qed.

(** A database whose MongoDB ping fails and that has no Redis client: the
    optional Redis is reported unhealthy as well. *)
Lemma healthCheck_reports_witness :
  fst (healthCheck (V:=Ai.Conversation)
         {| del_fault := fun _ => None; flushDb_reply := Ret "OK"; ping_reply := Ret "PONG" |}
         {| mongoose := true; readyState := 1; mongo_ping := Throw Scenario.boom |}
         Scenario.noRedis)
  = Ret {| mongodb := false; health_redis := false; overall := false |}.
Proof.
  destruct (healthCheck_reports (V:=Ai.Conversation)
              {| del_fault := fun _ => None; flushDb_reply := Ret "OK"; ping_reply := Ret "PONG" |}
              {| mongoose := true; readyState := 1; mongo_ping := Throw Scenario.boom |}
              Scenario.noRedis) as (h & Hrun & _ & _ & _ & Hmongo & _).
  rewrite Hrun. f_equal. exact (Hmongo Scenario.boom eq_refl eq_refl eq_refl).
Defined.

End DatabaseMore.

(** ** DatabaseManager: reconnection and disconnection *)

Module ConnectionFacts.
Import DatabaseOps.

Ltac conn_run :=
  unfold call, handleConnectionError, onConnected, onReconnected, disconnect, onDisconnected,
    attemptReconnection, logLine, set_isConnected, set_connectionRetries, schedule, lift,
    mbind, eff_bind, bind, gets, try_catch, modify, mret, eff_ret, ret, throw;
  cbn [fst snd mongooseSet redisSet isConnected connectionRetries scheduled attempts journal].

Lemma handleConnectionError_run dbType error (c : Connection) :
  connectionRetries (snd (handleConnectionError dbType error c))
  = (if (connectionRetries c <? maxRetries)%nat then S (connectionRetries c)
     else connectionRetries c)
  /\ scheduled (snd (handleConnectionError dbType error c))
     = (if (connectionRetries c <? maxRetries)%nat then scheduled c ++ [dbType]
        else scheduled c)
  /\ isConnected (snd (handleConnectionError dbType error c)) = isConnected c.
Proof.
  conn_run. destruct (connectionRetries c <? maxRetries)%nat; cbn; auto.
Qed.

Lemma call_bounded x (c : Connection) :
  connectionRetries c <= maxRetries -> connectionRetries (snd (call x c)) <= maxRetries.
Proof.
  intros Hc. destruct x as [dbType error| |].
  - cbn [call]. destruct (handleConnectionError_run dbType error c) as [-> _].
    destruct (Nat.ltb_spec (connectionRetries c) maxRetries); lia.
  - conn_run. lia.
  - conn_run. lia.
Qed.

Lemma errors_run (l : list Call) (c : Connection) :
  Forall is_error l ->
  connectionRetries c <= maxRetries ->
  connectionRetries (calls l c) = Nat.min (connectionRetries c + length l) maxRetries
  /\ length (scheduled (calls l c))
     = length (scheduled c) + Nat.min (length l) (maxRetries - connectionRetries c).
Proof.
  intros Hl. revert c. induction Hl as [|x l Hx _ IH]; intros c Hc.
  - cbn. split; lia.
  - destruct x as [dbType error| |]; try contradiction.
    cbn [calls call length].
    destruct (handleConnectionError_run dbType error c) as (Hr & Hs & _).
    specialize (IH (snd (handleConnectionError dbType error c))).
    rewrite Hr, Hs in IH.
    destruct (Nat.ltb_spec (connectionRetries c) maxRetries) as [Hlt|Hge].
    + destruct IH as [-> ->]; [lia|]. rewrite length_app. cbn [length]. split; lia.
    + destruct IH as [-> ->]; [lia|]. split; lia.
Qed.

(** X15.  The number of reconnections that [handleConnectionError]
    schedules is bounded: [connectionRetries] never exceeds [maxRetries] (5),
    whatever calls of [handleConnectionError] and of the listeners of
    'connected' and 'reconnected' are made.  A run of [n] errors schedules
    as many reconnections as are left of the five, the later errors are only
    logged; the two listeners reset the count to zero. *)
Theorem reconnection_attempts_are_bounded (l : list Call) (c : Connection) :
  connectionRetries c <= maxRetries ->
  connectionRetries (calls l c) <= maxRetries
  /\ (Forall is_error l ->
      connectionRetries (calls l c) = Nat.min (connectionRetries c + length l) maxRetries
      /\ length (scheduled (calls l c))
         = length (scheduled c) + Nat.min (length l) (maxRetries - connectionRetries c))
  /\ connectionRetries (snd (onConnected c)) = 0
  /\ connectionRetries (snd (onReconnected c)) = 0.
Proof.
  intros Hc. split; [|split; [|split]].
  - revert c Hc. induction l as [|x l IH]; intros c Hc; [exact Hc|].
    cbn [calls]. apply IH, call_bounded, Hc.
  - intros Hl. apply errors_run; assumption.
  - reflexivity.
  - reflexivity.
Qed.

(** Seven errors in a row on a fresh manager: five reconnections are
    scheduled. *)
Lemma reconnection_attempts_are_bounded_witness :
  length (scheduled (calls (replicate 7 (CallError "MongoDB" Scenario.boom)) fresh)) = 5
  /\ connectionRetries (calls (replicate 7 (CallError "MongoDB" Scenario.boom)) fresh) = 5.
Proof.
  destruct (reconnection_attempts_are_bounded
              (replicate 7 (CallError "MongoDB" Scenario.boom)) fresh) as (_ & Hrun & _).
  - cbn. unfold maxRetries. lia.
  - destruct Hrun as [Hr Hs].
    + repeat constructor.
    + split; [exact Hs | exact Hr].
Defined.

(** The state after [n] runs of the listener of ['disconnected']. *)
Lemma listeners_run (n : nat) (c : Connection) :
  listeners n onDisconnected c
  = (Ret tt,
     {| mongooseSet := mongooseSet c; redisSet := redisSet c;
        isConnected := (if n is 0 then isConnected c else false);
        connectionRetries := connectionRetries c; scheduled := scheduled c;
        attempts := attempts c ++ replicate n "MongoDB";
        journal := journal c ++ replicate n (LWarning "MongoDB disconnected") |}).
Proof.
  revert c. induction n as [|n IH]; intros c.
  - cbn. rewrite !app_nil_r. destruct c; reflexivity.
  - cbn [listeners]. unfold mbind, eff_bind, bind. conn_run. rewrite IH. conn_run.
    cbn [replicate]. rewrite <- !app_assoc. destruct n; reflexivity.
Qed.

Lemma disconnect_run (o : DisconnectOracle) (c : Connection) :
  disconnect o c
  = (Ret tt,
     let n := if mongooseSet c then disconnectedListeners o else 0 in
     let heard := replicate n (LWarning "MongoDB disconnected") in
     let mongo := if mongooseSet c then mongoDisconnect o else Ret tt in
     let redis := if redisSet c then redisDisconnect o else Ret tt in
     {| mongooseSet := mongooseSet c; redisSet := redisSet c;
        isConnected := (match mongo, redis with
                        | Ret _, Ret _ => false
                        | _, _ => if n is 0 then isConnected c else false
                        end);
        connectionRetries := connectionRetries c; scheduled := scheduled c;
        attempts := attempts c ++ replicate n "MongoDB";
        journal := journal c ++ heard
                   ++ match mongo with
                      | Throw e => [LFailure "Error disconnecting from databases:" (Some e)]
                      | Ret _ =>
                          (if mongooseSet c then [LDatabase "MongoDB disconnected"] else [])
                          ++ match redis with
                             | Throw e =>
                                 [LFailure "Error disconnecting from databases:" (Some e)]
                             | Ret _ =>
                                 (if redisSet c then [LDatabase "Redis disconnected"] else [])
                                 ++ [LDatabase "Database manager disconnected"]
                             end
                      end |}).
Proof.
  destruct c as [ms rs ic cr sch att jr]. unfold disconnect, try_catch, mbind, eff_bind, bind, gets.
  cbn [fst snd mongooseSet redisSet isConnected connectionRetries scheduled attempts journal].
  destruct ms.
  - rewrite listeners_run. conn_run.
    destruct (mongoDisconnect o) as [[]|e1]; conn_run.
    + destruct rs; [destruct (redisDisconnect o) as [[]|e2]|]; conn_run;
        rewrite <- ?app_assoc; reflexivity.
    + rewrite <- ?app_assoc. reflexivity.
  - conn_run. destruct rs; [destruct (redisDisconnect o) as [[]|e2]|]; conn_run;
      rewrite ?app_nil_r, <- ?app_assoc; reflexivity.
Qed.

Lemma disconnect_returns (o : DisconnectOracle) (c : Connection) :
  fst (disconnect o c) = Ret tt.
Proof. rewrite disconnect_run. reflexivity. Qed.

(** X16.  [disconnect] never throws, and it leaves [this.mongoose] and
    [this.redis] set.  While [mongoose.disconnect()] is awaited, every
    registered listener of ['disconnected'] logs a warning, sets [isConnected]
    to [false] and starts a reconnection to MongoDB.  [isConnected] is
    therefore [false] afterwards exactly when it was [false] before, or such
    a listener ran, or every client that is set was disconnected without an
    error.  When the MongoDB disconnection throws, the Redis client is not
    disconnected: after the warnings of the listeners only the error is
    logged. *)
Theorem disconnect_never_throws (o : DisconnectOracle) (c : Connection) :
  fst (disconnect o c) = Ret tt
  /\ mongooseSet (snd (disconnect o c)) = mongooseSet c
  /\ redisSet (snd (disconnect o c)) = redisSet c
  /\ (isConnected (snd (disconnect o c)) = false <->
      isConnected c = false
      \/ (mongooseSet c = true /\ 0 < disconnectedListeners o)
      \/ ((mongooseSet c = true -> mongoDisconnect o = Ret tt)
          /\ (redisSet c = true -> redisDisconnect o = Ret tt)))
  /\ attempts (snd (disconnect o c))
     = attempts c ++ replicate (if mongooseSet c then disconnectedListeners o else 0) "MongoDB"
  /\ (forall e, mongooseSet c = true -> mongoDisconnect o = Throw e ->
        journal (snd (disconnect o c))
        = journal c
          ++ replicate (disconnectedListeners o) (LWarning "MongoDB disconnected")
          ++ [LFailure "Error disconnecting from databases:" (Some e)]).
Proof.
  rewrite disconnect_run. cbv zeta.
  cbn [fst snd mongooseSet redisSet isConnected attempts journal].
  split; [reflexivity|]. split; [reflexivity|]. split; [reflexivity|].
  split; [|split; [reflexivity|]].
  - destruct (mongooseSet c), (redisSet c);
      destruct (mongoDisconnect o) as [[]|e1];
      destruct (redisDisconnect o) as [[]|e2];
      destruct (disconnectedListeners o) as [|n];
      destruct (isConnected c);
      (split; [intros H; try discriminate H; auto 6 with lia|]);
      intros H; try reflexivity;
      repeat match goal with
             | H : _ \/ _ |- _ => destruct H
             | H : _ /\ _ |- _ => destruct H
             | H : true = true -> _ |- _ => specialize (H eq_refl)
             end;
      try discriminate; try lia; try congruence.
  - intros e -> ->. reflexivity.
Qed.

(** The manager is connected to MongoDB and Redis, one listener is
    registered, and Redis cannot be disconnected: the error is logged, and
    [isConnected] is false all the same, with a reconnection to MongoDB under
    way. *)
Lemma disconnect_never_throws_witness :
  isConnected
    (snd (disconnect {| mongoDisconnect := Ret tt; disconnectedListeners := 1;
                        redisDisconnect := Throw Scenario.boom |}
            {| mongooseSet := true; redisSet := true; isConnected := true;
               connectionRetries := 0; scheduled := []; attempts := [];
               journal := [] |})) = false
  /\ attempts
       (snd (disconnect {| mongoDisconnect := Ret tt; disconnectedListeners := 1;
                           redisDisconnect := Throw Scenario.boom |}
               {| mongooseSet := true; redisSet := true; isConnected := true;
                  connectionRetries := 0; scheduled := []; attempts := [];
                  journal := [] |})) = ["MongoDB"].
Proof.
  destruct (disconnect_never_throws
              {| mongoDisconnect := Ret tt; disconnectedListeners := 1;
                 redisDisconnect := Throw Scenario.boom |}
              {| mongooseSet := true; redisSet := true; isConnected := true;
                 connectionRetries := 0; scheduled := []; attempts := [];
                 journal := [] |}) as (_ & _ & _ & Hconn & Hatt & _).
  split; [|exact Hatt].
  apply Hconn. right. left. cbn. split; [reflexivity|lia].
Defined.

End ConnectionFacts.

(** ** BotManager: counters and life cycle *)

Module BotMore.
Import Transport Logic Rules Bot BotFacts BotView.

Lemma errorLines_app (t u : list Obs) : errorLines (t ++ u) = errorLines t + errorLines u.
Proof. unfold errorLines. rewrite omap_app, length_app. reflexivity. Qed.

Lemma errorLines_out (out : list Outbound) : errorLines (map OOut out) = 0.
Proof. induction out as [|o out IH]; [reflexivity|exact IH]. Qed.

Ltac count_lines :=
  rewrite ?errorLines_app, ?errorLines_out; unfold errorLines;
  cbn [omap list_omap length app Nat.add].

Ltac solve_counted :=
  unfold counted; bot_norm; rewrite <- ?app_assoc;
  eexists; split; [reflexivity|];
  count_lines; split; [lia|];
  try match goal with
      | |- context [stats ?b] => destruct (stats b)
      end;
  bot_norm; first [reflexivity | f_equal; lia].

Section Counters.
Context {Collab : Type} (co : Collaborators Collab).

Lemma onMessage_counted message (bm : BotManager Collab) :
  counted 1 bm (snd (onMessage co message bm)).
Proof.
  apply (wp_snd (onMessage co message) (counted 1 bm)).
  unfold onMessage, handleMessage. repeat bot_step; solve_counted.
Qed.

Lemma onEvent_counted event (bm : BotManager Collab) :
  counted 0 bm (snd (onEvent co event bm)).
Proof.
  apply (wp_snd (onEvent co event) (counted 0 bm)).
  unfold onEvent, handleEvent. repeat bot_step; solve_counted.
Qed.

Lemma onReaction_counted reaction (bm : BotManager Collab) :
  counted 0 bm (snd (onReaction co reaction bm)).
Proof.
  apply (wp_snd (onReaction co reaction) (counted 0 bm)).
  unfold onReaction, handleReaction. repeat bot_step; solve_counted.
Qed.

(** X17.  Whatever the state of the manager and whatever its collaborators
    do (pass, deny, throw, or be [null]), the dispatch of a message adds
    exactly one to [messagesProcessed], the dispatch of an event or of a
    reaction adds nothing to it, and [errors] grows by the number of error
    lines the dispatch logged, which is at most one.  [commandsExecuted] and
    [uptime] are not touched. *)
Theorem every_dispatch_is_counted message event reaction (bm : BotManager Collab) :
  counted 1 bm (snd (onMessage co message bm))
  /\ counted 0 bm (snd (onEvent co event bm))
  /\ counted 0 bm (snd (onReaction co reaction bm)).
Proof.
  split; [apply onMessage_counted|]. split; [apply onEvent_counted|apply onReaction_counted].
Qed.

Lemma counted_advance n (bm bm' : BotManager Collab) : counted n bm bm' -> advance bm bm'.
Proof.
  intros (t & Ht & Hl & Hs). unfold advance. rewrite Hs. cbn.
  repeat split; try lia. exists t. split; [exact Ht|lia].
Qed.

Ltac solve_quiet_life :=
  unfold advance; bot_norm; rewrite <- ?app_assoc;
  repeat split; try lia;
  eexists; (split; [first [reflexivity | symmetry; apply app_nil_r]|]); lia.

Lemma initialize_advance o (bm : BotManager Collab) : advance bm (snd (initialize o bm)).
Proof.
  apply (wp_snd (initialize o) (advance bm)). unfold initialize.
  repeat bot_step; solve_quiet_life.
Qed.

Lemma start_advance o (bm : BotManager Collab) : advance bm (snd (start o bm)).
Proof.
  apply (wp_snd (start o) (advance bm)). unfold start.
  repeat bot_step; solve_quiet_life.
Qed.

Lemma stop_advance o (bm : BotManager Collab) : advance bm (snd (stop o bm)).
Proof.
  apply (wp_snd (stop o) (advance bm)). unfold stop.
  repeat bot_step; solve_quiet_life.
Qed.

Lemma step_advance (bm bm' : BotManager Collab) : step co bm bm' -> advance bm bm'.
Proof.
  intros Hstep. destruct Hstep.
  - apply initialize_advance.
  - apply start_advance.
  - apply stop_advance.
  - unfold linkChange. destruct (facebookAPI bm); solve_quiet_life.
  - unfold updateStats. solve_quiet_life.
  - apply (counted_advance 1), onMessage_counted.
  - apply (counted_advance 0), onEvent_counted.
  - apply (counted_advance 0), onReaction_counted.
Qed.

Lemma reachable_counters (bm : BotManager Collab) :
  reachable co bm ->
  commandsExecuted (stats bm) = 0 /\ errors (stats bm) <= errorLines (trace bm).
Proof.
  induction 1 as [now c | bm bm' _ [IHc IHe] Hstep].
  - cbn. split; [reflexivity|lia].
  - destruct (step_advance bm bm' Hstep) as (Hc & _ & _ & t & Ht & He).
    rewrite Hc, Ht, errorLines_app. split; [exact IHc|lia].
Qed.

(** X18.  No method of the manager increments [commandsExecuted]: in every
    state the manager gets to from its construction (initialisation, start,
    stop, link changes, statistics updates, dispatches of messages, events
    and reactions, whether they succeed or fail) the counter is zero. *)
Theorem commandsExecuted_is_never_incremented (bm : BotManager Collab) :
  reachable co bm -> commandsExecuted (stats bm) = 0.
Proof. intros Hreach. apply (reachable_counters bm Hreach). Qed.

(** X19.  The counters of the manager never go down, in particular a stop
    followed by a start does not reset them, and the trace is only extended.
    In every reachable state each counted error has its line in the log:
    [errors] is at most the number of error lines logged so far (failures of
    [initialize], [start] and [stop] are logged but not counted). *)
Theorem counters_never_decrease (bm bm' : BotManager Collab) :
  reachable co bm ->
  step co bm bm' ->
  messagesProcessed (stats bm) <= messagesProcessed (stats bm')
  /\ errors (stats bm) <= errors (stats bm')
  /\ (exists t, trace bm' = trace bm ++ t)
  /\ errors (stats bm') <= errorLines (trace bm').
Proof.
  intros Hreach Hstep.
  destruct (step_advance bm bm' Hstep) as (_ & Hm & He & t & Ht & _).
  split; [exact Hm|]. split; [exact He|]. split; [eauto|].
  apply (reachable_counters bm'). eapply reachable_step; eassumption.
Qed.

End Counters.

Lemma started_reachable {Collab : Type} (co : Collaborators Collab) (c : Collab) :
  reachable co (Scenario.started c).
Proof.
  unfold Scenario.started.
  apply reachable_step with (bm := snd (initialize Scenario.initOk (construct 0 c))).
  - apply reachable_step with (bm := construct 0 c).
    + apply reachable_new.
    + apply step_initialize.
  - apply step_start.
Qed.

(** A message is routed to the [ai] command, which answers: the counter of
    executed commands is still zero. *)
Lemma commandsExecuted_is_never_incremented_witness :
  Pipeline.replies
    (Ai.trace (collab (snd (onMessage
                              (Pipeline.aiPipeline Scenario.config Scenario.answering ["hello"])
                              Scenario.hello
                              (Scenario.started (Ai.initial Scenario.noRedis))))))
  = [Ai.startResponse "hi"]
  /\ commandsExecuted
       (stats (snd (onMessage
                      (Pipeline.aiPipeline Scenario.config Scenario.answering ["hello"])
                      Scenario.hello
                      (Scenario.started (Ai.initial Scenario.noRedis))))) = 0.
Proof.
  split; [vm_compute; reflexivity|].
  apply (commandsExecuted_is_never_incremented
           (Pipeline.aiPipeline Scenario.config Scenario.answering ["hello"])).
  eapply reachable_step; [apply started_reachable | apply step_message].
Defined.

(** A running manager that counted one failed message is stopped: the
    counters are as they were. *)
Lemma counters_never_decrease_witness :
  errors (stats (snd (stop {| disconnect := Ret tt; linkAfterDisconnect := false |}
                        (snd (onMessage Scenario.faulty Scenario.hello (Scenario.started tt))))))
  = 1
  /\ messagesProcessed
       (stats (snd (onMessage Scenario.faulty Scenario.hello (Scenario.started tt))))
     <= messagesProcessed
          (stats (snd (stop {| disconnect := Ret tt; linkAfterDisconnect := false |}
                         (snd (onMessage Scenario.faulty Scenario.hello
                                 (Scenario.started tt)))))).
Proof.
  split; [vm_compute; reflexivity|].
  apply (counters_never_decrease Scenario.faulty
           (snd (onMessage Scenario.faulty Scenario.hello (Scenario.started tt)))).
  - eapply reachable_step; [apply started_reachable | apply step_message].
  - apply step_stop.
Defined.

End BotMore.

(** ** BotManager: start and stop *)

Module LifeCycleFacts.
Import Transport Logic Rules Bot BotFacts BotView.

Ltac solve_life :=
  bot_norm;
  repeat match goal with
         | |- _ /\ _ => split
         | |- _ <-> _ => split
         | |- forall _, _ => intro
         | a : unit |- _ => destruct a
         | H : _ /\ _ |- _ => destruct H
         | H : exists _, _ |- _ => destruct H
         end;
  try reflexivity; try discriminate; try congruence; eauto;
  try (rewrite last_snoc; congruence).

Section LifeCycle.
Context {Collab : Type}.

(** X20.  [start] on a running manager only logs a warning.  On a manager
    that is not running it returns normally exactly when the transport client
    is set, [connect] returns and [getBotInfo] returns, and exactly then the
    manager is running afterwards; otherwise the error (a [TypeError] when
    [initialize] never set the client) is logged and thrown again, and the
    manager is still not running.  The statistics are not touched: a restart
    does not reset the counters. *)
Theorem start_runs_or_rethrows (o : StartOracle) (bm : BotManager Collab) :
  (isRunning bm = true ->
   start o bm = (Ret tt, noted (OLog KWarning "Bot is already running" None) bm))
  /\ (isRunning bm = false ->
      (fst (start o bm) = Ret tt <-> isRunning (snd (start o bm)) = true)
      /\ (fst (start o bm) = Ret tt <->
          facebookAPI bm <> None /\ connect o = Ret tt /\ exists info, getBotInfo o = Ret info)
      /\ (facebookAPI bm = None -> fst (start o bm) = Throw (nullDeref "connect"))
      /\ (forall e, fst (start o bm) = Throw e ->
            last (trace (snd (start o bm)))
            = Some (OLog KError "Failed to start bot:" (Some e))))
  /\ stats (snd (start o bm)) = stats bm.
Proof.
  split; [|split].
  - intros Hrun. apply wp_equation. unfold start. repeat bot_step. reflexivity.
  - intros Hrun.
    apply (wp_outcome (start o)
             (fun r bm' =>
                (r = Ret tt <-> isRunning bm' = true)
                /\ (r = Ret tt <->
                    facebookAPI bm <> None /\ connect o = Ret tt
                    /\ exists info, getBotInfo o = Ret info)
                /\ (facebookAPI bm = None -> r = Throw (nullDeref "connect"))
                /\ (forall e, r = Throw e ->
                      last (trace bm') = Some (OLog KError "Failed to start bot:" (Some e))))).
    unfold start. repeat bot_step; solve_life.
  - apply (wp_snd (start o) (fun bm' => stats bm' = stats bm)).
    unfold start. repeat bot_step; solve_life.
Qed.

(** X21.  [stop] on a manager that is not running only logs a warning and
    does not disconnect.  On a running manager it returns normally exactly
    when the transport's [disconnect] did not throw (or no client is set), and
    exactly then the manager is no longer running; when [disconnect] throws,
    the error is logged and thrown again and the manager is left marked as
    running.  The statistics are not touched. *)
Theorem stop_halts_or_rethrows (o : StopOracle) (bm : BotManager Collab) :
  (isRunning bm = false ->
   stop o bm = (Ret tt, noted (OLog KWarning "Bot is not running" None) bm))
  /\ (isRunning bm = true ->
      (fst (stop o bm) = Ret tt <-> isRunning (snd (stop o bm)) = false)
      /\ (forall e, fst (stop o bm) = Throw e <->
                    facebookAPI bm <> None /\ disconnect o = Throw e)
      /\ (forall e, fst (stop o bm) = Throw e ->
            last (trace (snd (stop o bm)))
            = Some (OLog KError "Error stopping bot:" (Some e))))
  /\ stats (snd (stop o bm)) = stats bm.
Proof.
  split; [|split].
  - intros Hrun. apply wp_equation. unfold stop. repeat bot_step. reflexivity.
  - intros Hrun.
    apply (wp_outcome (stop o)
             (fun r bm' =>
                (r = Ret tt <-> isRunning bm' = false)
                /\ (forall e, r = Throw e <->
                              facebookAPI bm <> None /\ disconnect o = Throw e)
                /\ (forall e, r = Throw e ->
                      last (trace bm') = Some (OLog KError "Error stopping bot:" (Some e))))).
    unfold stop. repeat bot_step; solve_life.
  - apply (wp_snd (stop o) (fun bm' => stats bm' = stats bm)).
    unfold stop. repeat bot_step; solve_life.
Qed.

(** X25.  [initialize] returns normally exactly when the four awaited
    initialisations (security manager, transport client, command manager,
    event manager) return; all six managers are then set.  Otherwise the
    error of the first initialisation that failed is logged and thrown again,
    the message handler is left as it was ([null] on a new manager), and the
    managers constructed before the failing step stay set while the later
    ones are left as they were: the security manager is set in every case,
    the rate limiter and the transport client once the security manager was
    initialised, the command manager once the transport client was
    initialised too, and the event manager once the command manager was.
    Neither the statistics nor [isRunning] change. *)
Theorem initialize_sets_the_handler_last (o : InitOracle) (bm : BotManager Collab) :
  (fst (initialize o bm) = Ret tt <->
   securityInit o = Ret tt /\ facebookInit o = Ret tt
   /\ commandInit o = Ret tt /\ eventInit o = Ret tt)
  /\ (fst (initialize o bm) = Ret tt ->
      securityManager (snd (initialize o bm)) = true
      /\ rateLimiter (snd (initialize o bm)) = true
      /\ facebookAPI (snd (initialize o bm)) = Some (newFacebookAPI o)
      /\ commandManager (snd (initialize o bm)) = true
      /\ eventManager (snd (initialize o bm)) = true
      /\ messageHandler (snd (initialize o bm)) = true)
  /\ (forall e, fst (initialize o bm) = Throw e ->
        messageHandler (snd (initialize o bm)) = messageHandler bm
        /\ securityManager (snd (initialize o bm)) = true
        /\ (securityInit o = Ret tt -> facebookInit o = Throw e ->
            facebookAPI (snd (initialize o bm)) = Some (newFacebookAPI o))
        /\ last (trace (snd (initialize o bm)))
           = Some (OLog KError "Failed to initialize BotManager:" (Some e)))
  /\ stats (snd (initialize o bm)) = stats bm
  /\ isRunning (snd (initialize o bm)) = isRunning bm
  /\ (forall e, securityInit o = Throw e ->
        fst (initialize o bm) = Throw e
        /\ rateLimiter (snd (initialize o bm)) = rateLimiter bm
        /\ facebookAPI (snd (initialize o bm)) = facebookAPI bm
        /\ commandManager (snd (initialize o bm)) = commandManager bm
        /\ eventManager (snd (initialize o bm)) = eventManager bm)
  /\ (forall e, securityInit o = Ret tt -> facebookInit o = Throw e ->
        fst (initialize o bm) = Throw e
        /\ rateLimiter (snd (initialize o bm)) = true
        /\ facebookAPI (snd (initialize o bm)) = Some (newFacebookAPI o)
        /\ commandManager (snd (initialize o bm)) = commandManager bm
        /\ eventManager (snd (initialize o bm)) = eventManager bm)
  /\ (forall e, securityInit o = Ret tt -> facebookInit o = Ret tt ->
        commandInit o = Throw e ->
        fst (initialize o bm) = Throw e
        /\ rateLimiter (snd (initialize o bm)) = true
        /\ facebookAPI (snd (initialize o bm)) = Some (newFacebookAPI o)
        /\ commandManager (snd (initialize o bm)) = true
        /\ eventManager (snd (initialize o bm)) = eventManager bm)
  /\ (forall e, securityInit o = Ret tt -> facebookInit o = Ret tt ->
        commandInit o = Ret tt -> eventInit o = Throw e ->
        fst (initialize o bm) = Throw e
        /\ rateLimiter (snd (initialize o bm)) = true
        /\ facebookAPI (snd (initialize o bm)) = Some (newFacebookAPI o)
        /\ commandManager (snd (initialize o bm)) = true
        /\ eventManager (snd (initialize o bm)) = true).
Proof.
  apply (wp_outcome (initialize o)
           (fun r bm' =>
              (r = Ret tt <->
               securityInit o = Ret tt /\ facebookInit o = Ret tt
               /\ commandInit o = Ret tt /\ eventInit o = Ret tt)
              /\ (r = Ret tt ->
                  securityManager bm' = true /\ rateLimiter bm' = true
                  /\ facebookAPI bm' = Some (newFacebookAPI o)
                  /\ commandManager bm' = true /\ eventManager bm' = true
                  /\ messageHandler bm' = true)
              /\ (forall e, r = Throw e ->
                    messageHandler bm' = messageHandler bm
                    /\ securityManager bm' = true
                    /\ (securityInit o = Ret tt -> facebookInit o = Throw e ->
                        facebookAPI bm' = Some (newFacebookAPI o))
                    /\ last (trace bm')
                       = Some (OLog KError "Failed to initialize BotManager:" (Some e)))
              /\ stats bm' = stats bm
              /\ isRunning bm' = isRunning bm
              /\ (forall e, securityInit o = Throw e ->
                    r = Throw e
                    /\ rateLimiter bm' = rateLimiter bm
                    /\ facebookAPI bm' = facebookAPI bm
                    /\ commandManager bm' = commandManager bm
                    /\ eventManager bm' = eventManager bm)
              /\ (forall e, securityInit o = Ret tt -> facebookInit o = Throw e ->
                    r = Throw e
                    /\ rateLimiter bm' = true
                    /\ facebookAPI bm' = Some (newFacebookAPI o)
                    /\ commandManager bm' = commandManager bm
                    /\ eventManager bm' = eventManager bm)
              /\ (forall e, securityInit o = Ret tt -> facebookInit o = Ret tt ->
                    commandInit o = Throw e ->
                    r = Throw e
                    /\ rateLimiter bm' = true
                    /\ facebookAPI bm' = Some (newFacebookAPI o)
                    /\ commandManager bm' = true
                    /\ eventManager bm' = eventManager bm)
              /\ (forall e, securityInit o = Ret tt -> facebookInit o = Ret tt ->
                    commandInit o = Ret tt -> eventInit o = Throw e ->
                    r = Throw e
                    /\ rateLimiter bm' = true
                    /\ facebookAPI bm' = Some (newFacebookAPI o)
                    /\ commandManager bm' = true
                    /\ eventManager bm' = true))).
  unfold initialize. repeat bot_step; solve_life.
Qed.

End LifeCycle.

(** An initialisation in which the command manager fails: the message
    handler of the new manager stays [null], the transport client is set. *)
Lemma initialize_sets_the_handler_last_witness :
  messageHandler
    (snd (initialize {| securityInit := Ret tt; newFacebookAPI := {| connected := false |};
                        facebookInit := Ret tt; commandInit := Throw Scenario.boom;
                        eventInit := Ret tt |} (construct 0 tt))) = false
  /\ fst (initialize Scenario.initOk (construct 0 tt)) = Ret tt.
Proof.
  split.
  - destruct (initialize_sets_the_handler_last
                {| securityInit := Ret tt; newFacebookAPI := {| connected := false |};
                   facebookInit := Ret tt; commandInit := Throw Scenario.boom;
                   eventInit := Ret tt |} (construct 0 tt)) as (_ & _ & Hfail & _).
    destruct (Hfail Scenario.boom eq_refl) as [-> _]. reflexivity.
  - apply (initialize_sets_the_handler_last Scenario.initOk (construct 0 tt)).
    repeat split.
Defined.

(** A manager that was never initialised cannot be started; a started one
    is running. *)
Lemma start_runs_or_rethrows_witness :
  fst (start Scenario.startOk (construct 0 tt)) = Throw (nullDeref "connect")
  /\ isRunning (snd (start Scenario.startOk
                       (snd (initialize Scenario.initOk (construct 0 tt))))) = true.
Proof.
  split.
  - apply (start_runs_or_rethrows Scenario.startOk (construct 0 tt)); reflexivity.
  - apply (start_runs_or_rethrows Scenario.startOk
             (snd (initialize Scenario.initOk (construct 0 tt)))); reflexivity.
Defined.

(** A transport that cannot be disconnected: the manager stays marked as
    running. *)
Lemma stop_halts_or_rethrows_witness :
  fst (stop {| disconnect := Throw Scenario.boom; linkAfterDisconnect := true |}
         (Scenario.started tt)) = Throw Scenario.boom
  /\ isRunning (snd (stop {| disconnect := Throw Scenario.boom; linkAfterDisconnect := true |}
                       (Scenario.started tt))) = true.
Proof.
  destruct (stop_halts_or_rethrows
              {| disconnect := Throw Scenario.boom; linkAfterDisconnect := true |}
              (Scenario.started tt)) as (_ & Hrun & _).
  destruct (Hrun eq_refl) as (Hiff & Hthrow & _).
  assert (Hfail : fst (stop {| disconnect := Throw Scenario.boom; linkAfterDisconnect := true |}
                         (Scenario.started tt)) = Throw Scenario.boom).
  { apply Hthrow. split; [discriminate|reflexivity]. }
  split; [exact Hfail|].
  apply not_false_iff_true. intros Hr.
  apply Hiff in Hr. rewrite Hfail in Hr. discriminate Hr.
Defined.

End LifeCycleFacts.

(** ** Periodic cleanup and shutdown *)

Module MaintenanceFacts.
Import Logic Bot BotView Maintenance.

Lemma wp_in_bot {Collab V A} (m : Eff (BotManager Collab) A) Q E (p : Plant Collab V) :
  wp m (fun x bm => Q x {| manager := bm; database := database p |})
       (fun e bm => E e {| manager := bm; database := database p |}) (manager p) ->
  wp (in_bot m) Q E p.
Proof.
  unfold wp, in_bot. destruct (m (manager p)) as [[x|e] bm]; exact (fun H => H).
Qed.

Lemma wp_in_database_flush {Collab V} (a : DatabaseOps.RedisAnswers) Q E (p : Plant Collab V) :
  (forall b, Q b {| manager := manager p;
                    database := snd (DatabaseOps.cacheFlush a (database p)) |}) ->
  wp (in_database (DatabaseOps.cacheFlush a)) Q E p.
Proof.
  intros H. unfold wp, in_database.
  pose proof (DatabaseMore.cacheFlush_run a (database p)) as Hrun.
  destruct (DatabaseOps.cacheFlush a (database p)) as [o d] eqn:Hflush.
  assert (Ho : exists b, o = Ret b).
  { destruct (Database.redis (database p)); [destruct (DatabaseOps.flushDb_reply a)|];
      injection Hrun as -> _; eauto. }
  destruct Ho as [b ->]. apply (H b).
Qed.

Ltac plant_norm := cbv beta iota; cbn [manager database]; BotFacts.bot_norm.

Ltac plant_step :=
  lazymatch goal with
  | |- wp (in_bot _) _ _ _ => apply wp_in_bot; plant_norm
  | |- wp (in_database (DatabaseOps.cacheFlush _)) _ _ _ =>
      apply wp_in_database_flush; intros ?; plant_norm
  | |- wp (call_check _) _ _ _ =>
      let o := fresh "o" in
      let c := fresh "c" in
      let Hm := fresh "Hm" in
      apply BotFacts.wp_call_check; intros o c Hm; BotFacts.bot_norm_in Hm;
      first [ BotFacts.known_in Hm | destruct o as [[]|] ]; plant_norm
  | |- wp (match ?x with _ => _ end) _ _ _ =>
      first [ progress (cbn [negb]; cbv beta iota) | BotFacts.case_bot x; cbn [negb] ]
  | _ => Rules.wp_core plant_norm
  end.

Lemma performCleanup_done {Collab V : Type} (cleanup : Eff Collab unit)
  (a : DatabaseOps.RedisAnswers) (p : Plant Collab V) c' :
  rateLimiter (manager p) = true ->
  cleanup (collab (manager p)) = (Ret tt, c') ->
  performCleanup cleanup a p
  = (Ret tt,
     {| manager :=
          noted (OLog KInfo "Cleanup completed" None)
            (set_collab c' (noted (OLog KInfo "Performing periodic cleanup..." None) (manager p)));
        database := snd (DatabaseOps.cacheFlush a (database p)) |}).
Proof.
  intros Hrl Hcl. apply Rules.wp_equation. unfold performCleanup.
  repeat plant_step. reflexivity.
Qed.

Lemma performCleanup_failed {Collab V : Type} (cleanup : Eff Collab unit)
  (a : DatabaseOps.RedisAnswers) (p : Plant Collab V) :
  rateLimiter (manager p) = false
  \/ (exists e c', cleanup (collab (manager p)) = (Throw e, c')) ->
  exists e bm,
    performCleanup cleanup a p
    = (Ret tt,
       {| manager := noted (OLog KError "Cleanup failed:" (Some e)) bm;
          database := database p |})
    /\ stats bm = stats (manager p)
    /\ trace bm = trace (manager p) ++ [OLog KInfo "Performing periodic cleanup..." None].
Proof.
  intros [Hrl|(e & c' & Hcl)].
  - exists (nullDeref "cleanup"),
      (noted (OLog KInfo "Performing periodic cleanup..." None) (manager p)).
    split; [|split; reflexivity].
    apply Rules.wp_equation. unfold performCleanup. repeat plant_step. reflexivity.
  - destruct (rateLimiter (manager p)) eqn:Hrl.
    + exists e,
        (set_collab c' (noted (OLog KInfo "Performing periodic cleanup..." None) (manager p))).
      split; [|split; reflexivity].
      apply Rules.wp_equation. unfold performCleanup. repeat plant_step. reflexivity.
    + exists (nullDeref "cleanup"),
        (noted (OLog KInfo "Performing periodic cleanup..." None) (manager p)).
      split; [|split; reflexivity].
      apply Rules.wp_equation. unfold performCleanup. repeat plant_step. reflexivity.
Qed.

(** X22.  The hourly cleanup never throws and leaves the statistics as they
    are.  When the rate limiter's cleanup returns and Redis answers the flush
    with OK, the whole cache is emptied: no session of the [ai] command is
    mirrored any more, whatever its age.  When the rate limiter is not set or
    its cleanup throws, the failure is logged and the cache is not flushed. *)
Theorem cleanup_flushes_the_mirror {Collab : Type} (cleanup : Eff Collab unit)
  (a : DatabaseOps.RedisAnswers) (p : Plant Collab Ai.Conversation) :
  fst (performCleanup cleanup a p) = Ret tt
  /\ stats (manager (snd (performCleanup cleanup a p))) = stats (manager p)
  /\ (forall c',
        rateLimiter (manager p) = true ->
        cleanup (collab (manager p)) = (Ret tt, c') ->
        DatabaseOps.flushDb_reply a = Ret "OK" ->
        forall cid w,
          Ai.db w = database (snd (performCleanup cleanup a p)) -> mirrored cid w = None)
  /\ (rateLimiter (manager p) = false
      \/ (exists e c', cleanup (collab (manager p)) = (Throw e, c')) ->
      database (snd (performCleanup cleanup a p)) = database p
      /\ errorLines (trace (manager (snd (performCleanup cleanup a p))))
         = S (errorLines (trace (manager p)))).
Proof.
  assert (Hcases : (exists c', rateLimiter (manager p) = true
                               /\ cleanup (collab (manager p)) = (Ret tt, c'))
                   \/ (rateLimiter (manager p) = false
                       \/ (exists e c', cleanup (collab (manager p)) = (Throw e, c')))).
  { destruct (rateLimiter (manager p)); [|auto].
    destruct (cleanup (collab (manager p))) as [[[]|e] c']; eauto 6. }
  destruct Hcases as [(c1 & Hrl & Hcl)|Hfail].
  - rewrite (performCleanup_done cleanup a p c1 Hrl Hcl). cbn [fst snd manager database].
    split; [reflexivity|]. split; [reflexivity|]. split.
    + intros c' _ _ Hok cid w Hw. unfold mirrored.
      rewrite DatabaseMore.cacheGet_value, Hw, DatabaseMore.cacheFlush_run.
      destruct (Database.redis (database p)) as [c|]; [|reflexivity].
      rewrite Hok. cbn.
      destruct (Database.get_fault c (mirrorKey cid)); [reflexivity|]. apply lookup_empty.
    + intros [Hno|(e & c' & Hno)]; congruence.
  - destruct (performCleanup_failed cleanup a p Hfail) as (e & bm & -> & Hstats & Htrace).
    cbn [fst snd manager database]. unfold noted. BotFacts.bot_norm.
    split; [reflexivity|]. split; [exact Hstats|]. split.
    + intros c' Hrl Hcl. destruct Hfail as [Hno|(e0 & c0 & Hno)]; congruence.
    + intros _. split; [reflexivity|].
      rewrite Htrace, !BotMore.errorLines_app. cbn. lia.
Qed.

(** After the exchange of sender 100 was mirrored, the cleanup runs: the
    mirror holds no session. *)
Lemma cleanup_flushes_the_mirror_witness :
  (length <$> (Ai.messages <$> mirrored "7_100" Observations.mirroredExchange)) = Some 2
  /\ forall w,
       Ai.db w
       = database (snd (performCleanup (Collab:=unit) (mret tt)
                          {| DatabaseOps.del_fault := fun _ => None;
                             DatabaseOps.flushDb_reply := Ret "OK";
                             DatabaseOps.ping_reply := Ret "PONG" |}
                          {| manager := Scenario.started tt;
                             database := Ai.db Observations.mirroredExchange |})) ->
       mirrored "7_100" w = None.
Proof.
  split; [vm_compute; reflexivity|].
  intros w Hw.
  destruct (cleanup_flushes_the_mirror (Collab:=unit) (mret tt)
              {| DatabaseOps.del_fault := fun _ => None;
                 DatabaseOps.flushDb_reply := Ret "OK";
                 DatabaseOps.ping_reply := Ret "PONG" |}
              {| manager := Scenario.started tt;
                 database := Ai.db Observations.mirroredExchange |}) as (_ & _ & Hflush & _).
  exact (Hflush tt eq_refl eq_refl eq_refl "7_100" w Hw).
Defined.

End MaintenanceFacts.

Module ShutdownFacts.
Import Bot EnhancedSecretBot.

Ltac app_run :=
  unfold stop, stopManager, disconnectDatabase, logger,
    mbind, eff_bind, bind, gets, try_catch, modify, mret, eff_ret, ret, throw;
  cbn [fst snd isRunning botManager databaseManager applog].

(** X23.  [stop] of the application never throws and always leaves
    [isRunning] false.  When the manager's [stop] throws, the error is logged
    and the database manager is not disconnected; when there is no manager or
    its [stop] returns, the database manager is disconnected and the success
    line is logged. *)
Theorem shutdown_skips_the_database_on_failure {Collab : Type}
  (so : StopOracle) (dc : DatabaseOps.DisconnectOracle) (a : App Collab) :
  fst (stop so dc a) = Ret tt
  /\ isRunning (snd (stop so dc a)) = false
  /\ (forall bm e,
        botManager a = Some bm ->
        fst (Bot.stop so bm) = Throw e ->
        databaseManager (snd (stop so dc a)) = databaseManager a
        /\ applog (snd (stop so dc a))
           = applog a ++ [(KError, "Error stopping bot:", Some e)])
  /\ (botManager a = None \/ (exists bm, botManager a = Some bm /\ fst (Bot.stop so bm) = Ret tt) ->
      databaseManager (snd (stop so dc a))
      = snd (DatabaseOps.disconnect dc (databaseManager a))
      /\ applog (snd (stop so dc a))
         = applog a ++ [(KInfo, "Bot stopped successfully", None)]).
Proof.
  destruct a as [run [bm|] conn lg]; app_run.
  - destruct (Bot.stop so bm) as [[[]|e] bm'] eqn:Hstop; cbn [fst snd isRunning botManager
      databaseManager applog].
    + pose proof (ConnectionFacts.disconnect_returns dc conn) as Hd.
      destruct (DatabaseOps.disconnect dc conn) as [[[]|e] conn'] eqn:Hdisc;
        [|discriminate Hd].
      cbn. split; [reflexivity|]. split; [reflexivity|]. split.
      * intros bm0 e [= <-]. rewrite Hstop. discriminate.
      * intros _. split; reflexivity.
    + cbn. split; [reflexivity|]. split; [reflexivity|]. split.
      * intros bm0 e0 [= <-]. rewrite Hstop. cbn. intros [= <-]. split; reflexivity.
      * intros [Hno|(bm0 & [= <-] & Hno)]; [discriminate|].
        rewrite Hstop in Hno. discriminate.
  - pose proof (ConnectionFacts.disconnect_returns dc conn) as Hd.
    destruct (DatabaseOps.disconnect dc conn) as [[[]|e] conn'] eqn:Hdisc;
      [|discriminate Hd].
    cbn. split; [reflexivity|]. split; [reflexivity|]. split.
    + intros bm e Hno. discriminate.
    + intros _. split; reflexivity.
Qed.

(** The transport cannot be disconnected: the application's [stop] returns,
    and the database stays connected. *)
Lemma shutdown_skips_the_database_on_failure_witness :
  DatabaseOps.isConnected
    (databaseManager
       (snd (stop {| disconnect := Throw Scenario.boom; linkAfterDisconnect := true |}
               {| DatabaseOps.mongoDisconnect := Ret tt; DatabaseOps.disconnectedListeners := 1;
                 DatabaseOps.redisDisconnect := Ret tt |}
               {| isRunning := true; botManager := Some (Scenario.started tt);
                  databaseManager :=
                    {| DatabaseOps.mongooseSet := true; DatabaseOps.redisSet := false;
                       DatabaseOps.isConnected := true; DatabaseOps.connectionRetries := 0;
                       DatabaseOps.scheduled := []; DatabaseOps.attempts := [];
                      DatabaseOps.journal := [] |};
                  applog := [] |}))) = true.
Proof.
  destruct (shutdown_skips_the_database_on_failure
              {| disconnect := Throw Scenario.boom; linkAfterDisconnect := true |}
              {| DatabaseOps.mongoDisconnect := Ret tt; DatabaseOps.disconnectedListeners := 1;
                 DatabaseOps.redisDisconnect := Ret tt |}
              {| isRunning := true; botManager := Some (Scenario.started tt);
                 databaseManager :=
                   {| DatabaseOps.mongooseSet := true; DatabaseOps.redisSet := false;
                      DatabaseOps.isConnected := true; DatabaseOps.connectionRetries := 0;
                      DatabaseOps.scheduled := []; DatabaseOps.attempts := [];
                      DatabaseOps.journal := [] |};
                 applog := [] |}) as (_ & _ & Hfail & _).
  destruct (Hfail (Scenario.started tt) Scenario.boom eq_refl eq_refl) as [-> _].
  reflexivity.
Defined.

End ShutdownFacts.

(** ** The [ai] command: further properties *)

Module AiMore.
Import Transport Logic Rules Ai AiFacts AiPaths Observations AiView.

Ltac solve_rejected :=
  cbv beta iota;
  try match goal with
      | |- match ?x with _ => _ end => destruct x eqn:?
      end;
  unfold rejected_reply; norm_world;
  first [ exact I
        | eexists; split; [eassumption | apply last_snoc] ].

Lemma onStart_try_rejected cm env event args w :
  wp (onStart_try cm env event args)
    (fun c w' => match c with
                 | Some (Throw e) => rejected_reply env (Throw e) w'
                 | _ => True
                 end)
    (fun _ _ => True) w.
Proof.
  unfold onStart_try. repeat wp_step; solve_rejected.
Qed.

Lemma onReply_try_rejected cm env event R w :
  wp (onReply_try cm env event R)
    (fun c w' => match c with
                 | Some (Throw e) => rejected_reply env (Throw e) w'
                 | _ => True
                 end)
    (fun _ _ => True) w.
Proof.
  unfold onReply_try. repeat wp_step; solve_rejected.
Qed.

(** X1.  The handlers of the command end with an error only when a reply
    they made was rejected: every other failure (configuration, client,
    typing indicator, model call, cache) is caught inside the command.  The
    rejected reply is then the last call of the handler. *)
Theorem handlers_throw_only_rejected_replies cm env event w :
  (forall args, rejected_reply env (fst (onStart cm env event args w))
                               (snd (onStart cm env event args w)))
  /\ (forall R, rejected_reply env (fst (onReply cm env event R w))
                               (snd (onReply cm env event R w))).
Proof.
  split.
  - intros args. apply (wp_outcome (onStart cm env event args) (rejected_reply env)).
    unfold onStart. apply wp_bind, wp_try.
    eapply wp_mono; [apply onStart_try_rejected | |]; cbv beta.
    + intros c w' Hc. repeat wp_step; try exact I. exact Hc.
    + intros e w' _. repeat wp_step; solve_rejected.
  - intros R. apply (wp_outcome (onReply cm env event R) (rejected_reply env)).
    unfold onReply. apply wp_bind, wp_try.
    eapply wp_mono; [apply onReply_try_rejected | |]; cbv beta.
    + intros c w' Hc. repeat wp_step; try exact I. exact Hc.
    + intros e w' _. repeat wp_step; solve_rejected.
Qed.

(** A rejected reply at work: without an API key, on a transport that
    rejects the reply, [onStart] ends with the transport's error. *)
Lemma handlers_throw_only_rejected_replies_witness :
  fst (onStart keyless rejecting Scenario.hello ["hello"] (initial Scenario.noRedis))
  = Throw Scenario.boom
  /\ rejected_reply rejecting
       (fst (onStart keyless rejecting Scenario.hello ["hello"] (initial Scenario.noRedis)))
       (snd (onStart keyless rejecting Scenario.hello ["hello"] (initial Scenario.noRedis))).
Proof.
  split; [vm_compute; reflexivity|].
  apply (proj1 (handlers_throw_only_rejected_replies keyless rejecting Scenario.hello
                  (initial Scenario.noRedis))).
Defined.

Ltac solve_registry :=
  cbv beta iota; norm_world; unfold registerReply;
  try match goal with
      | |- context [match ?x with _ => _ end] => destruct x
      end;
  norm_world; rewrite ?dom_insert_L; set_solver.

Lemma onStart_try_registry cm env event args w :
  wp (onStart_try cm env event args)
    (fun _ w' => dom (GoatBot_onReply w) ⊆ dom (GoatBot_onReply w'))
    (fun _ w' => dom (GoatBot_onReply w) ⊆ dom (GoatBot_onReply w')) w.
Proof.
  unfold onStart_try. repeat wp_step; solve_registry.
Qed.

Lemma onReply_try_registry cm env event R w :
  wp (onReply_try cm env event R)
    (fun _ w' => dom (GoatBot_onReply w) ⊆ dom (GoatBot_onReply w'))
    (fun _ w' => dom (GoatBot_onReply w) ⊆ dom (GoatBot_onReply w')) w.
Proof.
  unfold onReply_try. repeat wp_step; solve_registry.
Qed.

(** X2.  The command never removes a pending continuation: every message
    identifier registered in [global.GoatBot.onReply] before a run of
    [onStart] or [onReply] is still registered after it, also after the
    reply "clear" and after a continuation was used. *)
Theorem continuations_are_never_consumed cm env event w :
  (forall args,
     dom (GoatBot_onReply w) ⊆ dom (GoatBot_onReply (snd (onStart cm env event args w))))
  /\ (forall R,
        dom (GoatBot_onReply w) ⊆ dom (GoatBot_onReply (snd (onReply cm env event R w)))).
Proof.
  split.
  - intros args.
    apply (wp_snd (onStart cm env event args)
             (fun w' => dom (GoatBot_onReply w) ⊆ dom (GoatBot_onReply w'))).
    unfold onStart. apply wp_bind, wp_try.
    eapply wp_mono; [apply onStart_try_registry | |]; cbv beta;
      intros ? w' Hw'; repeat wp_step; norm_world; exact Hw'.
  - intros R.
    apply (wp_snd (onReply cm env event R)
             (fun w' => dom (GoatBot_onReply w) ⊆ dom (GoatBot_onReply w'))).
    unfold onReply. apply wp_bind, wp_try.
    eapply wp_mono; [apply onReply_try_registry | |]; cbv beta;
      intros ? w' Hw'; repeat wp_step; norm_world; exact Hw'.
Qed.

Lemma modelCalls_app (t u : list Effect) :
  modelCalls (t ++ u) = modelCalls t ++ modelCalls u.
Proof. apply omap_app. Qed.


Lemma turns_kept_refl m : turns_kept m m.
Proof. intros k c Hc. eauto. Qed.

Lemma turns_kept_delete m m' k : turns_kept m m' -> turns_kept m (delete k m').
Proof.
  intros H j c Hc. apply lookup_delete_Some in Hc as [_ Hc]. apply (H j c Hc).
Qed.

Lemma turns_kept_insert m m' k c c' :
  turns_kept m m' -> m' !! k = Some c -> messages c' = messages c ->
  turns_kept m (<[k := c']> m').
Proof.
  intros H Hk Hm j x Hx.
  apply lookup_insert_Some in Hx as [[<- <-]|[_ Hx]].
  - destruct (H k c Hk) as (c0 & Hc0 & Hmsg). exists c0. split; [exact Hc0|]. congruence.
  - apply (H j x Hx).
Qed.

Lemma same_turns_kept w w' :
  turns_kept (conversations w) (conversations w') -> same_turns w w'.
Proof. exact (fun H => H). Qed.

Ltac solve_quiet H :=
  cbv beta iota; norm_world;
  try match goal with
      | |- match ?x with _ => _ end => destruct x
      end;
  let Hcalls := fresh "Hcalls" in
  let Hturns := fresh "Hturns" in
  destruct H as [Hcalls Hturns]; split;
  [ norm_world; rewrite ?modelCalls_app; cbn [modelCalls omap list_omap app];
    rewrite ?app_nil_r; exact Hcalls
  | apply same_turns_kept; norm_world;
    repeat first
      [ exact Hturns
      | apply turns_kept_delete
      | eapply turns_kept_insert; [ | eassumption | reflexivity ] ] ].

Lemma subcommand_cases env args cid h :
  subcommand env args cid = Some h ->
  h = clearConversation env cid
  \/ (exists name, h = switchModel env name cid)
  \/ (exists prompt, h = setSystemPrompt env prompt cid)
  \/ h = showHelp env.
Proof.
  unfold subcommand. destruct args as [|a0 rest]; [discriminate|].
  destruct (nonempty a0); [|discriminate].
  destruct (String.eqb (toLowerCase a0) "clear"); [intros [= <-]; auto|].
  destruct (String.eqb (toLowerCase a0) "model"); [intros [= <-]; eauto|].
  destruct (String.eqb (toLowerCase a0) "system"); [intros [= <-]; eauto 6|].
  destruct (String.eqb (toLowerCase a0) "help"); [intros [= <-]; auto|discriminate].
Qed.

Lemma helper_quiet env cid h w0 w :
  h = clearConversation env cid
  \/ (exists name, h = switchModel env name cid)
  \/ (exists prompt, h = setSystemPrompt env prompt cid)
  \/ h = showHelp env ->
  quiet w0 w ->
  wp h (fun _ => quiet w0) (fun _ => quiet w0) w.
Proof.
  intros [->|[[name ->]|[[prompt ->]| ->]]] Hq; repeat wp_step; solve_quiet Hq.
Qed.

Lemma quiet_refl w : quiet w w.
Proof. split; [reflexivity | apply same_turns_kept, turns_kept_refl]. Qed.

Lemma onStart_try_quiet cm env event args h w :
  subcommand env args (threadID event +:+ "_" +:+ senderID event) = Some h ->
  wp (onStart_try cm env event args) (fun _ => quiet w) (fun _ => quiet w) w.
Proof.
  intros Hsub. pose proof (quiet_refl w) as Hq.
  pose proof (subcommand_cases _ _ _ _ Hsub) as Hcases.
  unfold onStart_try. repeat wp_go.
  all: try solve_quiet Hq.
  eapply wp_mono; [eapply helper_quiet; [exact Hcases | solve_quiet Hq] | |];
    cbv beta; intros ? w' Hw'; repeat wp_step; exact Hw'.
Qed.

Lemma same_but_settings_refl c : same_but_settings c c.
Proof. repeat split. Qed.

Lemma only_settings_refl cid w : only_settings cid w w.
Proof.
  split; [reflexivity|]. split; [|split; reflexivity].
  intros c Hc. exists c. split; [exact Hc|apply same_but_settings_refl].
Qed.

Lemma only_settings_delete cid w f g d t m :
  only_settings cid w {| conversations := m; GoatBot_onReply := f; db := d; trace := g |} ->
  only_settings cid w
    {| conversations := delete cid m; GoatBot_onReply := f; db := d; trace := t |}.
Proof.
  intros (Hother & _ & Hreg & Hdb). cbn in *. split; [|split; [|split; assumption]].
  - intros k Hk. cbn. rewrite lookup_delete_ne by congruence. apply Hother, Hk.
  - intros c'. cbn. rewrite lookup_delete_eq. discriminate.
Qed.

Lemma only_settings_insert cid w f g d t m c c' :
  only_settings cid w {| conversations := m; GoatBot_onReply := f; db := d; trace := g |} ->
  m !! cid = Some c ->
  same_but_settings c c' ->
  only_settings cid w
    {| conversations := <[cid := c']> m; GoatBot_onReply := f; db := d; trace := t |}.
Proof.
  intros (Hother & Hsame & Hreg & Hdb) Hc Hset. cbn in *.
  split; [|split; [|split; assumption]].
  - intros k Hk. cbn. rewrite lookup_insert_ne by congruence. apply Hother, Hk.
  - intros x. cbn. rewrite lookup_insert_eq. intros [= <-].
    destruct (Hsame c Hc) as (c0 & Hc0 & H0). exists c0. split; [exact Hc0|].
    unfold same_but_settings in *. intuition congruence.
Qed.

Lemma only_settings_trace cid w f g d t m :
  only_settings cid w {| conversations := m; GoatBot_onReply := f; db := d; trace := g |} ->
  only_settings cid w {| conversations := m; GoatBot_onReply := f; db := d; trace := t |}.
Proof. intros H. exact H. Qed.

Ltac solve_settings H :=
  cbv beta iota; norm_world;
  try match goal with
      | |- match ?x with _ => _ end => destruct x
      end;
  norm_world;
  first
    [ exact H
    | eapply only_settings_trace; exact H
    | eapply only_settings_delete; exact H
    | eapply only_settings_insert; [ exact H | eassumption | repeat split ] ].

Lemma helper_settings env cid h w0 w :
  h = clearConversation env cid
  \/ (exists name, h = switchModel env name cid)
  \/ (exists prompt, h = setSystemPrompt env prompt cid)
  \/ h = showHelp env ->
  only_settings cid w0 w ->
  wp h (fun _ => only_settings cid w0) (fun _ => only_settings cid w0) w.
Proof.
  intros [->|[[name ->]|[[prompt ->]| ->]]] Hq; destruct w; repeat wp_step;
    solve_settings Hq.
Qed.

Lemma onStart_try_settings cm env event args h w :
  subcommand env args (threadID event +:+ "_" +:+ senderID event) = Some h ->
  wp (onStart_try cm env event args)
     (fun _ => only_settings (threadID event +:+ "_" +:+ senderID event) w)
     (fun _ => only_settings (threadID event +:+ "_" +:+ senderID event) w) w.
Proof.
  intros Hsub.
  pose proof (only_settings_refl (threadID event +:+ "_" +:+ senderID event) w) as Hq.
  pose proof (subcommand_cases _ _ _ _ Hsub) as Hcases.
  unfold onStart_try. repeat wp_go.
  all: try (destruct w; solve_settings Hq).
  eapply wp_mono; [eapply helper_settings; [exact Hcases | destruct w; solve_settings Hq] | |];
    cbv beta; intros ? w' Hw'; repeat wp_step; exact Hw'.
Qed.

Lemma subcommand_clear env a0 rest cid :
  toLowerCase a0 = "clear" ->
  subcommand env (a0 :: rest) cid = Some (clearConversation env cid).
Proof.
  intros H. unfold subcommand.
  assert (Hne : nonempty a0 = true) by (destruct a0; [discriminate H|reflexivity]).
  rewrite Hne, H. reflexivity.
Qed.

Lemma subcommand_help env a0 rest cid :
  toLowerCase a0 = "help" ->
  subcommand env (a0 :: rest) cid = Some (showHelp env).
Proof.
  intros H. unfold subcommand.
  assert (Hne : nonempty a0 = true) by (destruct a0; [discriminate H|reflexivity]).
  rewrite Hne, H. reflexivity.
Qed.

(** The outcome of a handler that returns the promise of [message.reply],
    and the end of the stepping: the final state is read off. *)
Ltac returned_reply :=
  norm_world;
  repeat match goal with
         | H : reply _ _ = _ |- _ => rewrite H
         end;
  try match goal with
      | |- context [match ?r with Ret _ => _ | Throw _ => _ end] => destruct r eqn:?
      end;
  repeat wp_go; norm_world; unfold traced; cbn; rewrite <- ?app_assoc; reflexivity.

(** X3.  The subcommands of [onStart] ([clear], [model], [system], [help],
    in any letter case) never call the language model and never add, drop or
    change a turn of a session.  They leave the sessions of every other key,
    the pending continuations and the database manager exactly as they were,
    and what is left of the sender's session is the session there was, but
    for its model and system prompt.  With an API key and a client, [clear]
    deletes the sender's session from the map, whether there was one or not,
    and answers that the history was cleared; [help] only answers. *)
Theorem subcommands_are_quiet cm env event args h w :
  subcommand env args (threadID event +:+ "_" +:+ senderID event) = Some h ->
  let cid := threadID event +:+ "_" +:+ senderID event in
  quiet w (snd (onStart cm env event args w))
  /\ only_settings cid w (snd (onStart cm env event args w))
  /\ (forall cfg a0 rest,
        args = a0 :: rest ->
        Config.getAIConfig cm = Ret cfg ->
        truthy (Config.apiKey cfg) = true ->
        newOpenAI env (Config.apiKey cfg) = Ret tt ->
        (toLowerCase a0 = "clear" ->
         onStart cm env event args w
         = (match reply env msgCleared with Ret _ => Ret tt | Throw e => Throw e end,
            traced [ENewClient (Config.apiKey cfg); EConvDelete cid; EReply msgCleared]
              (set_conversations (delete cid) w)))
        /\ (toLowerCase a0 = "help" ->
            onStart cm env event args w
            = (match reply env helpText with Ret _ => Ret tt | Throw e => Throw e end,
               traced [ENewClient (Config.apiKey cfg); EReply helpText] w))).
Proof.
  intros Hsub cid. split; [|split].
  - apply (wp_snd (onStart cm env event args) (quiet w)).
    unfold onStart. apply wp_bind, wp_try.
    eapply wp_mono; [apply (onStart_try_quiet cm env event args h w Hsub) | |]; cbv beta;
      intros ? w' Hw'; repeat wp_step; solve_quiet Hw'.
  - apply (wp_snd (onStart cm env event args) (only_settings cid w)).
    unfold onStart. apply wp_bind, wp_try.
    eapply wp_mono; [apply (onStart_try_settings cm env event args h w Hsub) | |]; cbv beta;
      intros ? w' Hw'; repeat wp_step; destruct w'; solve_settings Hw'.
  - intros cfg a0 rest -> Hcfg Hkey Hclient. clear Hsub. split.
    + intros Ha0. pose proof (subcommand_clear env a0 rest cid Ha0) as Hsub.
      apply wp_equation. unfold onStart, onStart_try. fold cid.
      repeat wp_go; returned_reply.
    + intros Ha0. pose proof (subcommand_help env a0 rest cid Ha0) as Hsub.
      apply wp_equation. unfold onStart, onStart_try. fold cid.
      repeat wp_go; returned_reply.
Qed.

(** A switch of the model in upper case: the session of sender 100 keeps its
    two turns and gets the model of the alias; "ai CLEAR" removes it. *)
Lemma subcommands_are_quiet_witness :
  quiet (Scenario.exchanges 1)
    (snd (onStart Scenario.config Scenario.answering Scenario.hello ["MODEL"; "GPT-3.5"]
            (Scenario.exchanges 1)))
  /\ (model <$> conversations
        (snd (onStart Scenario.config Scenario.answering Scenario.hello ["MODEL"; "GPT-3.5"]
                (Scenario.exchanges 1))) !! "7_100") = Some "gpt-3.5-turbo"
  /\ conversations
       (snd (onStart Scenario.config Scenario.answering Scenario.hello ["CLEAR"]
               (Scenario.exchanges 1))) !! "7_100" = None.
Proof.
  split; [|split; [vm_compute; reflexivity|]].
  - eapply (subcommands_are_quiet Scenario.config Scenario.answering Scenario.hello
              ["MODEL"; "GPT-3.5"]).
    reflexivity.
  - destruct (subcommands_are_quiet Scenario.config Scenario.answering Scenario.hello
                ["CLEAR"] (clearConversation Scenario.answering "7_100")
                (Scenario.exchanges 1) eq_refl) as (_ & _ & Hrun).
    destruct (Hrun {| Config.apiKey := Some "sk-test"; Config.model := None |}
                "CLEAR" [] eq_refl eq_refl eq_refl eq_refl) as [Hclear _].
    rewrite (Hclear eq_refl). cbn [snd]. unfold traced, set_conversations.
    cbn [conversations]. apply lookup_delete_eq.
Defined.

(** The model call of a handler, answered as a hypothesis [Hmodel] says. *)
Ltac answer_model Hmodel :=
  lazymatch goal with
  | |- wp (lift (createCompletion ?e ?m ?p)) _ _ _ =>
      apply wp_lift;
      match type of Hmodel with
      | _ = ?r => replace (createCompletion e m p) with r by (symmetry; exact Hmodel)
      end;
      cbv beta iota
  end.

(** The write to the mirrored cache, ending as [Heq] says. *)
Ltac mirror_write Heq :=
  lazymatch goal with
  | |- wp (zoom_db (Database.cacheSet _ _ _)) _ _ _ =>
      let o := fresh "o" in
      let d := fresh "d" in
      let Hm := fresh "Hm" in
      let E := fresh "E" in
      apply wp_zoom_db; intros o d Hm;
      cbn [conversations GoatBot_onReply db trace] in Hm;
      match type of Heq with
      | _ = ?r => assert (E : (o, d) = r) by (rewrite <- Hm; exact Heq)
      end;
      injection E as -> ->; clear Hm; norm_world; cbv beta iota
  end.

Ltac name_mirror_write w Heq :=
  match goal with
  | |- context [Database.cacheSet ?k ?v ?t (db w)] =>
      let b := fresh "b" in
      let d := fresh "d'" in
      destruct (DatabaseFacts.cacheSet_cases k v t (db w)) as (b & d & Heq & _);
      rewrite Heq
  end.

Lemma onStart_success cm env event args cfg answer info w :
  Config.getAIConfig cm = Ret cfg ->
  truthy (Config.apiKey cfg) = true ->
  newOpenAI env (Config.apiKey cfg) = Ret tt ->
  subcommand env args (threadID event +:+ "_" +:+ senderID event) = None ->
  nonempty (trim (join " " args)) = true ->
  sendTypingIndicator env (threadID event) = Ret tt ->
  let cid := threadID event +:+ "_" +:+ senderID event in
  let asked := {| role := User; content := trim (join " " args); timestamp := newDate env |} in
  let session := sessionOf cfg env event w in
  let kept := set_messages (trimHistory (messages session ++ [asked]))
                (set_lastUsed (newDate env) session) in
  let final := push {| role := Assistant; content := answer; timestamp := newDate env |} kept in
  createCompletion env (model session) (prepare kept) = Ret answer ->
  reply env (startResponse answer) = Ret info ->
  onStart cm env event args w
  = (Ret tt,
     {| conversations := <[cid := final]> (conversations w);
        GoatBot_onReply := registered info (senderID event) cid (GoatBot_onReply w);
        db := snd (Database.cacheSet (mirrorKey cid) final cacheTTL (db w));
        trace := trace w
                 ++ [ENewClient (Config.apiKey cfg); ETyping (threadID event); EConvGet cid]
                 ++ match conversations w !! cid with Some _ => [] | None => [EConvSet cid] end
                 ++ [EComplete (model session) (prepare kept);
                     ECacheSet (mirrorKey cid) cacheTTL;
                     EReply (startResponse answer);
                     ELogger Database.LInfo
                       ("AI command used by " +:+ senderID event +:+ " in " +:+ threadID event
                        +:+ " with model " +:+ model session) None] |}).
Proof.
  intros Hcfg Hkey Hclient Hsub Hinput Htyping. cbv zeta. unfold sessionOf, mirrorKey.
  destruct (conversations w !! (threadID event +:+ "_" +:+ senderID event)) as [c|] eqn:Hc;
    cbn [default from_option id]; intros Hmodel Hreply.
  all: name_mirror_write w Hwrite; cbn [snd].
  all: apply wp_equation; unfold onStart, onStart_try.
  all: repeat first [ answer_model Hmodel | mirror_write Hwrite | wp_go ].
  all: unfold push, registered; cbn -[trimHistory]; rewrite ?insert_insert_eq, <- ?app_assoc.
  all: reflexivity.
Qed.




(** X5.  When the Redis server accepts the write, the copy of the session
    in the mirrored cache after a successful exchange that no other
    invocation overlaps is the session in the map, assistant turn included,
    as it reads back from its JSON text: the same identifiers, model, system
    prompt and turns, with every [Date] as its ISO string (so [lastUsed] is a
    string in the mirror and a [Date] in memory). *)
Theorem mirror_follows_memory cm env event args cfg answer info w client :
  Config.getAIConfig cm = Ret cfg ->
  truthy (Config.apiKey cfg) = true ->
  newOpenAI env (Config.apiKey cfg) = Ret tt ->
  subcommand env args (threadID event +:+ "_" +:+ senderID event) = None ->
  nonempty (trim (join " " args)) = true ->
  sendTypingIndicator env (threadID event) = Ret tt ->
  let cid := threadID event +:+ "_" +:+ senderID event in
  let asked := {| role := User; content := trim (join " " args); timestamp := newDate env |} in
  let session := sessionOf cfg env event w in
  let kept := set_messages (trimHistory (messages session ++ [asked]))
                (set_lastUsed (newDate env) session) in
  createCompletion env (model session) (prepare kept) = Ret answer ->
  reply env (startResponse answer) = Ret info ->
  Database.redis (db w) = Some client ->
  Database.setEx_reply client (mirrorKey cid) = Ret "OK" ->
  Database.get_fault client (mirrorKey cid) = None ->
  mirrored cid (snd (onStart cm env event args w))
  = json <$> conversations (snd (onStart cm env event args w)) !! cid
  /\ (lastUsed <$> mirrored cid (snd (onStart cm env event args w)))
     = Some (IsoString (now env))
  /\ (lastUsed <$> conversations (snd (onStart cm env event args w)) !! cid)
     = Some (Date (now env)).
Proof.
  intros Hcfg Hkey Hclient Hsub Hinput Htyping cid asked session kept Hmodel Hreply
    Hredis Hset Hget.
  pose proof (onStart_success cm env event args cfg answer info w
                Hcfg Hkey Hclient Hsub Hinput Htyping Hmodel Hreply) as Hrun.
  cbv zeta in Hrun. fold cid asked session kept in Hrun.
  rewrite Hrun. cbn [snd conversations]. rewrite lookup_insert_eq.
  unfold mirrored. cbn [db].
  unfold Database.cacheSet, Database.cacheGet, Database.redis_setEx, Database.redis_get,
    mbind, eff_bind, bind, gets, try_catch, modify, mret, eff_ret, ret.
  rewrite Hredis. cbn. rewrite Hset. cbn. rewrite Hget. cbn.
  rewrite lookup_insert_eq. repeat split; reflexivity.
Qed.

Lemma mirror_follows_memory_witness :
  mirrored "7_100" mirroredExchange = json <$> conversations mirroredExchange !! "7_100"
  /\ (length <$> (messages <$> mirrored "7_100" mirroredExchange)) = Some 2.
Proof.
  split; [|vm_compute; reflexivity].
  apply (mirror_follows_memory Scenario.config Scenario.answering Scenario.hello ["hello"]
           {| Config.apiKey := Some "sk-test"; Config.model := None |} "hi" (Some "m1")
           (initial {| Database.redis :=
                         Some {| Database.store := ∅;
                                 Database.setEx_reply := fun _ => Ret "OK";
                                 Database.get_fault := fun _ => None |};
                       Database.dblog := [] |})
           {| Database.store := ∅;
              Database.setEx_reply := fun _ => Ret "OK";
              Database.get_fault := fun _ => None |});
    reflexivity.
Defined.










Lemma clear_is_nonempty (s : string) :
  toLowerCase s = "clear" -> nonempty s = true.
Proof. destruct s; [discriminate|reflexivity]. Qed.

Lemma onReply_clear cm env event R w :
  senderID event = author R ->
  toLowerCase (trim (body event)) = "clear" ->
  onReply cm env event R w
  = (match reply env msgCleared with Ret _ => Ret tt | Throw e => Throw e end,
     traced [EConvDelete (conversationId R); EReply msgCleared]
       (set_conversations (delete (conversationId R)) w)).
Proof.
  intros Hsender Hclear.
  assert (Hsame : String.eqb (senderID event) (author R) = true)
    by (apply String.eqb_eq, Hsender).
  pose proof (clear_is_nonempty _ Hclear) as Hinput.
  apply wp_equation. unfold onReply, onReply_try.
  rewrite Hsame, Hinput, Hclear. cbv beta iota zeta. cbn [negb String.eqb Ascii.eqb Bool.eqb].
  cbv beta iota.
  repeat wp_go; unfold traced; cbn; rewrite <- ?app_assoc; reflexivity.
Qed.

(** X8.  The reply "clear" (in any letter case, surrounded by white space
    or not, Unicode blanks included) is served without reading the
    configuration and without an [await]: it removes the
    session from the map and answers, and it leaves the mirrored cache and
    the pending continuations as they were.  A later reply to a continuation
    of that session therefore finds the session the cache holds. *)
Theorem clear_leaves_the_mirror cm env event R w :
  senderID event = author R ->
  toLowerCase (trim (body event)) = "clear" ->
  conversations (snd (onReply cm env event R w)) = delete (conversationId R) (conversations w)
  /\ db (snd (onReply cm env event R w)) = db w
  /\ GoatBot_onReply (snd (onReply cm env event R w)) = GoatBot_onReply w
  /\ trace (snd (onReply cm env event R w))
     = trace w ++ [EConvDelete (conversationId R); EReply msgCleared]
  /\ found (conversationId R) (snd (onReply cm env event R w))
     = mirrored (conversationId R) w.
Proof.
  intros Hsender Hclear. rewrite (onReply_clear cm env event R w Hsender Hclear).
  cbn [snd]. unfold traced, found, mirrored. norm_world.
  rewrite lookup_delete_eq. repeat split; reflexivity.
Qed.

(** Sender 100 replies "Clear", set in Unicode blanks, after one mirrored
    exchange: the map has no session left, and the lookup still finds the
    two turns. *)
Lemma clear_leaves_the_mirror_witness :
  conversations (snd (onReply Scenario.config Scenario.answering clearReply
                        Scenario.continuation mirroredExchange)) !! "7_100" = None
  /\ (length <$> (messages <$>
        found "7_100" (snd (onReply Scenario.config Scenario.answering clearReply
                              Scenario.continuation mirroredExchange)))) = Some 2.
Proof.
  destruct (clear_leaves_the_mirror Scenario.config Scenario.answering clearReply
              Scenario.continuation mirroredExchange eq_refl eq_refl)
    as (Hmap & _ & _ & _ & Hfound).
  split.
  - etransitivity; [exact (f_equal (fun m => m !! "7_100") Hmap)|].
    apply lookup_delete_eq.
  - etransitivity;
      [exact (f_equal (fun x => length <$> (messages <$> x)) Hfound)|].
    vm_compute. reflexivity.
Defined.

(** X9.  Without an API key (absent or empty) [onStart] answers every
    invocation, the subcommands [help] and [clear] included, with the notice
    that the key is not configured and does nothing else: no client is
    created and no session is read or changed.  When the configuration cannot
    be read, the error is logged and answered with the generic error text. *)
Theorem onStart_needs_the_api_key cm env event args w :
  (forall cfg,
     Config.getAIConfig cm = Ret cfg ->
     truthy (Config.apiKey cfg) = false ->
     onStart cm env event args w
     = (match reply env msgNoApiKey with Ret _ => Ret tt | Throw e => Throw e end,
        traced [EReply msgNoApiKey] w))
  /\ (Config.isInitialized cm = false ->
      onStart cm env event args w
      = (match reply env msgGenericError with Ret _ => Ret tt | Throw e => Throw e end,
         traced [ELogger Database.LError "AI command error:" (Some Config.notInitialized);
                 EReply msgGenericError] w)).
Proof.
  split.
  - intros cfg Hcfg Hkey. apply wp_equation. unfold onStart, onStart_try.
    repeat wp_go; unfold traced; cbn; rewrite <- ?app_assoc; reflexivity.
  - intros Hinit.
    assert (Hcfg : Config.getAIConfig cm = Throw Config.notInitialized).
    { unfold Config.getAIConfig, Config.get. rewrite Hinit. reflexivity. }
    apply wp_equation. unfold onStart, onStart_try.
    repeat (wp_go; change (errorMessage Config.notInitialized) with msgGenericError);
      unfold traced; cbn; rewrite <- ?app_assoc; reflexivity.
Qed.

(** "ai help" without a key: the help text is not sent. *)
Lemma onStart_needs_the_api_key_witness :
  Pipeline.replies (trace (snd (onStart keyless Scenario.answering Scenario.hello ["help"]
                                  (initial Scenario.noRedis)))) = [msgNoApiKey].
Proof.
  rewrite (proj1 (onStart_needs_the_api_key keyless Scenario.answering Scenario.hello ["help"]
                    (initial Scenario.noRedis))
             {| Config.apiKey := Some ""; Config.model := None |} eq_refl eq_refl).
  reflexivity.
Defined.





End AiMore.

(** ** ConfigManager: the identifier lists *)

Module ConfigListsFacts.
Import ConfigLists.

Lemma split_nonempty (s : string) : split s <> [].
Proof.
  induction s as [|c rest IH]; cbn; [discriminate|].
  destruct (Ascii.eqb c comma); [discriminate|].
  destruct (split rest); [contradiction|discriminate].
Qed.

Lemma split_length (s : string) : length (split s) = S (commas s).
Proof.
  induction s as [|c rest IH]; cbn; [reflexivity|].
  destruct (Ascii.eqb c comma); cbn; [rewrite IH; reflexivity|].
  destruct (split rest) as [|t ts] eqn:Hs; [destruct (split_nonempty rest Hs)|].
  cbn in *. exact IH.
Qed.

Lemma join_cons (sep x : string) (l : list string) :
  l <> [] -> join sep (x :: l) = x +:+ sep +:+ join sep l.
Proof. destruct l; [contradiction|reflexivity]. Qed.

Lemma split_join (s : string) : join "," (split s) = s.
Proof.
  induction s as [|c rest IH]; cbn [split]; [reflexivity|].
  destruct (Ascii.eqb_spec c comma) as [->|Hc].
  - rewrite join_cons by apply split_nonempty. rewrite IH. reflexivity.
  - destruct (split rest) as [|t ts] eqn:Hs; [destruct (split_nonempty rest Hs)|].
    destruct ts as [|u us].
    + cbn in *. rewrite IH. reflexivity.
    + rewrite join_cons by discriminate. rewrite join_cons in IH by discriminate.
      cbn [String.app]. cbn [String.app] in IH. rewrite <- IH. reflexivity.
Qed.

Lemma dropSpace_length s r : dropSpace s = Some r -> String.length r < String.length s.
Proof.
  destruct s as [|c1 [|c2 [|c3 r3]]]; cbn; repeat case_match; intros [= <-]; cbn; lia.
Qed.

Lemma trimStart_from_fuel n m s :
  String.length s <= n -> String.length s <= m -> trimStart_from n s = trimStart_from m s.
Proof.
  revert m s. induction n as [|n IH]; intros m s Hn Hm.
  - destruct s; [|cbn in Hn; lia]. destruct m; reflexivity.
  - destruct m as [|m].
    + destruct s; [reflexivity|cbn in Hm; lia].
    + cbn [trimStart_from]. destruct (dropSpace s) as [r|] eqn:Hd; [|reflexivity].
      pose proof (dropSpace_length s r Hd). apply IH; lia.
Qed.

Lemma trimStart_eq s :
  trimStart s = match dropSpace s with Some r => trimStart r | None => s end.
Proof.
  unfold trimStart. destruct (dropSpace s) as [r|] eqn:Hd.
  - pose proof (dropSpace_length s r Hd).
    destruct (String.length s) as [|n] eqn:Hs; [lia|].
    cbn [trimStart_from]. rewrite Hd. apply trimStart_from_fuel; lia.
  - destruct (String.length s); cbn [trimStart_from]; rewrite ?Hd; reflexivity.
Qed.

Lemma trimStart_ind' (P : string -> Prop) :
  (forall s, (forall r, dropSpace s = Some r -> P r) -> P s) -> forall s, P s.
Proof.
  intros H s. remember (String.length s) as n eqn:Hn.
  revert s Hn. induction (lt_wf n) as [n _ IH]. intros s ->.
  apply H. intros r Hd. apply (IH (String.length r)); [apply dropSpace_length, Hd|reflexivity].
Qed.

Lemma dropSpace_trimStart s : dropSpace (trimStart s) = None.
Proof.
  induction s as [s IH] using trimStart_ind'. rewrite trimStart_eq.
  destruct (dropSpace s) as [r|] eqn:Hd; [apply IH; reflexivity|exact Hd].
Qed.

Lemma trimStart_fixed s : dropSpace s = None -> trimStart s = s.
Proof. intros H. rewrite trimStart_eq, H. reflexivity. Qed.

Lemma trimStart_idem s : trimStart (trimStart s) = trimStart s.
Proof. apply trimStart_fixed, dropSpace_trimStart. Qed.

Lemma blank_empty : blank "" = true.
Proof. reflexivity. Qed.

Lemma trimEnd_eq c s :
  trimEnd (String c s) = if blank (String c s) then "" else String c (trimEnd s).
Proof. reflexivity. Qed.

Lemma blank_drop s r : dropSpace s = Some r -> blank s = blank r.
Proof. intros H. unfold blank. rewrite trimStart_eq, H. reflexivity. Qed.

Lemma blank_fixed s : dropSpace s = None -> blank s = String.eqb s "".
Proof. intros H. unfold blank. rewrite trimStart_fixed by exact H. reflexivity. Qed.

Lemma trimEnd_blank s : blank s = true -> trimEnd s = "".
Proof. destruct s as [|c s]; [reflexivity|]. intros H. rewrite trimEnd_eq, H. reflexivity. Qed.

Lemma append_cons c (r q : string) : String c r +:+ q = String c (r +:+ q).
Proof. reflexivity. Qed.

Lemma dropSpace_app s r q : dropSpace s = Some r -> dropSpace (s +:+ q) = Some (r +:+ q).
Proof.
  unfold dropSpace.
  destruct s as [|c1 r1]; [discriminate|]. rewrite append_cons.
  destruct (is_space c1); [intros [= <-]; reflexivity|].
  destruct r1 as [|c2 r2]; [discriminate|]. rewrite append_cons.
  destruct (is_space2 c1 c2); [intros [= <-]; reflexivity|].
  destruct r2 as [|c3 r3]; [discriminate|]. rewrite append_cons.
  destruct (is_space3 c1 c2 c3); [intros [= <-]; reflexivity|discriminate].
Qed.

Lemma blank_app s q : blank s = true -> blank q = true -> blank (s +:+ q) = true.
Proof.
  induction s as [s IH] using trimStart_ind'. intros Hs Hq.
  destruct (dropSpace s) as [r|] eqn:Hd.
  - rewrite (blank_drop _ _ (dropSpace_app s r q Hd)). apply IH; [reflexivity| |exact Hq].
    rewrite <- (blank_drop s r Hd). exact Hs.
  - rewrite (blank_fixed s Hd) in Hs. apply String.eqb_eq in Hs. subst s. exact Hq.
Qed.

Lemma trimEnd_split s : exists q, s = trimEnd s +:+ q /\ blank q = true.
Proof.
  induction s as [|c s IH]; [exists ""; split; reflexivity|].
  rewrite trimEnd_eq. destruct (blank (String c s)) eqn:Hb.
  - exists (String c s). split; [reflexivity|exact Hb].
  - destruct IH as (q & Hq & Hbq). exists q. split; [|exact Hbq].
    rewrite append_cons. f_equal. exact Hq.
Qed.

Lemma trimEnd_idem s : trimEnd (trimEnd s) = trimEnd s.
Proof.
  induction s as [|c s IH]; [reflexivity|].
  rewrite trimEnd_eq. destruct (blank (String c s)) eqn:Hb; [reflexivity|].
  rewrite trimEnd_eq, IH.
  destruct (blank (String c (trimEnd s))) eqn:Hb'; [|reflexivity].
  destruct (trimEnd_split s) as (q & Hq & Hbq).
  pose proof (blank_app _ q Hb' Hbq) as H. rewrite append_cons, <- Hq in H. congruence.
Qed.

Lemma dropSpace_trimEnd s : dropSpace s = None -> dropSpace (trimEnd s) = None.
Proof.
  intros Hd. destruct (dropSpace (trimEnd s)) as [r|] eqn:He; [|reflexivity].
  destruct (trimEnd_split s) as (q & Hq & _).
  apply (dropSpace_app _ _ q) in He. rewrite <- Hq in He. congruence.
Qed.

Lemma trim_idem s : trim (trim s) = trim s.
Proof.
  unfold trim. rewrite (trimStart_fixed (trimEnd (trimStart s))).
  - apply trimEnd_idem.
  - apply dropSpace_trimEnd, dropSpace_trimStart.
Qed.

Ltac cfg_run :=
  unfold processConfig, splitIds, lift, mbind, eff_bind, bind, gets, modify, mret, eff_ret, ret;
  cbn [fst snd ADMIN_IDS WHITELIST_IDS TELEGRAM_CHAT_ID truthyVal].

(** X26.  [processConfig] turns each of ADMIN_IDS, WHITELIST_IDS and
    TELEGRAM_CHAT_ID that is a non-empty string into the list of its
    comma-separated parts, each trimmed; a falsy value is left alone.  The
    list has one entry more than the string has commas (empty parts are kept,
    so a trailing comma yields an empty identifier), trimming an entry again
    changes nothing, and joining the untrimmed parts with commas gives the
    string back.  A value that is truthy but not a string (an array from the
    configuration file, or a list that was already processed) makes
    [processConfig] throw a [TypeError]. *)
Theorem processConfig_splits_and_trims (c : Lists) :
  (splittable (ADMIN_IDS c) -> splittable (WHITELIST_IDS c) -> splittable (TELEGRAM_CHAT_ID c) ->
   processConfig c
   = (Ret tt, {| ADMIN_IDS := processed (ADMIN_IDS c);
                 WHITELIST_IDS := processed (WHITELIST_IDS c);
                 TELEGRAM_CHAT_ID := processed (TELEGRAM_CHAT_ID c) |}))
  /\ (forall s, length (map trim (split s)) = S (commas s)
                /\ Forall (fun id => trim id = id) (map trim (split s))
                /\ join "," (split s) = s)
  /\ (truthyVal (ADMIN_IDS c) = true -> (forall s, ADMIN_IDS c <> VStr s) ->
      processConfig c = (Throw (notAFunction "ADMIN_IDS"), c)).
Proof.
  split; [|split].
  - destruct c as [a w t]. cbn [ADMIN_IDS WHITELIST_IDS TELEGRAM_CHAT_ID].
    intros Ha Hw Ht.
    assert (Hrun : forall v, splittable v ->
              (truthyVal v = true /\ exists s, v = VStr s /\ nonempty s = true)
              \/ (truthyVal v = false /\ processed v = v)).
    { intros [| |b|n|s|l] Hv; cbn in *; try (right; split; [exact Hv|reflexivity]).
      destruct (nonempty s) eqn:Hs; [left; eauto|right; eauto]. }
    destruct (Hrun a Ha) as [(Hta & sa & -> & Hsa)|(Hta & ->)];
      destruct (Hrun w Hw) as [(Htw & sw & -> & Hsw)|(Htw & ->)];
      destruct (Hrun t Ht) as [(Htt & st & -> & Hst)|(Htt & ->)];
      cfg_run; cbn [processed];
      repeat (cbn -[nonempty trim split truthyVal];
              rewrite ?Hsa, ?Hsw, ?Hst, ?Hta, ?Htw, ?Htt);
      reflexivity.
  - intros s. split; [|split].
    + rewrite length_map. apply split_length.
    + induction (split s) as [|x l IH]; cbn [map]; constructor; [apply trim_idem|exact IH].
    + apply split_join.
  - destruct c as [a w t]. cbn [ADMIN_IDS]. intros Ha Hs.
    destruct a as [| |b|n|s|l]; try discriminate Ha; try (destruct (Hs s eq_refl)).
    + cbn in Ha. subst b. reflexivity.
    + cfg_run. cbn in Ha. rewrite Ha. reflexivity.
    + reflexivity.
Qed.

(** " 100<U+00A0>,<U+3000>200," gives the identifiers "100", "200" and the
    empty one; processing the result again throws. *)
Lemma processConfig_splits_and_trims_witness :
  ADMIN_IDS (snd (processConfig {| ADMIN_IDS := VStr spacedIds; WHITELIST_IDS := VStr "";
                                   TELEGRAM_CHAT_ID := VUndefined |}))
  = VArr ["100"; "200"; ""]
  /\ fst (processConfig
            (snd (processConfig {| ADMIN_IDS := VStr spacedIds; WHITELIST_IDS := VStr "";
                                   TELEGRAM_CHAT_ID := VUndefined |})))
     = Throw (notAFunction "ADMIN_IDS").
Proof.
  destruct (processConfig_splits_and_trims
              {| ADMIN_IDS := VStr spacedIds; WHITELIST_IDS := VStr "";
                 TELEGRAM_CHAT_ID := VUndefined |}) as (Hrun & _ & _).
  specialize (Hrun I I eq_refl). cbn [ADMIN_IDS WHITELIST_IDS TELEGRAM_CHAT_ID] in Hrun.
  rewrite Hrun. cbn [snd ADMIN_IDS].
  split; [vm_compute; reflexivity|].
  destruct (processConfig_splits_and_trims
              {| ADMIN_IDS := processed (VStr spacedIds);
                 WHITELIST_IDS := processed (VStr "");
                 TELEGRAM_CHAT_ID := processed VUndefined |}) as (_ & _ & Hthrow).
  rewrite Hthrow; [reflexivity|reflexivity|discriminate].
Defined.

End ConfigListsFacts.

(** ** The [ai] command: settings and empty input *)

Module AiSettings.
Import Transport Logic Rules Ai AiFacts AiPaths Observations AiView.

Lemma subcommand_model env a0 rest cid :
  toLowerCase a0 = "model" ->
  subcommand env (a0 :: rest) cid = Some (switchModel env (rest !! 0%nat) cid).
Proof.
  intros H. unfold subcommand.
  assert (Hne : nonempty a0 = true) by (destruct a0; [discriminate H|reflexivity]).
  rewrite Hne, H. reflexivity.
Qed.

Lemma subcommand_system env a0 rest cid :
  toLowerCase a0 = "system" ->
  subcommand env (a0 :: rest) cid = Some (setSystemPrompt env (join " " rest) cid).
Proof.
  intros H. unfold subcommand.
  assert (Hne : nonempty a0 = true) by (destruct a0; [discriminate H|reflexivity]).
  rewrite Hne, H. reflexivity.
Qed.

Lemma lookupModel_nonempty name target :
  lookupModel models name = Some target -> nonempty target = true.
Proof.
  unfold models. cbn [lookupModel].
  repeat match goal with
         | |- context [String.eqb ?a name] => destruct (String.eqb a name)
         end;
    intros [= <-]; reflexivity.
Qed.

Ltac settle_reply :=
  unfold traced; cbn [model set_model] in *;
  repeat match goal with
         | H : reply _ _ = _ |- _ => rewrite H; clear H
         end;
  cbn; rewrite <- ?app_assoc; reflexivity.

(** X27.  The subcommands [model] and [system] change one field of the
    sender's session and nothing else.  [model <name>] with a name of the
    table (in any letter case) sets the session's model to the table's target
    for it; [system <prompt>] with a non-empty prompt sets the system prompt
    to the words after the subcommand joined by spaces.  In both cases the
    turns and every other session are untouched and the change is confirmed
    in the only reply.  A name that is not in the table, or no name at all,
    changes nothing and is answered with the list of the models (the two
    lower-case names that every object inherits, [constructor] and
    [__proto__], are left aside: the table is modelled by its own keys). *)
Theorem settings_change_one_field cm env event cfg a0 rest c w :
  Config.getAIConfig cm = Ret cfg ->
  truthy (Config.apiKey cfg) = true ->
  newOpenAI env (Config.apiKey cfg) = Ret tt ->
  let cid := threadID event +:+ "_" +:+ senderID event in
  conversations w !! cid = Some c ->
  (forall name target,
     toLowerCase a0 = "model" ->
     rest !! 0%nat = Some name ->
     nonempty name = true ->
     lookupModel models (toLowerCase name) = Some target ->
     onStart cm env event (a0 :: rest) w
     = (match reply env ("🔧 Model switched to: " +:+ target) with
        | Ret _ => Ret tt
        | Throw e => Throw e
        end,
        traced [ENewClient (Config.apiKey cfg); EConvGet cid;
                EReply ("🔧 Model switched to: " +:+ target)]
          (set_conversations (insert cid (set_model target c)) w)))
  /\ (toLowerCase a0 = "model" ->
      toLowerCase (default "" (rest !! 0%nat)) ∉ inheritedNames ->
      (if truthy (rest !! 0%nat) then lookupModel models (toLowerCase (default "" (rest !! 0%nat)))
       else None) = None ->
      onStart cm env event (a0 :: rest) w
      = (match reply env ("🤖 Available models: " +:+ join ", " (map fst models)) with
         | Ret _ => Ret tt
         | Throw e => Throw e
         end,
         traced [ENewClient (Config.apiKey cfg);
                 EReply ("🤖 Available models: " +:+ join ", " (map fst models))] w))
  /\ (toLowerCase a0 = "system" ->
      nonempty (join " " rest) = true ->
      onStart cm env event (a0 :: rest) w
      = (match reply env msgPromptUpdated with Ret _ => Ret tt | Throw e => Throw e end,
         traced [ENewClient (Config.apiKey cfg); EConvGet cid; EReply msgPromptUpdated]
           (set_conversations (insert cid (set_systemPrompt (join " " rest) c)) w))).
Proof.
  intros Hcfg Hkey Hclient cid Hc. split; [|split].
  - intros name target Ha0 Hname Hne Htarget.
    pose proof (subcommand_model env a0 rest cid Ha0) as Hsub.
    pose proof (lookupModel_nonempty _ _ Htarget) as Hnt.
    assert (Htruthy : truthy (rest !! 0%nat) = true) by (rewrite Hname; exact Hne).
    assert (Hlook : lookupModel models (toLowerCase (default "" (rest !! 0%nat))) = Some target)
      by (rewrite Hname; exact Htarget).
    apply wp_equation. unfold onStart, onStart_try. fold cid.
    repeat wp_go; settle_reply.
  - intros Ha0 _ Hnone.
    pose proof (subcommand_model env a0 rest cid Ha0) as Hsub.
    apply wp_equation. unfold onStart, onStart_try. fold cid.
    destruct (truthy (rest !! 0%nat)) eqn:Htruthy; repeat wp_go; settle_reply.
  - intros Ha0 Hprompt.
    pose proof (subcommand_system env a0 rest cid Ha0) as Hsub.
    apply wp_equation. unfold onStart, onStart_try. fold cid.
    repeat wp_go; settle_reply.
Qed.

(** "ai MODEL GPT-4-Turbo" after one exchange: the session asks
    gpt-4-turbo-preview from then on and keeps its two turns. *)
Lemma settings_change_one_field_witness :
  (model <$> conversations
     (snd (onStart Scenario.config Scenario.answering Scenario.hello ["MODEL"; "GPT-4-Turbo"]
             (Scenario.exchanges 1))) !! "7_100") = Some "gpt-4-turbo-preview"
  /\ (length <$> (messages <$> conversations
        (snd (onStart Scenario.config Scenario.answering Scenario.hello ["MODEL"; "GPT-4-Turbo"]
                (Scenario.exchanges 1))) !! "7_100")) = Some 2.
Proof.
  assert (Hc : exists c, conversations (Scenario.exchanges 1) !! "7_100" = Some c
                         /\ length (messages c) = 2).
  { eexists. split; vm_compute; reflexivity. }
  destruct Hc as (c & Hc & Hlen).
  destruct (settings_change_one_field Scenario.config Scenario.answering Scenario.hello
              {| Config.apiKey := Some "sk-test"; Config.model := None |}
              "MODEL" ["GPT-4-Turbo"] c (Scenario.exchanges 1)
              eq_refl eq_refl eq_refl Hc) as (Hmodel & _ & _).
  rewrite (Hmodel "GPT-4-Turbo" "gpt-4-turbo-preview" eq_refl eq_refl eq_refl eq_refl).
  cbn [snd]. unfold traced, set_conversations. cbn [conversations].
  rewrite lookup_insert_eq. cbn. rewrite Hlen. split; reflexivity.
Defined.

(** X28.  Empty input is answered with a prompt and nothing else.  When
    the words after the command are empty or white space only (the blanks of
    Unicode that [trim] strips included), [onStart]
    creates the client, asks for a message, and neither reads nor creates a
    session; when the body of a reply is empty or white space only, [onReply]
    asks for a message without reading the configuration.  In both cases the
    language model is not called and the sessions and the cache are as
    before. *)
Theorem empty_input_is_only_prompted cm env event w :
  (forall cfg args,
     Config.getAIConfig cm = Ret cfg ->
     truthy (Config.apiKey cfg) = true ->
     newOpenAI env (Config.apiKey cfg) = Ret tt ->
     subcommand env args (threadID event +:+ "_" +:+ senderID event) = None ->
     nonempty (trim (join " " args)) = false ->
     onStart cm env event args w
     = (match reply env msgProvideMessage with Ret _ => Ret tt | Throw e => Throw e end,
        traced [ENewClient (Config.apiKey cfg); EReply msgProvideMessage] w))
  /\ (forall R,
        senderID event = author R ->
        nonempty (trim (body event)) = false ->
        onReply cm env event R w
        = (match reply env msgProvideContinue with Ret _ => Ret tt | Throw e => Throw e end,
           traced [EReply msgProvideContinue] w)).
Proof.
  split.
  - intros cfg args Hcfg Hkey Hclient Hsub Hinput.
    apply wp_equation. unfold onStart, onStart_try.
    repeat wp_go; settle_reply.
  - intros R Hsender Hinput.
    assert (Hsame : String.eqb (senderID event) (author R) = true)
      by (apply String.eqb_eq, Hsender).
    apply wp_equation. unfold onReply, onReply_try.
    rewrite Hsame, Hinput. cbv beta iota zeta. cbn [negb].
    repeat wp_go; settle_reply.
Qed.

(** "ai" followed by blanks only, a no-break space among them. *)
Lemma empty_input_is_only_prompted_witness :
  Pipeline.replies
    (trace (snd (onStart Scenario.config Scenario.answering Scenario.hello ["  "; nbsp]
                   (initial Scenario.noRedis)))) = [msgProvideMessage]
  /\ conversations (snd (onStart Scenario.config Scenario.answering Scenario.hello ["  "; nbsp]
                           (initial Scenario.noRedis))) = ∅.
Proof.
  rewrite (proj1 (empty_input_is_only_prompted Scenario.config Scenario.answering
                    Scenario.hello (initial Scenario.noRedis))
             {| Config.apiKey := Some "sk-test"; Config.model := None |} ["  "; nbsp]
             eq_refl eq_refl eq_refl eq_refl eq_refl).
  split; reflexivity.
Defined.

End AiSettings.

(** ** The [ai] command: the two models on an invocation alone *)

Module AloneFacts.
Import JsString Transport Logic Rules Observations Ai AiFacts AiPaths AiAsync AsyncFacts AiAlone.
Import AiMore.













Lemma appendUser_kept env u (c : Conversation) :
  appendUser env u c
  = set_messages
      (trimHistory (messages c ++ [ {| role := User; content := u; timestamp := newDate env |} ]))
      (set_lastUsed (newDate env) c).
Proof. reflexivity. Qed.


























End AloneFacts.
